(** * AiBotX: a shallow embedding of [index.js] and the properties of its
    moderation workflow.

    The bot is one JavaScript module.  Its handlers are sequences of awaited
    calls to three outside services (the Telegram Bot API, a Redis store and
    an inference endpoint) glued by string manipulation.  The embedding has
    three layers:

    - [Js]: the JavaScript primitives the module uses (strings as sequences
      of UTF-16 code units, [trim], [split], [join], [replace], [parseInt],
      number formatting, truthiness);
    - [Prog]: a free monad of awaited calls with [throw]/[try]/[catch], and
      its interpretation [exec]/[run] against a [World] that answers every
      call and may reject any of them;
    - the functions and command handlers of [index.js], under their own
      names, followed by the theorems about them. *)

From Stdlib Require Import ZArith NArith List String Ascii Lia Bool DecimalString.
From stdpp Require Import base decidable countable gmap.
Import ListNotations.

Set Default Proof Using "Type".

(** * JavaScript primitives *)
Module Js.

(** A string is its sequence of UTF-16 code units, so that [length] is
    the [.length] of the source and [===] is equality of sequences. *)
Definition str : Type := list N.

(** The code units of an ASCII literal. *)
Definition lit (s : string) : str := List.map N_of_ascii (list_ascii_of_string s).

(** [a === b] on strings. *)
Definition strictEq (a b : str) : bool := bool_decide (a = b).

(** Truthiness of a string: every string but the empty one. *)
Definition truthy (s : str) : bool :=
  match s with [] => false | _ :: _ => true end.

(** Truthiness of a value that may be [undefined]/[null]. *)
Definition truthyOpt (o : option str) : bool :=
  match o with Some s => truthy s | None => false end.

(** [a || b] on strings. *)
Definition orElse (a b : str) : str := if truthy a then a else b.

(** WhiteSpace and LineTerminator code points of ECMA-262, the code
    units that [trim] strips: TAB, LF, VT, FF, CR, SP, NBSP, U+1680,
    U+2000..U+200A, LS, PS, U+202F, U+205F, U+3000 and the BOM. *)
Definition isWhiteSpace (c : N) : bool :=
  ((9 <=? c) && (c <=? 13) || (c =? 32) || (c =? 160) || (c =? 5760)
   || (8192 <=? c) && (c <=? 8202) || (c =? 8232) || (c =? 8233)
   || (c =? 8239) || (c =? 8287) || (c =? 12288) || (c =? 65279))%N.

Fixpoint trimStart (s : str) : str :=
  match s with
  | c :: s' => if isWhiteSpace c then trimStart s' else s
  | [] => []
  end.

Definition trimEnd (s : str) : str := List.rev (trimStart (List.rev s)).

(** [s.trim()] *)
Definition trim (s : str) : str := trimEnd (trimStart s).

(** [s.split(sep)] for a separator of one code unit (the source splits
    on a line feed and on a space).  The result is never empty:
    [''.split(sep)] is [['']]. *)
Fixpoint split (sep : N) (s : str) : list str :=
  match s with
  | [] => [[]]
  | c :: s' =>
      if (c =? sep)%N then [] :: split sep s'
      else match split sep s' with
           | p :: ps => (c :: p) :: ps
           | [] => [[c]]
           end
  end.

(** [l.join(sep)] *)
Fixpoint join (sep : str) (l : list str) : str :=
  match l with
  | [] => []
  | [x] => x
  | x :: l' => x ++ sep ++ join sep l'
  end.

(** [l.filter(Boolean)] on an array of strings. *)
Definition filterBoolean (l : list str) : list str := List.filter truthy l.

(** [l.slice(1)] *)
Definition slice1 {A} (l : list A) : list A := List.tl l.

Fixpoint startsWith (p s : str) : bool :=
  match p, s with
  | [], _ => true
  | a :: p', b :: s' => (a =? b)%N && startsWith p' s'
  | _ :: _, [] => false
  end.

(** The first occurrence of [pat] in [s]: the text before it and the
    text after it. *)
Fixpoint search (pat : str) (before : str) (s : str) : option (str * str) :=
  if startsWith pat s then Some (List.rev before, List.skipn (length pat) s)
  else match s with
       | [] => None
       | c :: s' => search pat (c :: before) s'
       end.

(** GetSubstitution of ECMA-262 for a string pattern (no captures): in
    the replacement text [$$] is a dollar sign, [$&] the matched text,
    [$`] the text before the match and [$'] the text after it; every
    other code unit stands for itself. *)
Fixpoint getSubstitution (matched before after repl : str) : str :=
  match repl with
  | [] => []
  | c :: r =>
      if (c =? 36)%N then
        match r with
        | d :: r' =>
            if (d =? 36)%N then 36%N :: getSubstitution matched before after r'
            else if (d =? 38)%N then matched ++ getSubstitution matched before after r'
            else if (d =? 96)%N then before ++ getSubstitution matched before after r'
            else if (d =? 39)%N then after ++ getSubstitution matched before after r'
            else c :: getSubstitution matched before after r
        | [] => [c]
        end
      else c :: getSubstitution matched before after r
  end.

(** [s.replace(pat, repl)] with a string pattern: the first occurrence
    only. *)
Definition replace (pat repl s : str) : str :=
  match search pat [] s with
  | Some (before, after) => before ++ getSubstitution pat before after repl ++ after
  | None => s
  end.

(** Numbers.  The module only handles identifiers and timestamps, and
    [NaN] from a failed [parseInt]: a number is [NaN] or an integer.
    A JavaScript number is a double, so [Int z] is the exact image of
    the source's value for [|z| <= 2^53]; theorems that build a number
    from text state that bound. *)
Inductive num : Type := NaN | Int (z : Z).

(** Truthiness of a number: false for [NaN] and for zero. *)
Definition truthyNum (n : num) : bool :=
  match n with NaN => false | Int z => negb (z =? 0)%Z end.

(** [a < b] on numbers: false when either side is [NaN]. *)
Definition lt (a b : num) : bool :=
  match a, b with Int x, Int y => (x <? y)%Z | _, _ => false end.

(** Number to string, as in a template literal: the decimal digits of
    an integer, with a minus sign when negative. *)
Definition toString (z : Z) : str := lit (NilZero.string_of_int (Z.to_int z)).

(** The value of a code unit as a digit: [0-9], then [a-z] or [A-Z]
    for ten and above. *)
Definition digitValue (c : N) : option N :=
  if ((48 <=? c) && (c <=? 57))%N then Some (c - 48)%N
  else if ((97 <=? c) && (c <=? 122))%N then Some (c - 87)%N
  else if ((65 <=? c) && (c <=? 90))%N then Some (c - 55)%N
  else None.

Definition radixDigit (R : N) (c : N) : option N :=
  match digitValue c with
  | Some d => if (d <? R)%N then Some d else None
  | None => None
  end.

(** The longest prefix of radix-[R] digits, as digit values. *)
Fixpoint digitsPrefix (R : N) (s : str) : list N :=
  match s with
  | c :: s' =>
      match radixDigit R c with
      | Some d => d :: digitsPrefix R s'
      | None => []
      end
  | [] => []
  end.

Definition mathInt (R : N) (ds : list N) : N :=
  List.fold_left (fun acc d => acc * R + d)%N ds 0%N.

(** [parseInt(s, radix)] of ECMA-262; [radix = 0] stands for a missing
    radix.  Leading white space is skipped, a sign is read, with radix
    0 or 16 a [0x]/[0X] prefix selects base 16, and the longest prefix
    of digits is the value; no digit at all gives [NaN]. *)
Definition parseInt (s : str) (radix : Z) : num :=
  let s0 := trimStart s in
  let '(negative, s1) :=
    match s0 with
    | c :: r => if (c =? 45)%N then (true, r)
                else if (c =? 43)%N then (false, r) else (false, s0)
    | [] => (false, s0)
    end in
  if ((radix =? 0) || (2 <=? radix) && (radix <=? 36))%Z then
    let R := if (radix =? 0)%Z then 10%N else Z.to_N radix in
    let stripPrefix := ((radix =? 0) || (radix =? 16))%Z in
    let '(R, s2) :=
      if stripPrefix && (startsWith (lit "0x") s1 || startsWith (lit "0X") s1)
      then (16%N, List.skipn 2 s1) else (R, s1) in
    match digitsPrefix R s2 with
    | [] => NaN
    | ds => let v := Z.of_N (mathInt R ds) in Int (if negative then - v else v)%Z
    end
  else NaN.

(** ASCII case mapping, the part of the Unicode tables the laws of
    [Host] below pin down. *)
Definition isAscii (c : N) : bool := (c <? 128)%N.

Definition asciiUpper (c : N) : N :=
  if ((97 <=? c) && (c <=? 122))%N then (c - 32)%N else c.

Definition asciiLower (c : N) : N :=
  if ((65 <=? c) && (c <=? 90))%N then (c + 32)%N else c.

(** [Buffer.from(bytes).toString('base64')]: three octets give four
    letters of the alphabet [A-Za-z0-9+/], the last group is padded
    with [=]. *)
Definition base64Char (n : N) : N :=
  if (n <? 26)%N then (65 + n)%N
  else if (n <? 52)%N then (97 + (n - 26))%N
  else if (n <? 62)%N then (48 + (n - 52))%N
  else if (n =? 62)%N then 43%N
  else 47%N.

Fixpoint base64 (bytes : list N) : str :=
  match bytes with
  | a :: b :: c :: rest =>
      base64Char (a / 4)
      :: base64Char ((a mod 4) * 16 + b / 16)
      :: base64Char ((b mod 16) * 4 + c / 64)
      :: base64Char (c mod 64)
      :: base64 rest
  | [a; b] =>
      [base64Char (a / 4); base64Char ((a mod 4) * 16 + b / 16);
       base64Char ((b mod 16) * 4); 61]%N
  | [a] => [base64Char (a / 4); base64Char ((a mod 4) * 16); 61; 61]%N
  | [] => []
  end.

End Js.

Import Js.

(** * The host: configuration and the Unicode tables

    [BOT_TOKEN] and [HF_TOKEN] come from the process environment.
    [toUpperCase] and [toLowerCase] are the String methods, whose
    Unicode tables are not part of the module: they are taken as given,
    with the one law the bot relies on, that on ASCII text they map the
    letters [a-z] and [A-Z] onto each other and nothing else. *)
Class Host : Type := {
  BOT_TOKEN : str;
  HF_TOKEN : str;
  toUpperCase : str -> str;
  toLowerCase : str -> str;
  toUpperCase_ascii :
    forall s, forallb isAscii s = true -> toUpperCase s = List.map asciiUpper s;
  toLowerCase_ascii :
    forall s, forallb isAscii s = true -> toLowerCase s = List.map asciiLower s
}.

(** A host whose case mappings act on the ASCII letters only, used to run
    the model on concrete ASCII inputs. *)
Definition asciiHost (bot_token hf_token : str) : Host :=
  {| BOT_TOKEN := bot_token;
     HF_TOKEN := hf_token;
     toUpperCase := List.map asciiUpper;
     toLowerCase := List.map asciiLower;
     toUpperCase_ascii := fun s _ => eq_refl;
     toLowerCase_ascii := fun s _ => eq_refl |}.

(** * Data of the Bot API and of the inference endpoint *)

Record ChatMember : Type := {
  status : str;
  user_username : option str;
  user_first_name : option str
}.

Record PhotoSize : Type := { file_id : str }.

Record Button : Type := { button_text : option str }.

Record ReplyMarkup : Type := { inline_keyboard : option (list (list Button)) }.

(** The replied-to message.  [date] is Unix time, which the Bot API
    documents as always positive. *)
Record Message : Type := {
  from_id : Z;
  from_first_name : option str;
  from_username : option str;
  message_id : Z;
  text : option str;
  caption : option str;
  photo : option (list PhotoSize);
  reply_markup : option ReplyMarkup;
  date : N
}.

(** What a handler reads of its [ctx]. *)
Record Context : Type := {
  chat_type : str;
  chat_id : Z;
  from : Z;
  message_text : str;
  reply_to_message : option Message
}.

Inductive ContentPart : Type :=
| TextPart (t : str)
| ImageUrlPart (url : str).

Inductive Content : Type :=
| Plain (t : str)
| Parts (l : list ContentPart).

Record ChatMessage : Type := { role : str; content : Content }.

Record InferenceRequest : Type := {
  model : str;
  messages : list ChatMessage;
  max_tokens : Z;
  temperature : Z
}.

Record Verdict : Type := { violates : bool; reason : str }.

(** [until_date] is [false] in [/unmute] and [0] in [/report]. *)
Inductive Until : Type := UntilFalse | UntilNum (z : Z).

(** * Awaited calls *)

(** A promise is fulfilled with a value or rejected. *)
Inductive result (X : Type) : Type :=
| Fulfilled (x : X)
| Rejected.
Arguments Fulfilled {X} x.
Arguments Rejected {X}.

(** What line 43 makes of the body of the endpoint's answer: the value of
    [data.choices?.[0]?.message?.content] when that is a string or is
    absent ([undefined] or [null]), or a body on which the line throws
    (no body at all, or a content that is no string and has no [trim]). *)
Inductive Body : Type :=
| Answered (content : option str)
| Unreadable.

(** The calls the module awaits, indexed by what they are fulfilled
    with.  [Reply] is [ctx.reply] and yields the [message_id] of the
    message sent; [GetFile] yields the [file_path]; [AxiosGet] the
    octets of the file. *)
Inductive call : Type -> Type :=
| Reply (t : str) : call Z
| GetChatMember (chatId userId : Z) : call ChatMember
| RestrictChatMember (chatId userId : Z) (until_date : Until)
    (permissions : list (str * bool)) : call unit
| EditMessageText (chatId messageId : Z) (t : str) : call unit
| DeleteMessage (chatId messageId : Z) : call unit
| GetFile (fileId : str) : call str
| AxiosGet (url : str) : call (list N)
| AxiosPost (url : str) (body : InferenceRequest) (authorization : str)
    (timeout : Z) : call Body
| RedisGet (key : str) : call (option str)
| RedisSet (key value : str) : call unit
| RedisDel (key : str) : call unit.

(** Programs: a tree of awaited calls.  [Do c k] awaits [c] and goes on
    with [k] on its result; [Now k] reads [Date.now()]; [Throw] is an
    exception on its way up. *)
Inductive Prog (A : Type) : Type :=
| Ret (a : A)
| Throw
| Do {X : Type} (c : call X) (k : result X -> Prog A)
| Now (k : Z -> Prog A).
Arguments Ret {A} a.
Arguments Throw {A}.
Arguments Do {A X} c k.
Arguments Now {A} k.

Fixpoint bind {A B} (p : Prog A) (f : A -> Prog B) : Prog B :=
  match p with
  | Ret a => f a
  | Throw => Throw
  | Do c k => Do c (fun r => bind (k r) f)
  | Now k => Now (fun t => bind (k t) f)
  end.

(** [try { p } catch (error) { h }] *)
Fixpoint try_catch {A} (p : Prog A) (h : Prog A) : Prog A :=
  match p with
  | Ret a => Ret a
  | Throw => h
  | Do c k => Do c (fun r => try_catch (k r) h)
  | Now k => Now (fun t => try_catch (k t) h)
  end.

(** [await c]: a rejection is thrown. *)
Definition await {X} (c : call X) : Prog X :=
  Do c (fun r => match r with Fulfilled x => Ret x | Rejected => Throw end).

Definition dateNow : Prog Z := Now Ret.

Declare Scope prog_scope.
Delimit Scope prog_scope with prog.
Notation "'let*' x ':=' p 'in' q" := (bind p (fun x => q))
  (at level 10, x name, p at level 100, q at level 200) : prog_scope.
Local Open Scope prog_scope.

(** * Worlds and runs *)

(** A world answers every call from its state, and tells the time. *)
Record World : Type := {
  state : Type;
  answer : forall X, call X -> state -> result X * state;
  clock : state -> Z
}.
Arguments answer w {X} c s.

(** One awaited call with its outcome. *)
Inductive event : Type :=
| Ev {X : Type} (c : call X) (r : result X).

Inductive outcome (A : Type) : Type :=
| Returned (a : A)
| Thrown.
Arguments Returned {A} a.
Arguments Thrown {A}.

(** [exec] runs a program; [acc] holds the events so far, latest first. *)
Fixpoint exec {A} (w : World) (p : Prog A) (s : state w) (acc : list event)
  : outcome A * state w * list event :=
  match p with
  | Ret a => (Returned a, s, acc)
  | Throw => (Thrown, s, acc)
  | Do c k =>
      let (r, s') := answer w c s in exec w (k r) s' (Ev c r :: acc)
  | Now k => exec w (k (clock w s)) s acc
  end.

Record Run (A S : Type) : Type := {
  value : outcome A;
  final : S;
  trace : list event
}.
Arguments value {A S} r.
Arguments final {A S} r.
Arguments trace {A S} r.

(** A run from state [s]: the outcome, the final state and the calls
    made, in order. *)
Definition run {A} (w : World) (p : Prog A) (s : state w) : Run A (state w) :=
  let '(o, s', acc) := exec w p s [] in
  {| value := o; final := s'; trace := List.rev acc |}.

(** Kinds of calls the claims single out. *)
Definition is_inference (e : event) : bool :=
  match e with Ev c _ => match c with AxiosPost _ _ _ _ => true | _ => false end end.

Definition is_delete (e : event) : bool :=
  match e with Ev c _ => match c with DeleteMessage _ _ => true | _ => false end end.

Definition is_restrict (e : event) : bool :=
  match e with Ev c _ => match c with RestrictChatMember _ _ _ _ => true | _ => false end end.

Definition is_lookup (e : event) : bool :=
  match e with Ev c _ => match c with GetChatMember _ _ => true | _ => false end end.

Definition is_store_write (e : event) : bool :=
  match e with
  | Ev c _ => match c with RedisSet _ _ | RedisDel _ => true | _ => false end
  end.

(** * The module [index.js] *)

Section Bot.

Context `{Host}.

Definition SPECIAL_ANONYMOUS_IDS : list Z := [1087968824; 136817688]%Z.

(** [l.includes(x)] on an array of numbers. *)
Definition includes (l : list Z) (x : Z) : bool := existsb (Z.eqb x) l.

(** [l.includes(s)] on an array of strings. *)
Definition includesStr (l : list str) (s : str) : bool := existsb (strictEq s) l.

Definition PROMPT_TEMPLATE : str :=
  (lit "You are a strict Telegram group moderator. Your task is to "
   ++ lit "analyze user messages or images for violations of the EXACT "
   ++ lit "group rules listed below. ONLY consider these rules: "
   ++ lit "{RULES}. Do not add, assume, or reference any other rules "
   ++ lit "from your training data or external knowledge. First, "
   ++ lit "verify step-by-step: 1) List each rule briefly. 2) Check if "
   ++ lit "the content matches any rule exactly. 3) Decide YES only if "
   ++ lit "there is a direct violation. Respond only with " ++ [34]%N
   ++ lit "YES" ++ [34]%N
   ++ lit " if the message/image violates any rule, followed by a "
   ++ lit "brief explanation on a new line (reference the specific "
   ++ lit "rule violated). Respond with " ++ [34]%N ++ lit "NO" ++ [34]%N
   ++ lit " if it does not violate any rules, followed by a brief "
   ++ lit "reason on a new line. Keep responses concise. Do not repeat "
   ++ lit "or quote the message/image content in your explanation to "
   ++ lit "avoid re-sharing sensitive material.").

(** [VLM_CONFIG] *)
Definition ENDPOINT : str := lit "https://router.huggingface.co/v1/chat/completions".
Definition MODEL : str := lit "Qwen/Qwen2.5-VL-7B-Instruct".
Definition MAX_TOKENS : Z := 150.

(** Lines 46-53 of [callHuggingFace]: the verdict read off a non-empty
    trimmed [content]. *)
Definition parts (content : str) : list str :=
  filterBoolean (List.map trim (split 10 content)).

Definition NO_RESPONSE : Verdict :=
  {| violates := false; reason := lit "No analysis response" |}.

Definition UNAVAILABLE : Verdict :=
  {| violates := false; reason := lit "Analysis unavailable" |}.

Definition verdictOf (content : str) : Verdict :=
  let decision := option_map toUpperCase (List.head (parts content)) in
  let reason := orElse (join (lit " ") (slice1 (parts content))) (lit "Unspecified") in
  {| violates := bool_decide (decision = Some (lit "YES"));
     reason := reason |}.

(** Lines 43-53, from the content that line 43 reads. *)
Definition parseResponse (content : option str) : Verdict :=
  match option_map trim content with
  | Some content =>
      if negb (truthy content) then NO_RESPONSE else verdictOf content
  | None => NO_RESPONSE
  end.

(** Lines 33-41: the request that [axios.post] sends. *)
Definition inferencePost (messages : list ChatMessage) : call Body :=
  AxiosPost ENDPOINT
    {| model := MODEL;
       messages := messages;
       max_tokens := MAX_TOKENS;
       temperature := 0 |}
    (lit "Bearer " ++ HF_TOKEN) 10000.

Definition callHuggingFace (messages : list ChatMessage) : Prog Verdict :=
  try_catch
    (let* data := await (inferencePost messages) in
     match data with
     | Answered content => Ret (parseResponse content)
     | Unreadable => Throw
     end)
    (Ret UNAVAILABLE).

(** The two keys of a chat. *)
Definition simpleRulesKey (chatId : Z) : str :=
  lit "group_simple_rules:" ++ toString chatId.

Definition rulesCreatedKey (chatId : Z) : str :=
  lit "group_rules_created:" ++ toString chatId.

(** [null] is [None]. *)
Definition getSimpleRules (chatId : Z) : Prog (option str) :=
  try_catch
    (let* simpleRules := await (RedisGet (simpleRulesKey chatId)) in
     Ret (if truthyOpt simpleRules then simpleRules else None))
    (Ret None).

Definition getRulesCreatedDate (chatId : Z) : Prog (option num) :=
  try_catch
    (let* createdDate := await (RedisGet (rulesCreatedKey chatId)) in
     Ret (match createdDate with
          | Some s => if truthy s then Some (parseInt s 10) else None
          | None => None
          end))
    (Ret None).

Definition buildFullPrompt (rules : str) : str :=
  replace (lit "{RULES}") (trim rules) PROMPT_TEMPLATE.

(** The result [false] is [None]. *)
Definition setCustomRules (chatId : Z) (rules : str) : Prog (option str) :=
  try_catch
    (if (length rules <? 20)%nat then Throw
     else
       let* now := dateNow in
       let nowInSeconds := (now / 1000)%Z in
       let* _ := await (RedisSet (simpleRulesKey chatId) (trim rules)) in
       let* _ := await (RedisSet (rulesCreatedKey chatId) (toString nowInSeconds)) in
       Ret (Some (buildFullPrompt rules)))
    (Ret None).

Definition isAdminStatus (m : ChatMember) : bool :=
  includesStr [lit "administrator"; lit "creator"] (status m).

Definition isAuthorizedUser (ctx : Context) (chatId : Z) : Prog bool :=
  let userId := from ctx in
  if includes SPECIAL_ANONYMOUS_IDS userId then Ret true
  else
    try_catch
      (let* member := await (GetChatMember chatId userId) in
       Ret (isAdminStatus member))
      (Ret false).

(** [ctx.reply(text)], its result dropped. *)
Definition reply (t : str) : Prog unit :=
  let* _ := await (Reply t) in Ret tt.

Definition editMessageText (chatId messageId : Z) (t : str) : Prog unit :=
  await (EditMessageText chatId messageId t).

Definition GROUPS_ONLY : str := lit "This command is for groups only.".

(** ** [/rules] *)

Definition NO_RULES_SET : str :=
  ([10060]%N
   ++ lit " No custom rules set for this group. Use /rules set <rules> "
   ++ lit "to add them.").
Definition ONLY_ADMINS_RULES : str :=
  (lit "Only admins or authorized special users can set or reset "
   ++ lit "rules.").
Definition RULES_SET_USAGE : str :=
  (lit "Usage: /rules set <simple rules here>" ++ [10]%N
   ++ lit "Example: /rules set no spam, no ads, no hate speech, no "
   ++ lit "off-topic (keep it tech-related).").
Definition RULES_SET_FAILED : str :=
  ([10060]%N
   ++ lit " Failed to set rules. Check length (min 20 chars) and try "
   ++ lit "again.").
Definition CURRENT_RULES (simpleRules : str) : str :=
  (lit "Current rules:" ++ [10; 10; 34]%N) ++ simpleRules ++ [34]%N.
Definition RULES_SET_DONE (rulesText : str) : str :=
  ([9989]%N ++ lit " Custom rules set: " ++ [34]%N) ++ rulesText
  ++ ([34; 10; 10]%N ++ lit "(Full prompt built internally for analysis.)"
      ++ [10; 10]%N ++ lit "Now /report will work.").
Definition RULES_RESET_DONE : str :=
  ([55357; 56785; 65039]%N
   ++ lit " Custom rules reset. Use /rules set <rules> to add new ones.").
Definition RULES_RESET_FAILED : str :=
  ([10060]%N ++ lit " Failed to reset rules. Try again.").
Definition RULES_INVALID : str :=
  (lit "Invalid subcommand. Use: /rules (show), /rules set <rules>, "
   ++ lit "or /rules reset.").

(** Lines 156-162, the body of the [reset] branch of [/rules]. *)
Definition resetRules (chatId : Z) : Prog unit :=
  try_catch
    (let* _ := await (RedisDel (simpleRulesKey chatId)) in
     let* _ := await (RedisDel (rulesCreatedKey chatId)) in
     reply RULES_RESET_DONE)
    (reply RULES_RESET_FAILED).

Definition rulesCommand (ctx : Context) : Prog unit :=
  if negb (strictEq (chat_type ctx) (lit "supergroup")) then reply GROUPS_ONLY
  else
    let chatId := chat_id ctx in
    let args := split 32 (trim (replace (lit "/rules") [] (message_text ctx))) in
    let subcommand := option_map toLowerCase (List.head args) in
    if negb (truthyOpt subcommand) then
      let* simpleRules := getSimpleRules chatId in
      match simpleRules with
      | Some rules =>
          if truthy rules then reply (CURRENT_RULES rules)
          else reply NO_RULES_SET
      | None => reply NO_RULES_SET
      end
    else
      let* authorized := isAuthorizedUser ctx chatId in
      let isSet := bool_decide (subcommand = Some (lit "set")) in
      let isReset := bool_decide (subcommand = Some (lit "reset")) in
      if negb authorized && (isSet || isReset) then reply ONLY_ADMINS_RULES
      else if isSet then
        let rulesText := trim (join (lit " ") (slice1 args)) in
        if negb (truthy rulesText) then reply RULES_SET_USAGE
        else
          let* fullPrompt := setCustomRules chatId rulesText in
          match fullPrompt with
          | Some _ => reply (RULES_SET_DONE rulesText)
          | None => reply RULES_SET_FAILED
          end
      else if isReset then resetRules chatId
      else reply RULES_INVALID.

(** ** [/unmute] *)

Definition UNMUTE_USAGE : str :=
  (lit "Usage: /unmute <user_id>" ++ [10]%N
   ++ lit "Example: /unmute 123456789" ++ [10]%N
   ++ lit "(Only admins can use this.)").
Definition ONLY_ADMINS_UNMUTE : str :=
  lit "Only admins or authorized special users can unmute users.".

Definition UNMUTED_ID (userId : Z) : str := lit "User ID: " ++ toString userId.
Definition UNMUTED_USERNAME (username : str) (userId : Z) : str :=
  lit "@" ++ username ++ lit " (ID: " ++ toString userId ++ lit ")".
Definition UNMUTED_FIRST_NAME (first_name : str) (userId : Z) : str :=
  first_name ++ lit " (ID: " ++ toString userId ++ lit ")".
Definition UNMUTE_DONE (userDisplay : str) : str :=
  ([9989]%N ++ lit " ") ++ userDisplay ++ lit " unmuted successfully.".
Definition UNMUTE_FAILED (userId : Z) : str :=
  ([10060]%N ++ lit " Failed to unmute user ") ++ toString userId
  ++ lit ". Check bot permissions or if the user exists.".

Definition UNMUTE_PERMISSIONS : list (str * bool) :=
  [(lit "can_send_messages", true); (lit "can_send_media_messages", true);
   (lit "can_send_polls", true); (lit "can_send_other_messages", true);
   (lit "can_add_web_page_previews", true); (lit "can_manage_topics", true)].

(** The test [!userIdStr || isNaN(parseInt(userIdStr))] and the later
    [parseInt(userIdStr)] read the same number: one [match] on it does
    both. *)
Definition unmuteCommand (ctx : Context) : Prog unit :=
  if negb (strictEq (chat_type ctx) (lit "supergroup")) then reply GROUPS_ONLY
  else
    let chatId := chat_id ctx in
    let args := split 32 (trim (replace (lit "/unmute") [] (message_text ctx))) in
    let userIdStr := option_map trim (List.head args) in
    match userIdStr with
    | None => reply UNMUTE_USAGE
    | Some userIdStr =>
        if negb (truthy userIdStr) then reply UNMUTE_USAGE
        else
          match parseInt userIdStr 0 with
          | NaN => reply UNMUTE_USAGE
          | Int userId =>
              let* authorized := isAuthorizedUser ctx chatId in
              if negb authorized then reply ONLY_ADMINS_UNMUTE
              else
                try_catch
                  (let* _ := await (RestrictChatMember chatId userId UntilFalse
                                      UNMUTE_PERMISSIONS) in
                   let* userDisplay :=
                     try_catch
                       (let* member := await (GetChatMember chatId userId) in
                        Ret (if truthyOpt (user_username member)
                             then UNMUTED_USERNAME
                                    (default [] (user_username member)) userId
                             else if truthyOpt (user_first_name member)
                             then UNMUTED_FIRST_NAME
                                    (default [] (user_first_name member)) userId
                             else UNMUTED_ID userId))
                       (Ret (UNMUTED_ID userId)) in
                   reply (UNMUTE_DONE userDisplay))
                  (reply (UNMUTE_FAILED userId))
          end
    end.

(** ** [/report] *)

Definition REPLY_TO_REPORT : str :=
  (lit "Please reply to a message with /report to analyze it for "
   ++ lit "rule violations.").
Definition NOTHING_TO_ANALYZE : str :=
  lit "The replied message has no text or photo to analyze.".
Definition ANALYZING : str :=
  ([55357; 56589]%N ++ lit " Analyzing content...").
Definition NO_RULES_REPORT : str :=
  ([10060]%N
   ++ lit " No custom rules set for this group. Admins, use /rules set "
   ++ lit "first.").
Definition PREDATES_RULES : str :=
  ([10060]%N ++ lit " This message was sent before the rules were created. "
   ++ lit "Cannot check violations for old messages.").
Definition ANALYSIS_FAILED : str :=
  ([10060]%N ++ lit " Analysis failed. Check rules or try again.").

Definition MUTE_PERMISSIONS : list (str * bool) :=
  [(lit "can_send_messages", false); (lit "can_send_media_messages", false);
   (lit "can_send_polls", false); (lit "can_send_other_messages", false);
   (lit "can_add_web_page_previews", false)].

(** [text || caption || ''] *)
Definition messageTextOf (replied : Message) : str :=
  if truthyOpt (text replied) then default [] (text replied)
  else if truthyOpt (caption replied) then default [] (caption replied)
  else [].

(** [username ? `@${username}` : first_name || 'Unknown User'] *)
Definition userDisplayOf (replied : Message) : str :=
  if truthyOpt (from_username replied)
  then lit "@" ++ default [] (from_username replied)
  else if truthyOpt (from_first_name replied)
  then default [] (from_first_name replied)
  else lit "Unknown User".

Definition userInfoOf (replied : Message) : str :=
  userDisplayOf replied ++ lit " (ID: " ++ toString (from_id replied) ++ lit ")".

Definition SKIPPED (userInfo : str) : str :=
  ([8505; 65039]%N ++ lit " This user (") ++ userInfo
  ++ (lit ") is an admin or authorized special user. Moderation "
      ++ lit "actions skipped.").

(** Lines 222-237: the texts of the inline buttons, row by row. *)
Definition buttonTexts (rows : list (list Button)) : list str :=
  List.flat_map
    (fun row =>
       List.flat_map
         (fun button => if truthyOpt (button_text button)
                        then [default [] (button_text button)] else [])
         row)
    rows.

Definition MARKUP_TEXT (buttons : list str) : str :=
  (lit " The message includes inline keyboard buttons with the "
   ++ lit "following texts: " ++ [34]%N)
  ++ join ([34]%N ++ lit ", " ++ [34]%N) buttons ++ ([34]%N ++ lit ".").

Definition markupTextOf (replied : Message) : str :=
  match reply_markup replied with
  | Some markup =>
      match inline_keyboard markup with
      | Some rows =>
          let buttons := buttonTexts rows in
          if (0 <? length buttons)%nat then MARKUP_TEXT buttons else []
      | None => []
      end
  | None => []
  end.

Definition ANALYSIS_TEXT (messageText markupText : str) : str :=
  (lit "Analyze this message for rule violations: " ++ [34]%N) ++ messageText ++ [34]%N
  ++ markupText.

Definition CAPTION_TEXT (analysisText : str) : str :=
  analysisText ++ lit " (The text is the image caption.)".

Definition IMAGE_TEXT (markupText : str) : str :=
  lit "Analyze this image for rule violations." ++ markupText.

(** Lines 255-271: the user message, after fetching the photo if any.
    [photo[photo.length - 1]] of an empty array is undefined, and
    reading its [file_id] throws. *)
Definition buildUserMsg (replied : Message) : Prog ChatMessage :=
  let messageText := messageTextOf replied in
  let markupText := markupTextOf replied in
  let analysisText := ANALYSIS_TEXT messageText markupText in
  match photo replied with
  | Some sizes =>
      match last sizes with
      | Some largest =>
          let* file_path := await (GetFile (file_id largest)) in
          let fileUrl :=
            lit "https://api.telegram.org/file/bot" ++ BOT_TOKEN ++ lit "/" ++ file_path in
          let* data := await (AxiosGet fileUrl) in
          let imageAnalysisText :=
            if truthy messageText then CAPTION_TEXT analysisText
            else IMAGE_TEXT markupText in
          Ret {| role := lit "user";
                 content := Parts [TextPart imageAnalysisText;
                                   ImageUrlPart (lit "data:image/jpeg;base64,"
                                                 ++ base64 data)] |}
      | None => Throw
      end
  | None => Ret {| role := lit "user"; content := Plain analysisText |}
  end.

(** Line 248: [rulesCreatedDate && messageDate < rulesCreatedDate]. *)
Definition predatesRules (messageDate : N) (rulesCreatedDate : option num) : bool :=
  match rulesCreatedDate with
  | Some created => truthyNum created && lt (Int (Z.of_N messageDate)) created
  | None => false
  end.

(** Lines 241-277: the [try] block of the handler.  [None] is the
    handler returning from inside the block, [Some v] is falling
    through with the verdict [v]. *)
Definition analyse (chatId loadingMsgId : Z) (replied : Message)
  : Prog (option Verdict) :=
  try_catch
    (let* simpleRules := getSimpleRules chatId in
     if negb (truthyOpt simpleRules) then
       let* _ := editMessageText chatId loadingMsgId NO_RULES_REPORT in
       Ret None
     else
       let* rulesCreatedDate := getRulesCreatedDate chatId in
       if predatesRules (date replied) rulesCreatedDate then
         let* _ := editMessageText chatId loadingMsgId PREDATES_RULES in
         Ret None
       else
         let fullPrompt := buildFullPrompt (default [] simpleRules) in
         let systemMsg := {| role := lit "system"; content := Plain fullPrompt |} in
         let* userMsg := buildUserMsg replied in
         let* verdict := callHuggingFace [systemMsg; userMsg] in
         Ret (Some verdict))
    (let* _ := editMessageText chatId loadingMsgId ANALYSIS_FAILED in
     Ret None).

Definition MUTED (replied : Message) (reason : str) : str :=
  lit "User " ++ userInfoOf replied ++ lit " muted permanently: " ++ reason
  ++ ([10; 10]%N ++ lit "(Admins can use /unmute ") ++ toString (from_id replied) ++ lit " to unmute.)".

Definition ACTION_FAILED (replied : Message) (reason : str) : str :=
  lit "Violation detected for " ++ userInfoOf replied
  ++ lit ", but action failed (e.g., admin rights needed). Reason: " ++ reason.

(** Lines 280-298: enforcement after a positive verdict. *)
Definition enforce (chatId : Z) (replied : Message) (reason : str) : Prog unit :=
  try_catch
    (let* _ := await (DeleteMessage chatId (message_id replied)) in
     let* _ := await (RestrictChatMember chatId (from_id replied) (UntilNum 0)
                        MUTE_PERMISSIONS) in
     reply (MUTED replied reason))
    (reply (ACTION_FAILED replied reason)).

Definition VIOLATION (reason : str) : str :=
  ([9888; 65039]%N ++ lit " Violation detected: ") ++ reason.
Definition ALL_GOOD (reason : str) : str :=
  ([9989]%N ++ lit " All good: ") ++ reason.

Definition reportCommand (ctx : Context) : Prog unit :=
  if negb (strictEq (chat_type ctx) (lit "supergroup")) then reply GROUPS_ONLY
  else
    match reply_to_message ctx with
    | None => reply REPLY_TO_REPORT
    | Some replied =>
        let userId := from_id replied in
        let chatId := chat_id ctx in
        let messageText := messageTextOf replied in
        if negb (truthy messageText) && negb (bool_decide (is_Some (photo replied)))
        then reply NOTHING_TO_ANALYZE
        else
          let userInfo := userInfoOf replied in
          let* isReportedUserAuthorized :=
            if includes SPECIAL_ANONYMOUS_IDS userId then Ret true
            else
              try_catch
                (let* member := await (GetChatMember chatId userId) in
                 Ret (isAdminStatus member))
                (Ret false) in
          if isReportedUserAuthorized then reply (SKIPPED userInfo)
          else
            let* loadingMsg := await (Reply ANALYZING) in
            let* verdict := analyse chatId loadingMsg replied in
            match verdict with
            | None => Ret tt
            | Some v =>
                let response :=
                  if violates v then VIOLATION (reason v) else ALL_GOOD (reason v) in
                let* _ := editMessageText chatId loadingMsg response in
                if violates v then enforce chatId replied (reason v) else Ret tt
            end
    end.

End Bot.

(** * Worlds used to run the handlers *)

(** Further kinds of events. *)
Definition is_failed_inference (e : event) : bool :=
  match e with
  | Ev c r =>
      is_inference (Ev c r)
      && match r with Rejected => true | Fulfilled _ => false end
  end.


(** A write of [key]: the value written. *)
Definition written_to (key : str) (e : event) : option str :=
  match e with
  | Ev c _ =>
      match c with
      | RedisSet k v => if bool_decide (k = key) then Some v else None
      | _ => None
      end
  end.

(** A stateless world: every platform call succeeds, the member lookup,
    the two stored values and the inference response are as given. *)
Definition fixedWorld (member : result ChatMember) (rules created : option str)
    (inference : result Body) : World :=
  {| state := unit;
     answer := fun X (c : call X) (_ : unit) =>
       (match c in call X return result X with
        | Reply _ => Fulfilled 1000%Z
        | GetChatMember _ _ => member
        | RestrictChatMember _ _ _ _ => Fulfilled tt
        | EditMessageText _ _ _ => Fulfilled tt
        | DeleteMessage _ _ => Fulfilled tt
        | GetFile _ => Fulfilled (lit "photos/file_1.jpg")
        | AxiosGet _ => Fulfilled []
        | AxiosPost _ _ _ _ => inference
        | RedisGet k =>
            Fulfilled (if startsWith (lit "group_simple_rules:") k
                       then rules else created)
        | RedisSet _ _ => Fulfilled tt
        | RedisDel _ => Fulfilled tt
        end, tt);
     clock := fun _ => 0%Z |}.

(** A world extended with a reliable key-value store: the Redis calls
    are answered from a finite map, every other call by [w]. *)
Definition withStore (w : World) : World :=
  {| state := (state w * gmap str str)%type;
     answer := fun X (c : call X) (s : state w * gmap str str) =>
       match c in call X return result X * (state w * gmap str str) with
       | RedisGet k => (Fulfilled (snd s !! k), s)
       | RedisSet k v => (Fulfilled tt, (fst s, <[k := v]> (snd s)))
       | RedisDel k => (Fulfilled tt, (fst s, delete k (snd s)))
       | c' => let (r, s1) := answer w c' (fst s) in (r, (s1, snd s))
       end;
     clock := fun s => clock w (fst s) |}.

(** The decimal digits [0-9], and the number a run of them denotes. *)
Definition isDecimalDigit (c : N) : bool := ((48 <=? c) && (c <=? 57))%N.

Definition decimalValue (ds : str) : N :=
  List.fold_left (fun acc c => acc * 10 + (c - 48))%N ds 0%N.

(** A text that is empty or starts with something else than a decimal
    digit. *)
Definition digitsEnd (s : str) : Prop :=
  match s with
  | [] => True
  | c :: _ => isDecimalDigit c = false
  end.

(** A text that is empty or starts with a code unit that is not white
    space. *)
Definition headOk (s : str) : Prop :=
  match s with
  | [] => True
  | c :: _ => isWhiteSpace c = false
  end.

(** A text of white space only. *)
Definition blank (s : str) : bool := forallb isWhiteSpace s.

(** The stored creation time [stored] reads as a time later than
    [messageDate]. *)
Definition laterThan (messageDate : N) (stored : str) : bool :=
  match parseInt stored 10 with
  | Int created => (Z.of_N messageDate <? created)%Z
  | NaN => false
  end.

(** Calls that act on the reported message or its sender, and the
    inference call. *)
Definition is_action (e : event) : bool :=
  is_inference e || is_delete e || is_restrict e.

(** The user a call restricts, if it is a restriction. *)
Definition restricted (e : event) : option Z :=
  match e with
  | Ev c _ =>
      match c with
      | RestrictChatMember _ userId _ _ => Some userId
      | _ => None
      end
  end.

(** A reply with the text [t]. *)
Definition is_reply_of (t : str) (e : event) : bool :=
  match e with
  | Ev c _ => match c with Reply t' => bool_decide (t' = t) | _ => false end
  end.

(** A text that is empty or starts with the code unit [c]. *)
Definition startsAt (c : N) (s : str) : Prop :=
  s = [] \/ exists s', s = c :: s'.

(** * Further kinds of events and worlds *)

(** An inference call that was answered with a verdict of violation. *)
Definition is_violation_verdict `{Host} (e : event) : bool :=
  match e with
  | Ev c r =>
      match c in call X return result X -> bool with
      | AxiosPost _ _ _ _ =>
          fun r => match r with
                   | Fulfilled (Answered content) => violates (parseResponse content)
                   | _ => false
                   end
      | _ => fun _ => false
      end r
  end.

(** A read of [key] that gives no text: rejected, missing or empty. *)
Definition is_unset_read (key : str) (e : event) : bool :=
  match e with
  | Ev c r =>
      match c in call X return result X -> bool with
      | RedisGet k =>
          fun r => bool_decide (k = key)
                   && match r with
                      | Fulfilled (Some t) => negb (truthy t)
                      | _ => true
                      end
      | _ => fun _ => false
      end r
  end.

(** A read of [key] that gives no creation time later than
    [messageDate]: rejected, missing, empty, not a number, or a time at
    or before [messageDate]. *)
Definition is_read_not_later (key : str) (messageDate : N) (e : event) : bool :=
  match e with
  | Ev c r =>
      match c in call X return result X -> bool with
      | RedisGet k =>
          fun r => bool_decide (k = key)
                   && match r with
                      | Fulfilled (Some t) => negb (laterThan messageDate t)
                      | _ => true
                      end
      | _ => fun _ => false
      end r
  end.

(** A step of the photo download, [getFile] or the [GET] of the file,
    that was rejected. *)
Definition is_failed_download (e : event) : bool :=
  match e with
  | Ev c r =>
      match c with
      | GetFile _ | AxiosGet _ =>
          match r with Rejected => true | Fulfilled _ => false end
      | _ => false
      end
  end.

(** A deletion or a restriction that was rejected. *)
Definition is_failed_enforcement (e : event) : bool :=
  (is_delete e || is_restrict e)
  && match e with Ev _ Rejected => true | Ev _ (Fulfilled _) => false end.

(** A call that was rejected. *)
Definition is_rejected (e : event) : bool :=
  match e with Ev _ Rejected => true | Ev _ (Fulfilled _) => false end.

Definition is_store_access (e : event) : bool :=
  match e with
  | Ev c _ =>
      match c with
      | RedisGet _ | RedisSet _ _ | RedisDel _ => true
      | _ => false
      end
  end.

Definition is_reply (e : event) : bool :=
  match e with Ev c _ => match c with Reply _ => true | _ => false end end.

Definition is_edit (e : event) : bool :=
  match e with
  | Ev c _ => match c with EditMessageText _ _ _ => true | _ => false end
  end.

(** The key that a call to the store reads, writes or deletes. *)
Definition accessed_key (e : event) : option str :=
  match e with
  | Ev c _ =>
      match c with
      | RedisGet k | RedisSet k _ | RedisDel k => Some k
      | _ => None
      end
  end.

(** Every call to the store is on one of the two keys of the chat. *)
Definition own_keys (chatId : Z) (e : event) : Prop :=
  match accessed_key e with
  | Some k => k = simpleRulesKey chatId \/ k = rulesCreatedKey chatId
  | None => True
  end.

(** [P earlier e] holds of every event [e] of a run together with the
    events [earlier] than it; both lists are latest first. *)
Fixpoint ForallEarlier (P : list event -> event -> Prop) (acc : list event) : Prop :=
  match acc with
  | [] => True
  | e :: earlier => P earlier e /\ ForallEarlier P earlier
  end.

(** A world that answers like [w], except that the calls chosen by
    [fails] are rejected. *)
Definition failing (fails : forall X, call X -> bool) (w : World) : World :=
  {| state := state w;
     answer := fun X (c : call X) (s : state w) =>
       if fails X c then (Rejected, s) else answer w c s;
     clock := clock w |}.

(** The world [w] with the clock showing [now] milliseconds. *)
Definition atTime (now : Z) (w : World) : World :=
  {| state := state w; answer := @answer w; clock := fun _ => now |}.

(** The two messages of the inference request for a message without a
    photo. *)
Definition textRequest `{Host} (rules : str) (replied : Message) : list ChatMessage :=
  [{| role := lit "system"; content := Plain (buildFullPrompt rules) |};
   {| role := lit "user";
      content := Plain (ANALYSIS_TEXT (messageTextOf replied) (markupTextOf replied)) |}].

(** The user message of the inference request for a message with a
    photo whose octets are [data]. *)
Definition photoMessage `{Host} (replied : Message) (data : list N) : ChatMessage :=
  {| role := lit "user";
     content :=
       Parts [TextPart (if truthy (messageTextOf replied)
                        then CAPTION_TEXT (ANALYSIS_TEXT (messageTextOf replied)
                                             (markupTextOf replied))
                        else IMAGE_TEXT (markupTextOf replied));
              ImageUrlPart (lit "data:image/jpeg;base64," ++ base64 data)] |}.

(** The sender of a command is authorized, and [s1] is the state in
    which the authorization check ends when it starts in [s]. *)
Definition authorizedFrom (ctx : Context) (w : World) (s s1 : state w) : Prop :=
  (includes SPECIAL_ANONYMOUS_IDS (from ctx) = true /\ s1 = s) \/
  (includes SPECIAL_ANONYMOUS_IDS (from ctx) = false /\
   exists member,
     answer w (GetChatMember (chat_id ctx) (from ctx)) s = (Fulfilled member, s1) /\
     (status member = lit "administrator" \/ status member = lit "creator")).

(** A text that opens with the hexadecimal prefix. *)
Definition hexPrefix (s : str) : bool :=
  startsWith (lit "0x") s || startsWith (lit "0X") s.

(** Lines 189-193: how [/unmute] names the user, from the outcome of
    the lookup of the user. *)
Definition unmutedDisplay (userId : Z) (lookup : result ChatMember) : str :=
  match lookup with
  | Fulfilled member =>
      if truthyOpt (user_username member)
      then UNMUTED_USERNAME (default [] (user_username member)) userId
      else if truthyOpt (user_first_name member)
      then UNMUTED_FIRST_NAME (default [] (user_first_name member)) userId
      else UNMUTED_ID userId
  | Rejected => UNMUTED_ID userId
  end.

(** The code units of a run of decimal digits. *)
Definition digitsOf (d : Decimal.uint) : str := lit (NilEmpty.string_of_uint d).

(** * Characters

    A string of the source is its sequence of UTF-16 code units.  A
    character outside the Basic Multilingual Plane takes two of them, a
    high surrogate followed by a low one; every other code unit is a
    character of its own. *)
Definition isHighSurrogate (c : N) : bool := ((55296 <=? c) && (c <=? 56319))%N.

Definition isLowSurrogate (c : N) : bool := ((56320 <=? c) && (c <=? 57343))%N.

(** The number of characters (code points) of a text. *)
Fixpoint characters (s : str) : nat :=
  match s with
  | [] => 0
  | c :: s' =>
      match s' with
      | d :: s'' =>
          if isHighSurrogate c && isLowSurrogate d then S (characters s'')
          else S (characters s')
      | [] => 1
      end
  end.

(** Ten times the character U+1F600, a text of 20 code units. *)
Definition sampleEmoji : str := List.concat (List.repeat [55357; 56832]%N 10).

(** * Sample data on which the handlers are run *)

Definition sampleHost : Host := asciiHost (lit "BOT") (lit "HF").

Definition sampleMember : ChatMember :=
  {| status := lit "member"; user_username := None;
     user_first_name := Some (lit "Bob") |}.

Definition sampleAdmin : ChatMember :=
  {| status := lit "administrator"; user_username := Some (lit "ada");
     user_first_name := Some (lit "Ada") |}.

(** A text message sent at the time [sentAt]. *)
Definition sampleText (sentAt : N) : Message :=
  {| from_id := 42; from_first_name := Some (lit "Bob"); from_username := None;
     message_id := 7; text := Some (lit "see http://example.org");
     caption := None; photo := None; reply_markup := None; date := sentAt |}.

(** A photo in two sizes, with a caption and two inline buttons. *)
Definition samplePhoto : Message :=
  {| from_id := 42; from_first_name := Some (lit "Bob"); from_username := Some (lit "bob");
     message_id := 8; text := None; caption := Some (lit "cheap watches");
     photo := Some [{| file_id := lit "small" |}; {| file_id := lit "large" |}];
     reply_markup :=
       Some {| inline_keyboard :=
                 Some [[{| button_text := Some (lit "Buy") |};
                        {| button_text := None |}];
                       [{| button_text := Some (lit "Now") |}]] |};
     date := 1700000010 |}.

(** A command sent by user 5 in the supergroup [-1001]. *)
Definition sampleCommand (t : str) (replied : option Message) : Context :=
  {| chat_type := lit "supergroup"; chat_id := (-1001); from := 5;
     message_text := t; reply_to_message := replied |}.

Definition sampleRules : str := lit "no links, no spam, be kind".

(** The verdict of a violation, with a reason. *)
Definition sampleYes : result Body :=
  Fulfilled (Answered (Some (lit "YES" ++ [10%N] ++ lit "link posted"))).

(** A world in which every call succeeds, the sender of a command and
    the reported user are plain members, the rules [sampleRules] were
    created at time 1700000000 and the endpoint answers [sampleYes]. *)
Definition sampleWorld : World :=
  fixedWorld (Fulfilled sampleMember) (Some sampleRules) (Some (lit "1700000000"))
    sampleYes.

Definition failsDelete (X : Type) (c : call X) : bool :=
  match c with DeleteMessage _ _ => true | _ => false end.

Definition failsGetFile (X : Type) (c : call X) : bool :=
  match c with GetFile _ => true | _ => false end.


(** * The primitives on small inputs *)

Example trim_example : trim (lit "  a b " ++ [9; 10]%N) = lit "a b".
Proof. reflexivity. Qed.

Example split_example :
  split 10 (lit "a" ++ [10%N] ++ lit "b" ++ [10%N]) = [lit "a"; lit "b"; []].
Proof. reflexivity. Qed.

Example parseInt_examples :
  parseInt (lit "123abc") 0 = Int 123 /\ parseInt (lit "abc") 0 = NaN /\
  parseInt (lit "0x1F") 0 = Int 31 /\ parseInt (lit "0x1F") 10 = Int 0 /\
  parseInt (lit " -42") 10 = Int (-42) /\ parseInt (lit "0x") 0 = NaN.
Proof. repeat split. Qed.

Example replace_example :
  replace (lit "{R}") (lit "a$$b$&") (lit "x{R}y{R}") = lit "xa$b{R}y{R}".
Proof. reflexivity. Qed.

Example base64_examples :
  base64 (lit "Man") = lit "TWFu" /\ base64 (lit "Ma") = lit "TWE=" /\
  base64 (lit "M") = lit "TQ==" /\ base64 [255; 254; 253; 0]%N = lit "//79AA==".
Proof. repeat split. Qed.

Example toString_example : toString (-1001234) = lit "-1001234".
Proof. reflexivity. Qed.

(** The built prompt holds the trimmed rules and no placeholder. *)
Example buildFullPrompt_example :
  let prompt := buildFullPrompt (lit " no spam ") in
  search (lit "these rules: no spam. Do not") [] prompt <> None /\
  search (lit "{RULES}") [] prompt = None.
Proof. split; [vm_compute; discriminate | reflexivity]. Qed.

(** * Facts about the JavaScript primitives *)

Section JsFacts.

Lemma forallb_rev {A} (f : A -> bool) (l : list A) :
  forallb f (List.rev l) = forallb f l.
Proof.
  induction l as [|x l IH]; [reflexivity|]. simpl.
  rewrite forallb_app, IH. simpl. rewrite andb_true_r. apply andb_comm.
Qed.

Lemma existsb_rev {A} (f : A -> bool) (l : list A) :
  existsb f (List.rev l) = existsb f l.
Proof.
  induction l as [|x l IH]; [reflexivity|]. simpl.
  rewrite existsb_app, IH. simpl. rewrite orb_false_r. apply orb_comm.
Qed.

Lemma trimStart_headOk s : headOk (trimStart s).
Proof.
  induction s as [|c s IH]; simpl; [exact I|].
  destruct (isWhiteSpace c) eqn:E; [exact IH | exact E].
Qed.

Lemma trimStart_fix s : headOk s -> trimStart s = s.
Proof. destruct s as [|c s]; simpl; [reflexivity|]. intros ->. reflexivity. Qed.

Lemma trimStart_app s c t :
  isWhiteSpace c = false -> trimStart (s ++ c :: t) = trimStart s ++ c :: t.
Proof.
  intros Hc. induction s as [|d s IH]; simpl.
  - rewrite Hc. reflexivity.
  - destruct (isWhiteSpace d); [exact IH | reflexivity].
Qed.

Lemma trimEnd_cons c s :
  isWhiteSpace c = false -> trimEnd (c :: s) = c :: trimEnd s.
Proof.
  intros Hc. unfold trimEnd. simpl List.rev.
  rewrite trimStart_app by exact Hc.
  rewrite List.rev_app_distr. reflexivity.
Qed.

Lemma trimEnd_headOk s : headOk s -> headOk (trimEnd s).
Proof.
  destruct s as [|c s]; [intros _; exact I|]. simpl. intros Hc.
  rewrite trimEnd_cons by exact Hc. exact Hc.
Qed.

Lemma trimEnd_idem s : trimEnd (trimEnd s) = trimEnd s.
Proof.
  unfold trimEnd. rewrite List.rev_involutive.
  rewrite (trimStart_fix (trimStart _)) by apply trimStart_headOk.
  reflexivity.
Qed.

Lemma trim_headOk s : headOk (trim s).
Proof. apply trimEnd_headOk, trimStart_headOk. Qed.

(** [trim] leaves a trimmed text alone. *)
Lemma trim_idem s : trim (trim s) = trim s.
Proof.
  unfold trim at 1. rewrite (trimStart_fix (trim s)) by apply trim_headOk.
  unfold trim. apply trimEnd_idem.
Qed.

Lemma trimEnd_length s : length (trimEnd s) <= length s.
Proof.
  unfold trimEnd. rewrite List.length_rev, <- (List.length_rev s).
  generalize (List.rev s). intros l.
  induction l as [|c l IH]; simpl; [lia|].
  destruct (isWhiteSpace c); simpl; lia.
Qed.

Lemma trimStart_length s : length (trimStart s) <= length s.
Proof.
  induction s as [|c s IH]; simpl; [lia|].
  destruct (isWhiteSpace c); simpl; lia.
Qed.

Lemma trim_length s : length (trim s) <= length s.
Proof.
  unfold trim. etransitivity; [apply trimEnd_length | apply trimStart_length].
Qed.

Lemma trimStart_blank s : trimStart s = [] <-> blank s = true.
Proof.
  induction s as [|c s IH]; simpl; [tauto|].
  destruct (isWhiteSpace c); simpl; [exact IH|].
  split; discriminate.
Qed.

Lemma trim_blank s : trim s = [] <-> blank s = true.
Proof.
  split.
  - intros E. apply trimStart_blank.
    destruct (trimStart s) as [|c t] eqn:Et; [reflexivity|].
    pose proof (trimStart_headOk s) as Hh. rewrite Et in Hh. simpl in Hh.
    unfold trim in E. rewrite Et, trimEnd_cons in E by exact Hh.
    discriminate.
  - intros E. apply trimStart_blank in E. unfold trim. rewrite E. reflexivity.
Qed.

Lemma truthy_nonempty (s : str) : truthy s = true <-> s <> [].
Proof. destruct s; simpl; split; congruence. Qed.

(** Some line of a text that is not blank is not blank. *)
Lemma split_not_blank s :
  blank s = false -> existsb (fun p => negb (blank p)) (split 10 s) = true.
Proof.
  induction s as [|c s IH]; simpl; [discriminate|].
  destruct (N.eqb_spec c 10) as [->|Hc].
  - simpl. exact IH.
  - destruct (isWhiteSpace c) eqn:Ew; simpl.
    + intros Hb. specialize (IH Hb).
      destruct (split 10 s) as [|p ps]; simpl in *; [discriminate|].
      rewrite Ew. simpl. exact IH.
    + intros _. destruct (split 10 s) as [|p ps]; simpl; rewrite Ew; reflexivity.
Qed.

Lemma parts_not_empty content : blank content = false -> parts content <> [].
Proof.
  intros Hb. apply split_not_blank in Hb. unfold parts, filterBoolean.
  apply existsb_exists in Hb as (p & Hin & Hp).
  intros E.
  assert (Hi : In (trim p) (List.filter truthy (List.map trim (split 10 content)))).
  { apply filter_In. split; [apply in_map, Hin|].
    apply truthy_nonempty. intros Et. apply trim_blank in Et.
    rewrite Et in Hp. discriminate. }
  rewrite E in Hi. exact Hi.
Qed.

(** The lines kept by [parts] are trimmed and not empty. *)
Lemma parts_trimmed content :
  Forall (fun p => p <> [] /\ trim p = p) (parts content).
Proof.
  apply List.Forall_forall. intros p Hin. unfold parts, filterBoolean in Hin.
  apply filter_In in Hin as [Hin Ht]. apply in_map_iff in Hin as (q & <- & _).
  split; [apply truthy_nonempty, Ht | apply trim_idem].
Qed.

Lemma trimStart_In c s : In c (trimStart s) -> In c s.
Proof.
  induction s as [|d s IH]; simpl; [tauto|].
  destruct (isWhiteSpace d); simpl; tauto.
Qed.

Lemma trim_In c s : In c (trim s) -> In c s.
Proof.
  unfold trim, trimEnd. intros Hin. apply trimStart_In.
  apply List.in_rev in Hin. apply trimStart_In in Hin.
  apply List.in_rev in Hin. exact Hin.
Qed.

Lemma split_no_separator sep s : ~ In sep s -> split sep s = [s].
Proof.
  induction s as [|c s IH]; simpl; [reflexivity|]. intros Hnot.
  destruct (N.eqb_spec c sep) as [->|Hc]; [tauto|].
  rewrite IH by tauto. reflexivity.
Qed.

(** A text without a line feed that is not blank has one line. *)
Lemma parts_single_line text :
  ~ In 10%N text -> blank text = false -> parts (trim text) = [trim text].
Proof.
  intros Hlf Hb. unfold parts, filterBoolean.
  rewrite split_no_separator by (intros Hin; apply Hlf, (trim_In _ _ Hin)).
  simpl. rewrite trim_idem.
  destruct (trim text) eqn:E; [|reflexivity].
  apply trim_blank in E. congruence.
Qed.

Lemma join_nonempty sep (l : list str) :
  l <> [] -> Forall (fun p => p <> []) l -> join sep l <> [].
Proof.
  destruct l as [|x l]; [congruence|]. intros _ Hall.
  apply Forall_cons_iff in Hall as [Hx _].
  destruct x as [|c x]; [congruence|].
  destruct l; simpl; discriminate.
Qed.

(** ASCII letters: upper-casing gives [YES] exactly for the case
    variants of [yes]. *)
Lemma asciiUpper_YES (s : str) :
  List.map asciiUpper s = lit "YES" <-> List.map asciiLower s = lit "yes".
Proof.
  assert (Hc : forall c u l : N,
             (u = 89 /\ l = 121 \/ u = 69 /\ l = 101 \/ u = 83 /\ l = 115)%N ->
             asciiUpper c = u <-> asciiLower c = l).
  { intros c u l Hul. unfold asciiUpper, asciiLower.
    destruct (N.leb_spec 97 c), (N.leb_spec c 122), (N.leb_spec 65 c),
      (N.leb_spec c 90); simpl; lia. }
  destruct s as [|a [|b [|c [|d s]]]]; simpl; try (split; discriminate).
  change (lit "YES") with [89; 69; 83]%N. change (lit "yes") with [121; 101; 115]%N.
  pose proof (Hc a 89 121)%N. pose proof (Hc b 69 101)%N. pose proof (Hc c 83 115)%N.
  split; intros E; injection E as E1 E2 E3; f_equal; [| f_equal | | f_equal]; try f_equal; tauto.
Qed.

End JsFacts.

(** * Runs of the small functions *)

Section Runs.

Context `{Host}.

Lemma isAdminStatus_iff (m : ChatMember) :
  isAdminStatus m = true <->
  status m = lit "administrator" \/ status m = lit "creator".
Proof.
  unfold isAdminStatus, includesStr, strictEq. simpl.
  rewrite orb_false_r, orb_true_iff, !bool_decide_eq_true. reflexivity.
Qed.

Lemma run_callHuggingFace (w : World) (s : state w) (messages : list ChatMessage) :
  run w (callHuggingFace messages) s =
  match answer w (inferencePost messages) s with
  | (r, s') =>
      {| value := Returned (match r with
                            | Fulfilled (Answered content) => parseResponse content
                            | Fulfilled Unreadable | Rejected => UNAVAILABLE
                            end);
         final := s';
         trace := [Ev (inferencePost messages) r] |}
  end.
Proof.
  unfold run, callHuggingFace. cbn [exec bind try_catch await].
  destruct (answer w (inferencePost messages) s) as [[[content|]|] s']; reflexivity.
Qed.

Lemma run_getSimpleRules (w : World) (s : state w) (chatId : Z) :
  run w (getSimpleRules chatId) s =
  match answer w (RedisGet (simpleRulesKey chatId)) s with
  | (r, s') =>
      {| value := Returned (match r with
                            | Fulfilled (Some t) => if truthy t then Some t else None
                            | _ => None
                            end);
         final := s';
         trace := [Ev (RedisGet (simpleRulesKey chatId)) r] |}
  end.
Proof.
  unfold run, getSimpleRules. cbn [exec bind try_catch await].
  destruct (answer w _ s) as [[[t|]|] s']; reflexivity.
Qed.

Lemma run_getRulesCreatedDate (w : World) (s : state w) (chatId : Z) :
  run w (getRulesCreatedDate chatId) s =
  match answer w (RedisGet (rulesCreatedKey chatId)) s with
  | (r, s') =>
      {| value := Returned (match r with
                            | Fulfilled (Some t) =>
                                if truthy t then Some (parseInt t 10) else None
                            | _ => None
                            end);
         final := s';
         trace := [Ev (RedisGet (rulesCreatedKey chatId)) r] |}
  end.
Proof.
  unfold run, getRulesCreatedDate. cbn [exec bind try_catch await].
  destruct (answer w _ s) as [[[t|]|] s']; reflexivity.
Qed.

Lemma verdictOf_cons content first rest :
  parts content = first :: rest ->
  verdictOf content =
  {| violates := bool_decide (toUpperCase first = lit "YES");
     reason := match rest with
               | [] => lit "Unspecified"
               | _ :: _ => join (lit " ") rest
               end |}.
Proof.
  intros E. unfold verdictOf. rewrite E. simpl List.head. simpl slice1.
  f_equal.
  - simpl option_map. apply bool_decide_ext. split; congruence.
  - destruct rest as [|p rest']; [reflexivity|].
    pose proof (parts_trimmed content) as Hall. rewrite E in Hall.
    apply Forall_cons_iff in Hall as [_ Hall].
    assert (Hne : join (lit " ") (p :: rest') <> []).
    { apply join_nonempty; [discriminate|].
      eapply Forall_impl; [exact Hall|]. simpl. tauto. }
    unfold orElse. destruct (join (lit " ") (p :: rest')); [congruence|reflexivity].
Qed.

End Runs.

(** * Facts about [parseInt] *)

Section ParseInt.

Lemma isDecimalDigit_not_space c : isDecimalDigit c = true -> isWhiteSpace c = false.
Proof.
  unfold isDecimalDigit, isWhiteSpace. intros Hc.
  apply andb_true_iff in Hc as [H1 H2].
  apply N.leb_le in H1. apply N.leb_le in H2.
  repeat match goal with
         | |- context [(?a <=? ?b)%N] => destruct (N.leb_spec a b); try lia
         | |- context [(?a =? ?b)%N] => destruct (N.eqb_spec a b); try lia
         end; reflexivity.
Qed.

Lemma radixDigit_decimal c :
  radixDigit 10 c = if isDecimalDigit c then Some (c - 48)%N else None.
Proof.
  unfold radixDigit, digitValue, isDecimalDigit.
  destruct (N.leb_spec 48 c), (N.leb_spec c 57); simpl.
  - destruct (N.ltb_spec (c - 48) 10); [reflexivity | lia].
  - destruct (N.leb_spec 97 c), (N.leb_spec c 122); simpl.
    + destruct (N.ltb_spec (c - 87) 10); [lia | reflexivity].
    + destruct (N.leb_spec 65 c), (N.leb_spec c 90); simpl; try reflexivity.
      destruct (N.ltb_spec (c - 55) 10); [lia | reflexivity].
    + destruct (N.leb_spec 65 c), (N.leb_spec c 90); simpl; try reflexivity.
      destruct (N.ltb_spec (c - 55) 10); [lia | reflexivity].
    + destruct (N.leb_spec 65 c), (N.leb_spec c 90); simpl; try reflexivity.
      destruct (N.ltb_spec (c - 55) 10); [lia | reflexivity].
  - destruct (N.leb_spec 97 c), (N.leb_spec c 122); simpl; try lia;
      destruct (N.leb_spec 65 c), (N.leb_spec c 90); simpl; try lia; reflexivity.
  - lia.
Qed.

Lemma digitsPrefix_decimal ds rest :
  forallb isDecimalDigit ds = true -> digitsEnd rest ->
  digitsPrefix 10 (ds ++ rest) = List.map (fun c => c - 48)%N ds.
Proof.
  intros Hds Hrest. induction ds as [|c ds IH]; simpl.
  - destruct rest as [|c rest]; [reflexivity|]. simpl in *.
    rewrite radixDigit_decimal, Hrest. reflexivity.
  - simpl in Hds. apply andb_true_iff in Hds as [Hc Hds].
    rewrite radixDigit_decimal, Hc, (IH Hds). reflexivity.
Qed.

Lemma mathInt_decimal ds :
  mathInt 10 (List.map (fun c => c - 48)%N ds) = decimalValue ds.
Proof.
  unfold mathInt, decimalValue. generalize 0%N.
  induction ds as [|c ds IH]; intros a; simpl; [reflexivity | apply IH].
Qed.

(** A missing radix and radix ten read a run of decimal digits as the
    number it denotes, whatever follows it; without a radix the text
    must not open with the hexadecimal prefix. *)
Lemma parseInt_decimal (radix : Z) (ds rest : str) :
  radix = 0%Z \/ radix = 10%Z ->
  ds <> [] -> forallb isDecimalDigit ds = true -> digitsEnd rest ->
  (radix = 0%Z ->
   startsWith (lit "0x") (ds ++ rest) = false /\
   startsWith (lit "0X") (ds ++ rest) = false) ->
  parseInt (ds ++ rest) radix = Int (Z.of_N (decimalValue ds)).
Proof.
  intros Hr Hne Hds Hrest Hhex.
  destruct ds as [|c ds']; [congruence|].
  assert (Hc : isDecimalDigit c = true).
  { simpl in Hds. apply andb_true_iff in Hds. tauto. }
  pose proof (isDecimalDigit_not_space c Hc) as Hws.
  assert (H45 : (c =? 45)%N = false /\ (c =? 43)%N = false).
  { unfold isDecimalDigit in Hc. apply andb_true_iff in Hc as [H1 H2].
    apply N.leb_le in H1. split; apply N.eqb_neq; lia. }
  destruct H45 as [H45 H43].
  unfold parseInt.
  replace (trimStart ((c :: ds') ++ rest)) with ((c :: ds') ++ rest)
    by (simpl; rewrite Hws; reflexivity).
  cbn [app]. rewrite H45, H43.
  assert (Hd : digitsPrefix 10 (c :: ds' ++ rest)
               = List.map (fun c => c - 48)%N (c :: ds'))
    by (apply (digitsPrefix_decimal (c :: ds')); assumption).
  destruct Hr as [-> | ->].
  - destruct (Hhex eq_refl) as [Hx1 Hx2]. cbn [app] in Hx1, Hx2.
    cbn [Z.eqb orb andb]. rewrite Hx1, Hx2. cbn [orb andb].
    change (match digitsPrefix 10 (c :: ds' ++ rest) with
            | [] => NaN
            | n :: l => Int (Z.of_N (mathInt 10 (n :: l)))
            end = Int (Z.of_N (decimalValue (c :: ds')))).
    rewrite Hd. cbn [List.map]. rewrite <- mathInt_decimal. reflexivity.
  - change (match digitsPrefix 10 (c :: ds' ++ rest) with
            | [] => NaN
            | n :: l => Int (Z.of_N (mathInt 10 (n :: l)))
            end = Int (Z.of_N (decimalValue (c :: ds')))).
    rewrite Hd. cbn [List.map]. rewrite <- mathInt_decimal. reflexivity.
Qed.

(** A text that starts with something that is neither white space, a
    sign nor a decimal digit is not a number. *)
Lemma parseInt_10_NaN c s :
  isWhiteSpace c = false -> c <> 45%N -> c <> 43%N -> isDecimalDigit c = false ->
  parseInt (c :: s) 10 = NaN.
Proof.
  intros Hws H45 H43 Hd. unfold parseInt. simpl trimStart. rewrite Hws.
  apply N.eqb_neq in H45, H43. rewrite H45, H43. cbn.
  rewrite radixDigit_decimal, Hd. reflexivity.
Qed.

End ParseInt.

(** * The inference client: claim C10 *)

Section Inference.

Context `{Host}.

Lemma parseResponse_blank text :
  blank text = true -> parseResponse (Some text) = NO_RESPONSE.
Proof.
  intros Hb. apply trim_blank in Hb. unfold parseResponse. simpl option_map.
  rewrite Hb. reflexivity.
Qed.

Lemma parseResponse_content text :
  blank text = false -> parseResponse (Some text) = verdictOf (trim text).
Proof.
  intros Hb. unfold parseResponse. simpl option_map.
  destruct (trim text) as [|c t] eqn:E; [|reflexivity].
  apply trim_blank in E. congruence.
Qed.

Lemma trim_not_blank text : blank text = false -> blank (trim text) = false.
Proof.
  intros Hb. destruct (blank (trim text)) eqn:E; [|reflexivity].
  apply trim_blank in E. rewrite trim_idem in E. apply trim_blank in E.
  congruence.
Qed.

(** C10: a response with exactly one non-empty line, the decision token,
    gets the fixed reason [Unspecified]. *)
Theorem single_line_reason_Unspecified (w : World) (s s' : state w)
    (messages : list ChatMessage) (text token : str) :
  answer w (inferencePost messages) s = (Fulfilled (Answered (Some text)), s') ->
  parts (trim text) = [token] ->
  exists v : Verdict,
    value (run w (callHuggingFace messages) s) = Returned v /\
    reason v = lit "Unspecified".
Proof.
  intros Ha Ep. exists (parseResponse (Some text)). split.
  { rewrite run_callHuggingFace, Ha. reflexivity. }
  assert (Hb : blank text = false).
  { destruct (blank text) eqn:Hb; [|reflexivity].
    apply trim_blank in Hb. rewrite Hb in Ep. discriminate. }
  rewrite (parseResponse_content _ Hb), (verdictOf_cons _ _ _ Ep).
  reflexivity.
Qed.

(** A rejected inference call (time-out, transport or HTTP error) makes
    [callHuggingFace] return the verdict [UNAVAILABLE]; it does not throw. *)
Lemma callHuggingFace_rejected (w : World) (s s' : state w)
    (messages : list ChatMessage) :
  answer w (inferencePost messages) s = (Rejected, s') ->
  run w (callHuggingFace messages) s =
  {| value := Returned UNAVAILABLE; final := s';
     trace := [Ev (inferencePost messages) Rejected] |}.
Proof. intros Ha. rewrite run_callHuggingFace, Ha. reflexivity. Qed.

End Inference.

(** The examples of the specification, on a host with ASCII case mapping. *)
Example parseResponse_examples :
  let H := asciiHost [] [] in
  parseResponse (Some (lit "YES" ++ [10%N] ++ lit "Contains a prohibited link"))
  = {| violates := true; reason := lit "Contains a prohibited link" |} /\
  parseResponse (Some (lit "no" ++ [10%N] ++ lit "fine"))
  = {| violates := false; reason := lit "fine" |} /\
  parseResponse (Some []) = NO_RESPONSE /\
  parseResponse (Some (lit " yes " ++ [13; 10; 10]%N ++ lit " a " ++ [10%N] ++ lit "b"))
  = {| violates := true; reason := lit "a b" |}.
Proof. repeat split. Qed.

Lemma single_line_reason_Unspecified_witness :
  let H := asciiHost [] [] in
  let w := fixedWorld Rejected None None (Fulfilled (Answered (Some (lit " YES ")))) in
  answer w (inferencePost []) tt = (Fulfilled (Answered (Some (lit " YES "))), tt) /\
  parts (trim (lit " YES ")) = [lit "YES"] /\
  exists v : Verdict,
    value (run w (callHuggingFace []) tt) = Returned v /\
    reason v = lit "Unspecified".
Proof.
  intros H w. split; [reflexivity|]. split; [reflexivity|].
  exact (single_line_reason_Unspecified w tt tt [] (lit " YES ") (lit "YES")
           eq_refl eq_refl).
Defined.

(** * Authorization: claim C7 *)

Lemma includes_SPECIAL (userId : Z) :
  includes SPECIAL_ANONYMOUS_IDS userId = true <->
  userId = 1087968824%Z \/ userId = 136817688%Z.
Proof.
  unfold includes, SPECIAL_ANONYMOUS_IDS. simpl.
  rewrite orb_false_r, orb_true_iff, !Z.eqb_eq. reflexivity.
Qed.

(** C7: [isAuthorizedUser] answers true at once, without any call, for a
    sender on the allow-list of anonymous identities; otherwise it makes
    exactly one membership lookup and answers true exactly when the
    lookup is fulfilled with status [administrator] or [creator], and
    false when the lookup is rejected. *)
Theorem isAuthorizedUser_decides (ctx : Context) (chatId : Z)
    (w : World) (s : state w) :
  let r := run w (isAuthorizedUser ctx chatId) s in
  let lookup := GetChatMember chatId (from ctx) in
  if includes SPECIAL_ANONYMOUS_IDS (from ctx)
  then value r = Returned true /\ trace r = [] /\ final r = s
  else
    match answer w lookup s with
    | (Fulfilled member, s') =>
        trace r = [Ev lookup (Fulfilled member)] /\ final r = s' /\
        exists b : bool,
          value r = Returned b /\
          (b = true <->
           status member = lit "administrator" \/ status member = lit "creator")
    | (Rejected, s') =>
        trace r = [Ev lookup Rejected] /\ final r = s' /\
        value r = Returned false
    end.
Proof.
  intros r lookup. subst r lookup. unfold isAuthorizedUser, run.
  destruct (includes _ _); [repeat split|].
  cbn [exec bind try_catch await].
  destruct (answer w _ s) as [[member|] s']; cbn.
  - repeat split. exists (isAdminStatus member). split; [reflexivity|].
    apply isAdminStatus_iff.
  - repeat split.
Qed.

(** * Symbolic execution of handlers *)

(** The scrutinee that blocks the reduction of a program. *)
Ltac head_scrutinee p :=
  lazymatch p with
  | bind ?p' _ => head_scrutinee p'
  | try_catch ?p' _ => head_scrutinee p'
  | match ?x with _ => _ end => x
  end.

Ltac exec_reduce :=
  cbn [exec bind try_catch await reply editMessageText dateNow
       violates reason UNAVAILABLE NO_RESPONSE negb].

(** One step of a goal about [exec w p s acc]: the next call is answered
    (by a known answer when there is one), or the test in the way is
    decided both ways. *)
Ltac exec_step :=
  exec_reduce;
  lazymatch goal with
  | |- context [let (_, _) := answer ?w ?c ?s in _] =>
      first
        [ match goal with
          | E : answer w c s = _ |- _ => rewrite E
          end
        | let r := fresh "r" in
          let s' := fresh "s" in
          destruct (answer w c s) as [r s']; destruct r ]
  | |- context [exec _ ?p _ _] =>
      let x := head_scrutinee p in
      let x := lazymatch x with negb ?y => y | _ => x end in
      let E := fresh "E" in
      destruct x eqn:E
  end.

Ltac exec_all := repeat exec_step; exec_reduce; cbv beta iota.

(** * The rules store: claims C4 and C5 *)

Lemma keys_distinct (a b : Z) : simpleRulesKey a <> rulesCreatedKey b.
Proof.
  unfold simpleRulesKey, rulesCreatedKey. intros E.
  apply (f_equal (fun k => List.nth 6 k 0%N)) in E. vm_compute in E.
  discriminate E.
Qed.

Lemma written_to_created (a b : Z) (v : str) (r : result unit) :
  written_to (simpleRulesKey a) (Ev (RedisSet (rulesCreatedKey b) v) r) = None.
Proof.
  unfold written_to. rewrite bool_decide_eq_false_2; [reflexivity|].
  intros E. symmetry in E. exact (keys_distinct _ _ E).
Qed.

Lemma written_to_rules (a : Z) (v : str) (r : result unit) :
  written_to (simpleRulesKey a) (Ev (RedisSet (simpleRulesKey a) v) r) = Some v.
Proof. unfold written_to. rewrite bool_decide_eq_true_2; reflexivity. Qed.

Lemma run_setCustomRules_short (w : World) (s : state w) (chatId : Z) (rules : str) :
  length rules < 20 ->
  run w (setCustomRules chatId rules) s
  = {| value := Returned None; final := s; trace := [] |}.
Proof.
  intros Hlen. unfold run, setCustomRules.
  destruct (Nat.ltb_spec (length rules) 20) as [_|Hge]; [reflexivity | lia].
Qed.

Lemma run_setCustomRules_store (w : World) (s : state w) (store : gmap str str)
    (chatId : Z) (rules : str) :
  20 <= length rules ->
  let now := toString (clock w s / 1000) in
  run (withStore w) (setCustomRules chatId rules) (s, store)
  = {| value := Returned (Some (buildFullPrompt rules));
       final := (s, <[rulesCreatedKey chatId := now]>
                      (<[simpleRulesKey chatId := trim rules]> store));
       trace := [Ev (RedisSet (simpleRulesKey chatId) (trim rules)) (Fulfilled tt);
                 Ev (RedisSet (rulesCreatedKey chatId) now) (Fulfilled tt)] |}.
Proof.
  intros Hlen now. unfold run, setCustomRules.
  destruct (Nat.ltb_spec (length rules) 20) as [Hlt|_]; [lia | reflexivity].
Qed.



(** What [/rules] writes under the rule key is trimmed and at least 20
    code units long (the calls are listed latest first). *)
Lemma rulesCommand_writes `{Host} (ctx : Context) (w : World) (s : state w) :
  let '(_, _, acc) := exec w (rulesCommand ctx) s [] in
  Forall (fun e => forall v,
              written_to (simpleRulesKey (chat_id ctx)) e = Some v ->
              trim v = v /\ 20 <= length v) acc.
Proof.
  unfold rulesCommand, getSimpleRules, isAuthorizedUser, setCustomRules, resetRules.
  exec_all;
    repeat (apply List.Forall_cons; [intros v Hv|]); try apply List.Forall_nil;
    try discriminate Hv.
  all: try (rewrite written_to_created in Hv; discriminate Hv).
  all: rewrite written_to_rules in Hv; injection Hv as <-.
  all: rewrite !trim_idem; split; [reflexivity|].
  all: match goal with
       | E : (length ?t <? 20) = false |- _ => apply Nat.ltb_ge in E; exact E
       end.
Qed.

(** [/rules set] with a text shorter than 20 code units makes no store
    call that writes (the calls are listed latest first). *)
Lemma rulesCommand_short `{Host} (ctx : Context) (w : World) (s : state w) :
  let args := split 32 (trim (replace (lit "/rules") [] (message_text ctx))) in
  option_map toLowerCase (List.head args) = Some (lit "set") ->
  length (trim (join (lit " ") (slice1 args))) < 20 ->
  let '(_, _, acc) := exec w (rulesCommand ctx) s [] in
  forallb (fun e => negb (is_store_write e)) acc = true.
Proof.
  intros args Hsub Hlen. subst args. apply Nat.ltb_lt in Hlen.
  unfold rulesCommand, getSimpleRules, isAuthorizedUser, setCustomRules, resetRules.
  rewrite Hsub, Hlen. change (truthyOpt (Some (lit "set"))) with true.
  rewrite (bool_decide_eq_true_2 (Some (lit "set") = Some (lit "set")) eq_refl).
  exec_all; reflexivity.
Qed.

(** Calls are only added to the calls made so far. *)
Lemma exec_extends {A} (w : World) (p : Prog A) (s : state w) (acc : list event) :
  exists new, snd (exec w p s acc) = new ++ acc.
Proof.
  revert s acc. induction p as [a| |X c k IH|k IH]; intros s acc; cbn [exec].
  - exists []. reflexivity.
  - exists []. reflexivity.
  - destruct (answer w c s) as [r s1]. destruct (IH r s1 (Ev c r :: acc)) as (new & E).
    exists (new ++ [Ev c r]). rewrite E, <- app_assoc. reflexivity.
  - apply IH.
Qed.

(** Over a reliable store, a run without a writing store call leaves
    the store as it was. *)
Lemma exec_unwritten {A} (w : World) (p : Prog A) (s : state w)
    (store : gmap str str) (acc : list event) :
  let '(_, final, acc') := exec (withStore w) p (s, store) acc in
  forallb (fun e => negb (is_store_write e)) acc' = true -> snd final = store.
Proof.
  revert s store acc. induction p as [a| |X c k IH|k IH]; intros s store acc; cbn [exec].
  - reflexivity.
  - reflexivity.
  - assert (Hw : forall r s1 store1,
               is_store_write (Ev c r) = true ->
               let '(_, final, acc') :=
                 exec (withStore w) (k r) (s1, store1) (Ev c r :: acc) in
               forallb (fun e => negb (is_store_write e)) acc' = true ->
               snd final = store).
    { intros r s1 store1 Hc.
      destruct (exec_extends (withStore w) (k r) (s1, store1) (Ev c r :: acc))
        as (new & E).
      destruct (exec (withStore w) (k r) (s1, store1) (Ev c r :: acc)) as [[o f] acc'].
      cbn [snd] in E. subst acc'. rewrite forallb_app. cbn [forallb]. rewrite Hc.
      cbn [negb andb]. rewrite andb_false_r. discriminate. }
    destruct c; cbn [answer withStore fst snd];
      try (destruct (answer w _ s) as [r s1]; apply IH).
    + apply IH.
    + apply Hw. reflexivity.
    + apply Hw. reflexivity.
  - apply IH.
Qed.

(** A text without a high surrogate has as many characters as code
    units. *)
Lemma characters_length (text : str) :
  forallb (fun c => negb (isHighSurrogate c)) text = true ->
  characters text = length text.
Proof.
  induction text as [|c text IH]; [reflexivity|]. cbn [forallb].
  intros Hall. apply andb_true_iff in Hall as [Hc Hall].
  apply negb_true_iff in Hc. cbn [characters length]. rewrite Hc. cbn [andb].
  destruct text as [|d text]; [reflexivity|]. rewrite (IH Hall). reflexivity.
Qed.

(** C4, as amended: [setCustomRules] is called at line 147 only, with the
    text [rulesText] that line 145 builds from the arguments of
    [/rules set] and trims.  The length that line 83 tests is the
    [.length] of that text, its number of UTF-16 code units; being
    trimmed, the text is its own trimmed form.  For every such text
    shorter than 20 code units the function returns the failure result
    and makes no call at all: nothing is written, and the state of the
    world, with any rule text and creation time stored before, is what
    it was.  So a [/rules set] command with such a text, whoever sends
    it, makes no writing store call and leaves a reliable store as it
    was; and every rule text that [/rules] writes is trimmed and at
    least 20 code units long.  For a text without characters outside the
    Basic Multilingual Plane the code units are the characters. *)
Theorem setCustomRules_refuses_short_text `{Host} :
  (forall (w : World) (s : state w) (chatId : Z) (args : list str),
      let rulesText := trim (join (lit " ") (slice1 args)) in
      length (trim rulesText) < 20 ->
      run w (setCustomRules chatId rulesText) s
      = {| value := Returned None; final := s; trace := [] |})
  /\
  (forall (ctx : Context) (w : World) (s : state w) (store : gmap str str),
      let args := split 32 (trim (replace (lit "/rules") [] (message_text ctx))) in
      let rulesText := trim (join (lit " ") (slice1 args)) in
      let r := run (withStore w) (rulesCommand ctx) (s, store) in
      option_map toLowerCase (List.head args) = Some (lit "set") ->
      length (trim rulesText) < 20 ->
      existsb is_store_write (trace r) = false /\ snd (final r) = store)
  /\
  (forall (ctx : Context) (w : World) (s : state w),
      Forall (fun e => forall v,
                  written_to (simpleRulesKey (chat_id ctx)) e = Some v ->
                  trim v = v /\ 20 <= length v)
        (trace (run w (rulesCommand ctx) s)))
  /\
  (forall text : str,
      forallb (fun c => negb (isHighSurrogate c)) text = true ->
      characters text = length text).
Proof.
  split; [|split; [|split]]; [| | |exact characters_length].
  - intros w s chatId args rulesText Hlen. apply run_setCustomRules_short.
    subst rulesText. rewrite trim_idem in Hlen. exact Hlen.
  - intros ctx w s store args rulesText r Hsub Hlen. subst r rulesText.
    rewrite trim_idem in Hlen.
    pose proof (rulesCommand_short ctx (withStore w) (s, store) Hsub Hlen) as Hno.
    pose proof (exec_unwritten w (rulesCommand ctx) s store []) as Hst.
    unfold run.
    destruct (exec (withStore w) (rulesCommand ctx) (s, store) []) as [[o f] acc].
    cbn [trace final]. split; [|exact (Hst Hno)].
    rewrite existsb_rev. clear Hst.
    induction acc as [|e acc IH]; [reflexivity|]. cbn [forallb existsb] in *.
    apply andb_true_iff in Hno as [He Hno]. rewrite (IH Hno).
    destruct (is_store_write e); [discriminate He | reflexivity].
  - intros ctx w s. pose proof (rulesCommand_writes ctx w s) as Hw.
    unfold run. destruct (exec w (rulesCommand ctx) s []) as [[o s'] acc].
    apply List.Forall_rev, Hw.
Qed.


Lemma setCustomRules_refuses_short_text_witness :
  let H := asciiHost [] [] in
  let w := fixedWorld (Fulfilled sampleAdmin) None None Rejected in
  let store : gmap str str := {[ simpleRulesKey 1 := lit "no links, no spam, be kind" ]} in
  let args := [lit "set"; lit "no"; lit "spam"; []] in
  let ctx := sampleCommand (lit "/rules Set no spam ") None in
  trim (join (lit " ") (slice1 args)) = lit "no spam" /\
  length (lit "no spam") < 20 /\
  run (withStore w) (setCustomRules 1 (lit "no spam")) (tt, store)
  = {| value := Returned None; final := (tt, store); trace := [] |} /\
  existsb is_store_write (trace (run (withStore w) (rulesCommand ctx) (tt, store)))
  = false /\
  snd (final (run (withStore w) (rulesCommand ctx) (tt, store))) = store.
Proof.
  intros H w store args ctx. split; [reflexivity|].
  assert (Hlen : length (lit "no spam") < 20) by (vm_compute; lia).
  split; [exact Hlen|]. split.
  - exact (proj1 setCustomRules_refuses_short_text (withStore w) (tt, store) 1%Z args
             Hlen).
  - exact (proj1 (proj2 setCustomRules_refuses_short_text) ctx w tt store eq_refl Hlen).
Defined.

(** C4 as stated fails: ten characters outside the Basic Multilingual
    Plane make a trimmed text of ten characters and 20 code units.  Sent
    with [/rules set] by an administrator, it is accepted and stored. *)
Lemma astral_rules_are_stored :
  let H := sampleHost in
  let w := fixedWorld (Fulfilled sampleAdmin) None None Rejected in
  let ctx := sampleCommand (lit "/rules set " ++ sampleEmoji) None in
  let r := run (withStore w) (rulesCommand ctx) (tt, ∅) in
  trim sampleEmoji = sampleEmoji /\
  characters (trim sampleEmoji) = 10 /\
  length (trim sampleEmoji) = 20 /\
  value (run (withStore w) (setCustomRules (-1001) sampleEmoji) (tt, ∅))
  = Returned (Some (buildFullPrompt sampleEmoji)) /\
  existsb is_store_write (trace r) = true /\
  snd (final r) !! simpleRulesKey (-1001) = Some sampleEmoji.
Proof.
  intros H w ctx r. split; [reflexivity|]. split; [reflexivity|].
  split; [reflexivity|]. split; [reflexivity|].
  split; [reflexivity|]. vm_compute. reflexivity.
Qed.


(** * The report workflow: claims C2, C3 and C6 *)

Lemma strictEq_false (a b : str) : strictEq a b = false -> a <> b.
Proof. unfold strictEq. intros E. apply bool_decide_eq_false in E. exact E. Qed.

Lemma nothing_to_analyze (t : str) (p : option (list PhotoSize)) :
  negb (truthy t) && negb (bool_decide (is_Some p)) = true -> t = [] /\ p = None.
Proof.
  intros E. apply andb_true_iff in E as [Et Ep].
  split; [destruct t; [reflexivity | discriminate]|].
  destruct p; [discriminate | reflexivity].
Qed.

Section Report.

Context `{Host}.

(** The run of [/report] on a message of an exempt sender, latest call
    first. *)
Lemma report_exempt (ctx : Context) (replied : Message) (w : World) (s : state w) :
  reply_to_message ctx = Some replied ->
  (includes SPECIAL_ANONYMOUS_IDS (from_id replied) = true \/
   exists member s1,
     answer w (GetChatMember (chat_id ctx) (from_id replied)) s
     = (Fulfilled member, s1) /\ isAdminStatus member = true) ->
  let '(o, _, acc) := exec w (reportCommand ctx) s [] in
  exists t res pre,
    acc = Ev (Reply t) res :: pre /\
    forallb is_lookup pre = true /\
    o = match res with Fulfilled _ => Returned tt | Rejected => Thrown end /\
    (chat_type ctx = lit "supergroup" ->
     messageTextOf replied <> [] \/ photo replied <> None ->
     t = SKIPPED (userInfoOf replied)).
Proof.
  intros Hrep Hex. unfold reportCommand. rewrite Hrep.
  destruct Hex as [Hin | (member & s1 & Hlook & Hadm)];
    repeat (exec_step; try (exfalso; congruence));
    exec_reduce; cbv beta iota;
    (do 3 eexists; split; [reflexivity|]; split; [reflexivity|];
     split; [reflexivity|]; intros Hc Hm);
    try reflexivity; exfalso;
    try (match goal with
         | E : strictEq _ _ = false |- _ => exact (strictEq_false _ _ E Hc)
         end);
    match goal with
    | E : negb (truthy _) && _ = true |- _ =>
        apply nothing_to_analyze in E as [Et Ep]; destruct Hm; contradiction
    end.
Qed.

(** C2: a report on a message whose sender is on the allow-list of
    anonymous identities, or whose membership lookup is fulfilled with
    status [administrator] or [creator], makes no inference call and
    never calls delete-message or restrict-member.  The run consists of
    at most the membership lookup and ends with one reply; once the chat
    is a supergroup and the message has a text, a caption or a photo,
    that reply is the notice that moderation was skipped. *)
Theorem exempt_sender_is_skipped (ctx : Context) (replied : Message)
    (w : World) (s : state w) :
  reply_to_message ctx = Some replied ->
  (includes SPECIAL_ANONYMOUS_IDS (from_id replied) = true \/
   exists member s1,
     answer w (GetChatMember (chat_id ctx) (from_id replied)) s
     = (Fulfilled member, s1) /\
     (status member = lit "administrator" \/ status member = lit "creator")) ->
  let r := run w (reportCommand ctx) s in
  forallb (fun e => negb (is_action e)) (trace r) = true /\
  exists pre t res,
    trace r = pre ++ [Ev (Reply t) res] /\
    forallb is_lookup pre = true /\
    value r = match res with Fulfilled _ => Returned tt | Rejected => Thrown end /\
    (chat_type ctx = lit "supergroup" ->
     messageTextOf replied <> [] \/ photo replied <> None ->
     t = SKIPPED (userInfoOf replied)).
Proof.
  intros Hrep Hex r. subst r. unfold run.
  destruct (exec w (reportCommand ctx) s []) as [[o s'] acc] eqn:Hx.
  cbn [trace value].
  assert (Hex' : includes SPECIAL_ANONYMOUS_IDS (from_id replied) = true \/
                 exists member s1,
                   answer w (GetChatMember (chat_id ctx) (from_id replied)) s
                   = (Fulfilled member, s1) /\ isAdminStatus member = true).
  { destruct Hex as [Hin | (member & s1 & Hlook & Hst)]; [left; exact Hin|].
    right. exists member, s1. split; [exact Hlook | apply isAdminStatus_iff, Hst]. }
  pose proof (report_exempt ctx replied w s Hrep Hex') as Hr. rewrite Hx in Hr.
  destruct Hr as (t & res & pre & -> & Hpre & Ho & Ht).
  split.
  - rewrite forallb_rev. cbn [forallb]. apply andb_true_iff. split; [reflexivity|].
    clear -Hpre. induction pre as [|e pre IH]; [reflexivity|].
    cbn [forallb] in *. apply andb_true_iff in Hpre as [He Hpre].
    rewrite (IH Hpre), andb_true_r.
    destruct e as [X c r]. destruct c; try discriminate He; reflexivity.
  - exists (List.rev pre), t, res. cbn [List.rev].
    split; [reflexivity|]. split; [rewrite forallb_rev; exact Hpre|].
    split; [exact Ho | exact Ht].
Qed.

(** The run of [/report] when the inference call is rejected, latest
    call first. *)
Lemma report_failed_inference (ctx : Context) (w : World) (s : state w) :
  let '(o, _, acc) := exec w (reportCommand ctx) s [] in
  existsb is_failed_inference acc = true ->
  exists messages loading res pre,
    acc = Ev (EditMessageText (chat_id ctx) loading
                (ALL_GOOD (lit "Analysis unavailable"))) res
          :: Ev (inferencePost messages) Rejected :: pre /\
    forallb (fun e => negb (is_action e)) pre = true /\
    o = match res with Fulfilled _ => Returned tt | Rejected => Thrown end.
Proof.
  unfold reportCommand, analyse, getSimpleRules, getRulesCreatedDate,
    buildUserMsg, callHuggingFace, enforce.
  exec_all; intros Hf;
    cbn [existsb is_failed_inference is_inference orb andb] in Hf;
    try discriminate Hf.
  all: do 4 eexists; split; [reflexivity|]; split; reflexivity.
Qed.

(** C6: a rejected inference call (time-out, transport or HTTP error)
    makes [callHuggingFace] return
    [{violates: false, reason: "Analysis unavailable"}] instead of
    throwing; and a report whose inference call is rejected goes on: the
    next and last call publishes the clearance notice with that reason,
    no failure notice is sent and nothing is deleted or restricted. *)
Theorem inference_failure_fails_closed :
  (forall (w : World) (s s' : state w) (messages : list ChatMessage),
      answer w (inferencePost messages) s = (Rejected, s') ->
      run w (callHuggingFace messages) s
      = {| value := Returned {| violates := false;
                                reason := lit "Analysis unavailable" |};
           final := s';
           trace := [Ev (inferencePost messages) Rejected] |})
  /\
  (forall (ctx : Context) (w : World) (s : state w),
      let r := run w (reportCommand ctx) s in
      existsb is_failed_inference (trace r) = true ->
      exists messages loading res pre,
        trace r = pre ++ [Ev (inferencePost messages) Rejected;
                          Ev (EditMessageText (chat_id ctx) loading
                                (ALL_GOOD (lit "Analysis unavailable"))) res] /\
        forallb (fun e => negb (is_action e)) pre = true /\
        value r = match res with
                  | Fulfilled _ => Returned tt
                  | Rejected => Thrown
                  end).
Proof.
  split.
  - intros w s s' messages Ha. apply callHuggingFace_rejected, Ha.
  - intros ctx w s r. subst r. unfold run.
    pose proof (report_failed_inference ctx w s) as Hr.
    destruct (exec w (reportCommand ctx) s []) as [[o s'] acc].
    cbn [trace value]. rewrite existsb_rev. intros Hf.
    destruct (Hr Hf) as (messages & loading & res & pre & -> & Hpre & ->).
    exists messages, loading, res, (List.rev pre). cbn [List.rev].
    rewrite <- !app_assoc. split; [reflexivity|].
    split; [rewrite forallb_rev; exact Hpre | reflexivity].
Qed.







End Report.

Lemma exempt_sender_is_skipped_witness :
  let H := asciiHost (lit "BOT") (lit "HF") in
  let admin := {| status := lit "creator"; user_username := None;
                  user_first_name := Some (lit "Ada") |} in
  let w := fixedWorld (Fulfilled admin) (Some (lit "no links at all, please"))
             (Some (lit "1700000000")) (Fulfilled (Answered (Some (lit "YES")))) in
  let replied := {| from_id := 42; from_first_name := Some (lit "Ada");
                    from_username := None; message_id := 7;
                    text := Some (lit "see http://example.org"); caption := None;
                    photo := None; reply_markup := None; date := 1700000100 |} in
  let ctx := {| chat_type := lit "supergroup"; chat_id := (-1001);
                from := 5; message_text := lit "/report";
                reply_to_message := Some replied |} in
  let r := run w (reportCommand ctx) tt in
  forallb (fun e => negb (is_action e)) (trace r) = true /\
  exists pre t res,
    trace r = pre ++ [Ev (Reply t) res] /\
    forallb is_lookup pre = true /\
    value r = match res with Fulfilled _ => Returned tt | Rejected => Thrown end /\
    (chat_type ctx = lit "supergroup" ->
     messageTextOf replied <> [] \/ photo replied <> None ->
     t = SKIPPED (userInfoOf replied)).
Proof.
  intros H admin w replied ctx.
  refine (exempt_sender_is_skipped ctx replied w tt eq_refl _).
  right. exists admin, tt. split; [reflexivity|]. right. reflexivity.
Defined.


Lemma inference_failure_fails_closed_witness :
  let H := asciiHost (lit "BOT") (lit "HF") in
  let member := {| status := lit "member"; user_username := None;
                   user_first_name := Some (lit "Bob") |} in
  let w := fixedWorld (Fulfilled member) (Some (lit "no links at all, please"))
             (Some (lit "1700000000")) Rejected in
  let replied := {| from_id := 42; from_first_name := Some (lit "Bob");
                    from_username := None; message_id := 7;
                    text := Some (lit "see http://example.org"); caption := None;
                    photo := None; reply_markup := None; date := 1700000100 |} in
  let ctx := {| chat_type := lit "supergroup"; chat_id := (-1001);
                from := 5; message_text := lit "/report";
                reply_to_message := Some replied |} in
  let r := run w (reportCommand ctx) tt in
  existsb is_failed_inference (trace r) = true /\
  exists messages loading res pre,
    trace r = pre ++ [Ev (inferencePost messages) Rejected;
                      Ev (EditMessageText (chat_id ctx) loading
                            (ALL_GOOD (lit "Analysis unavailable"))) res] /\
    forallb (fun e => negb (is_action e)) pre = true /\
    value r = match res with
              | Fulfilled _ => Returned tt
              | Rejected => Thrown
              end.
Proof.
  intros H member w replied ctx r.
  assert (Hf : existsb is_failed_inference (trace r) = true)
    by (vm_compute; reflexivity).
  split; [exact Hf|].
  exact (proj2 inference_failure_fails_closed ctx w tt Hf).
Defined.

(** The scenario of the specification: rules created at a time [T], a
    message with a link sent at [T + 10], the verdict [YES] with a
    reason.  The message is deleted, its sender restricted without
    expiry, and the last reply announces it with the unmute hint. *)
Example report_end_to_end :
  let H := asciiHost (lit "BOT") (lit "HF") in
  let member := {| status := lit "member"; user_username := None;
                   user_first_name := Some (lit "Bob") |} in
  let w := fixedWorld (Fulfilled member) (Some (lit "no links"))
             (Some (lit "1700000000"))
             (Fulfilled (Answered (Some (lit "YES" ++ [10%N] ++ lit "link posted")))) in
  let replied := {| from_id := 42; from_first_name := Some (lit "Bob");
                    from_username := None; message_id := 7;
                    text := Some (lit "see http://example.org"); caption := None;
                    photo := None; reply_markup := None; date := 1700000010 |} in
  let ctx := {| chat_type := lit "supergroup"; chat_id := (-1001);
                from := 5; message_text := lit "/report";
                reply_to_message := Some replied |} in
  let r := run w (reportCommand ctx) tt in
  value r = Returned tt /\
  List.skipn 5 (trace r)
  = [Ev (EditMessageText (-1001) 1000 (VIOLATION (lit "link posted"))) (Fulfilled tt);
     Ev (DeleteMessage (-1001) 7) (Fulfilled tt);
     Ev (RestrictChatMember (-1001) 42 (UntilNum 0) MUTE_PERMISSIONS) (Fulfilled tt);
     Ev (Reply (MUTED replied (lit "link posted"))) (Fulfilled 1000%Z)].
Proof. split; reflexivity. Qed.

(** * [/unmute]: claim C9 *)

Section Unmute.

Lemma trimStart_app_blank (a b : str) :
  trimStart (a ++ b) = if blank a then trimStart b else trimStart a ++ b.
Proof.
  induction a as [|c a IH]; [reflexivity|]. simpl.
  destruct (isWhiteSpace c); [exact IH | reflexivity].
Qed.

Lemma blank_rev (a : str) : blank (List.rev a) = blank a.
Proof. apply forallb_rev. Qed.

Lemma trimEnd_startsAt (c : N) (s : str) : startsAt c s -> startsAt c (trimEnd s).
Proof.
  intros [-> | (s' & ->)]; [left; reflexivity|].
  unfold trimEnd. cbn [List.rev]. rewrite trimStart_app_blank.
  destruct (blank (List.rev s')).
  - cbn [trimStart]. destruct (isWhiteSpace c); [left | right; exists []]; reflexivity.
  - right. rewrite List.rev_app_distr. cbn. eexists. reflexivity.
Qed.

Lemma split_head_startsAt (c : N) (s : str) :
  startsAt c s -> startsAt c (List.hd [] (split 32 s)).
Proof.
  intros [-> | (s' & ->)]; [left; reflexivity|]. cbn [split].
  destruct (c =? 32)%N; [left; reflexivity|].
  right. destruct (split 32 s') as [|p ps]; cbn; eexists; reflexivity.
Qed.

Lemma trimEnd_digits (ds s : str) :
  forallb isDecimalDigit ds = true -> trimEnd (ds ++ s) = ds ++ trimEnd s.
Proof.
  induction ds as [|d ds IH]; [reflexivity|]. cbn [forallb app].
  intros Hd. apply andb_true_iff in Hd as [Hd Hds].
  rewrite trimEnd_cons by (apply isDecimalDigit_not_space, Hd).
  rewrite (IH Hds). reflexivity.
Qed.

Lemma trim_digits (ds s : str) :
  ds <> [] -> forallb isDecimalDigit ds = true ->
  trim (ds ++ s) = ds ++ trimEnd s.
Proof.
  intros Hne Hds. unfold trim. rewrite trimStart_fix; [apply trimEnd_digits, Hds|].
  destruct ds as [|d ds]; [congruence|]. cbn in *.
  apply andb_true_iff in Hds as [Hd _]. apply isDecimalDigit_not_space, Hd.
Qed.

Lemma isDecimalDigit_not_sep d : isDecimalDigit d = true -> (d =? 32)%N = false.
Proof.
  unfold isDecimalDigit. intros Hd. apply andb_true_iff in Hd as [H1 _].
  apply N.leb_le in H1. apply N.eqb_neq. lia.
Qed.

Lemma split_digits (ds s : str) :
  forallb isDecimalDigit ds = true ->
  List.head (split 32 (ds ++ s)) = Some (ds ++ List.hd [] (split 32 s)).
Proof.
  induction ds as [|d ds IH]; cbn [forallb app].
  - intros _. destruct s as [|c s]; [reflexivity|]. cbn [split].
    destruct (c =? 32)%N; [reflexivity|]. destruct (split 32 s); reflexivity.
  - intros Hd. apply andb_true_iff in Hd as [Hd Hds]. cbn [split].
    rewrite (isDecimalDigit_not_sep d Hd). specialize (IH Hds).
    destruct (split 32 (ds ++ s)) as [|p ps]; [discriminate IH|].
    cbn in IH |- *. injection IH as ->. reflexivity.
Qed.

Lemma startsWith_prefix_startsAt (a b c : N) (ds s : str) :
  ds <> [] -> startsAt c s ->
  startsWith [a; b] (ds ++ [c]) = false -> startsWith [a; b] (ds ++ s) = false.
Proof.
  intros Hne Hs Hp. destruct ds as [|d [|d2 ds]]; [congruence | |exact Hp].
  destruct Hs as [-> | (s' & ->)]; cbn in *.
  - rewrite andb_false_r. reflexivity.
  - rewrite andb_true_r in Hp. destruct (a =? d)%N; [|reflexivity].
    cbn in *. rewrite Hp. reflexivity.
Qed.

(** The argument that [/unmute] reads from a command text in which
    white space and then decimal digits followed by something else come
    after the command. *)
Lemma unmute_argument_after (ws ds rest : str) (c : N) :
  blank ws = true ->
  ds <> [] -> forallb isDecimalDigit ds = true -> isDecimalDigit c = false ->
  startsWith (lit "0x") (ds ++ [c]) = false ->
  startsWith (lit "0X") (ds ++ [c]) = false ->
  exists userIdStr,
    option_map trim
      (List.head (split 32 (trim (replace (lit "/unmute") []
                                    (lit "/unmute" ++ ws ++ ds ++ c :: rest)))))
    = Some userIdStr /\
    truthy userIdStr = true /\
    parseInt userIdStr 0 = Int (Z.of_N (decimalValue ds)).
Proof.
  intros Hb Hne Hds Hc Hx1 Hx2.
  change (replace (lit "/unmute") [] (lit "/unmute" ++ ws ++ ds ++ c :: rest))
    with (ws ++ ds ++ c :: rest).
  assert (Ht : trim (ws ++ ds ++ c :: rest) = ds ++ trimEnd (c :: rest)).
  { rewrite <- (trim_digits ds (c :: rest) Hne Hds). unfold trim.
    rewrite trimStart_app_blank, Hb. reflexivity. }
  rewrite Ht, (split_digits _ _ Hds). cbn [option_map].
  rewrite (trim_digits _ _ Hne Hds).
  set (tail := trimEnd (List.hd [] (split 32 (trimEnd (c :: rest))))).
  assert (Htail : startsAt c tail).
  { apply trimEnd_startsAt, split_head_startsAt, trimEnd_startsAt.
    right. eexists. reflexivity. }
  exists (ds ++ tail). split; [reflexivity|].
  split; [destruct ds; [congruence | reflexivity]|].
  apply parseInt_decimal; auto.
  - destruct Htail as [-> | (t & ->)]; [exact I | exact Hc].
  - intros _. split; apply (startsWith_prefix_startsAt _ _ c); assumption.
Qed.

Lemma unmute_argument (ds rest : str) (c : N) :
  ds <> [] -> forallb isDecimalDigit ds = true -> isDecimalDigit c = false ->
  startsWith (lit "0x") (ds ++ [c]) = false ->
  startsWith (lit "0X") (ds ++ [c]) = false ->
  exists userIdStr,
    option_map trim
      (List.head (split 32 (trim (replace (lit "/unmute") []
                                    (lit "/unmute " ++ ds ++ c :: rest)))))
    = Some userIdStr /\
    truthy userIdStr = true /\
    parseInt userIdStr 0 = Int (Z.of_N (decimalValue ds)).
Proof. apply (unmute_argument_after [32%N]). reflexivity. Qed.

Lemma strictEq_refl (a : str) : strictEq a a = true.
Proof. unfold strictEq. apply bool_decide_eq_true_2. reflexivity. Qed.

(** The run of [/unmute] by an authorized user on an argument that opens
    with decimal digits, latest call first. *)
Lemma unmute_restricts (ctx : Context) (ws ds rest : str) (c : N) (w : World)
    (s : state w) :
  chat_type ctx = lit "supergroup" ->
  message_text ctx = lit "/unmute" ++ ws ++ ds ++ c :: rest ->
  blank ws = true ->
  ds <> [] -> forallb isDecimalDigit ds = true -> isDecimalDigit c = false ->
  startsWith (lit "0x") (ds ++ [c]) = false ->
  startsWith (lit "0X") (ds ++ [c]) = false ->
  (includes SPECIAL_ANONYMOUS_IDS (from ctx) = true \/
   exists member s1,
     answer w (GetChatMember (chat_id ctx) (from ctx)) s = (Fulfilled member, s1) /\
     isAdminStatus member = true) ->
  let '(_, _, acc) := exec w (unmuteCommand ctx) s [] in
  exists res pre post,
    acc = post ++ Ev (RestrictChatMember (chat_id ctx) (Z.of_N (decimalValue ds))
                        UntilFalse UNMUTE_PERMISSIONS) res :: pre /\
    forallb is_lookup pre = true /\
    existsb (is_reply_of UNMUTE_USAGE) acc = false.
Proof.
  intros Hchat Htext Hb Hne Hds Hc Hx1 Hx2 Hauth.
  destruct (unmute_argument_after ws ds rest c Hb Hne Hds Hc Hx1 Hx2)
    as (u & Hu & Htr & Hp).
  unfold unmuteCommand, isAuthorizedUser.
  rewrite Hchat, strictEq_refl, Htext, Hu. cbn [negb]. rewrite Htr, Hp. cbn [negb].
  destruct Hauth as [Hin | (member & s1 & Hlook & Hadm)];
    repeat (exec_step; try (exfalso; congruence));
    exec_reduce; cbv beta iota.
  all: first
         [ do 2 eexists; exists (@nil event); split; [reflexivity|]
         | do 2 eexists; eexists (_ :: nil); split; [reflexivity|]
         | do 2 eexists; eexists (_ :: _ :: nil); split; [reflexivity|]
         | do 2 eexists; eexists (_ :: _ :: _ :: nil); split; [reflexivity|] ].
  all: split; reflexivity.
Qed.

(** C9, as amended: in a supergroup, for a command text made of
    [/unmute], then white space, then an argument that opens with
    decimal digits followed by something else, sent by an authorized
    user, the handler does not reply with the usage message: after the
    authorization lookup, if any, its next call lifts the restriction of
    the user whose identifier the digits denote.  The argument is what
    follows [/unmute] in the text, so the text has no bot name after the
    command; it does not open with [0x] or [0X], which [parseInt]
    without a radix reads as the hexadecimal prefix; and the number is
    within the range in which a JavaScript number is exact. *)
Theorem unmute_takes_numeric_prefix (ctx : Context) (ws ds rest : str) (c : N)
    (w : World) (s : state w) :
  chat_type ctx = lit "supergroup" ->
  message_text ctx = lit "/unmute" ++ ws ++ ds ++ c :: rest ->
  blank ws = true ->
  ds <> [] -> forallb isDecimalDigit ds = true -> isDecimalDigit c = false ->
  startsWith (lit "0x") (ds ++ [c]) = false ->
  startsWith (lit "0X") (ds ++ [c]) = false ->
  (decimalValue ds <= 2 ^ 53)%N ->
  (includes SPECIAL_ANONYMOUS_IDS (from ctx) = true \/
   exists member s1,
     answer w (GetChatMember (chat_id ctx) (from ctx)) s = (Fulfilled member, s1) /\
     (status member = lit "administrator" \/ status member = lit "creator")) ->
  let r := run w (unmuteCommand ctx) s in
  existsb (is_reply_of UNMUTE_USAGE) (trace r) = false /\
  exists pre res post,
    trace r = pre ++ Ev (RestrictChatMember (chat_id ctx) (Z.of_N (decimalValue ds))
                           UntilFalse UNMUTE_PERMISSIONS) res :: post /\
    forallb is_lookup pre = true.
Proof.
  intros Hchat Htext Hb Hne Hds Hc Hx1 Hx2 _ Hauth r. subst r. unfold run.
  assert (Hauth' : includes SPECIAL_ANONYMOUS_IDS (from ctx) = true \/
                   exists member s1,
                     answer w (GetChatMember (chat_id ctx) (from ctx)) s
                     = (Fulfilled member, s1) /\ isAdminStatus member = true).
  { destruct Hauth as [Hin | (member & s1 & Hlook & Hst)]; [left; exact Hin|].
    right. exists member, s1. split; [exact Hlook | apply isAdminStatus_iff, Hst]. }
  pose proof (unmute_restricts ctx ws ds rest c w s Hchat Htext Hb Hne Hds Hc Hx1 Hx2
                Hauth') as Hr.
  destruct (exec w (unmuteCommand ctx) s []) as [[o s'] acc]. cbn [trace].
  destruct Hr as (res & pre & post & -> & Hpre & Hno).
  split; [rewrite existsb_rev; exact Hno|].
  exists (List.rev pre), res, (List.rev post).
  rewrite List.rev_app_distr. cbn [List.rev]. rewrite <- !app_assoc.
  split; [reflexivity | rewrite forallb_rev; exact Hpre].
Qed.

End Unmute.

Lemma unmute_takes_numeric_prefix_witness :
  let w := fixedWorld Rejected None None Rejected in
  let ctx := {| chat_type := lit "supergroup"; chat_id := (-1001);
                from := 1087968824; message_text := lit "/unmute  123abc def";
                reply_to_message := None |} in
  let r := run w (unmuteCommand ctx) tt in
  decimalValue (lit "123") = 123%N /\
  existsb (is_reply_of UNMUTE_USAGE) (trace r) = false /\
  exists pre res post,
    trace r = pre ++ Ev (RestrictChatMember (-1001) (Z.of_N (decimalValue (lit "123")))
                           UntilFalse UNMUTE_PERMISSIONS) res :: post /\
    forallb is_lookup pre = true.
Proof.
  intros w ctx r. split; [reflexivity|].
  refine (unmute_takes_numeric_prefix ctx (lit "  ") (lit "123") (lit "bc def") 97%N w tt
            eq_refl eq_refl eq_refl _ eq_refl eq_refl eq_refl eq_refl _ _).
  - discriminate.
  - vm_compute. discriminate.
  - left. reflexivity.
Defined.

(** C9 as stated fails for an argument that opens with the hexadecimal
    prefix: [/unmute 0x1F] lifts the restriction of user 31, not of the
    user 0 that the decimal digits denote, and [/unmute 0xg] is answered
    with the usage message. *)
Lemma unmute_reads_hexadecimal_prefix :
  let w := fixedWorld Rejected None None Rejected in
  let command t := {| chat_type := lit "supergroup"; chat_id := (-1001);
                      from := 1087968824; message_text := t;
                      reply_to_message := None |} in
  isDecimalDigit 48 = true /\ isDecimalDigit 120 = false /\
  omap restricted (trace (run w (unmuteCommand (command (lit "/unmute 0x1F"))) tt))
  = [31%Z] /\
  trace (run w (unmuteCommand (command (lit "/unmute 0xg"))) tt)
  = [Ev (Reply UNMUTE_USAGE) (Fulfilled 1000%Z)].
Proof. repeat split. Qed.

(** * Further facts about the JavaScript primitives *)

From Stdlib Require DecimalPos DecimalZ.


Section MoreJsFacts.

Lemma split_not_nil (sep : N) (s : str) : split sep s <> [].
Proof.
  destruct s as [|c s]; cbn [split]; [discriminate|].
  destruct (c =? sep)%N; [discriminate|]. destruct (split sep s); discriminate.
Qed.

(** [split] then [join] on the same separator gives the text back. *)
Lemma join_split (sep : N) (s : str) : join [sep] (split sep s) = s.
Proof.
  induction s as [|c s IH]; [reflexivity|]. cbn [split].
  pose proof (split_not_nil sep s) as Hne.
  destruct (split sep s) as [|p ps]; [congruence|].
  destruct (c =? sep)%N eqn:E.
  - apply N.eqb_eq in E. subst c. cbn [join app] in *. rewrite IH. reflexivity.
  - destruct ps as [|q ps]; cbn [join app] in *; rewrite IH; reflexivity.
Qed.

Lemma split_cons_sep (sep : N) (s : str) : split sep (sep :: s) = [] :: split sep s.
Proof. cbn [split]. rewrite N.eqb_refl. reflexivity. Qed.

Lemma split_app_sep (sep : N) (a s : str) :
  ~ In sep a -> split sep (a ++ sep :: s) = a :: split sep s.
Proof.
  induction a as [|c a IH]; intros Hnot; [apply split_cons_sep|].
  cbn [app split]. destruct (N.eqb_spec c sep) as [->|_]; [exfalso; apply Hnot; left; reflexivity|].
  rewrite IH by (intros Hin; apply Hnot; right; exact Hin). reflexivity.
Qed.

(** No piece of a split text holds the separator. *)
Lemma split_In (sep : N) (s p : str) : In p (split sep s) -> ~ In sep p.
Proof.
  revert p. induction s as [|c s IH]; intros p; cbn [split].
  - intros [<- | []] [].
  - destruct (N.eqb_spec c sep) as [->|Hc].
    + intros [<- | Hin]; [intros [] | exact (IH p Hin)].
    + destruct (split sep s) as [|q qs].
      * intros [<- | []] [E | []]. congruence.
      * intros [<- | Hin].
        -- intros [E | Hq]; [congruence|]. exact (IH q (or_introl eq_refl) Hq).
        -- exact (IH p (or_intror Hin)).
Qed.

Lemma join_In (sep : str) (l : list str) (c : N) :
  In c (join sep l) -> In c sep \/ exists p, In p l /\ In c p.
Proof.
  induction l as [|x l IH]; [intros []|].
  destruct l as [|y l].
  - cbn [join]. intros Hin. right. exists x. split; [left; reflexivity | exact Hin].
  - change (join sep (x :: y :: l)) with (x ++ sep ++ join sep (y :: l)).
    rewrite !in_app_iff. intros [Hx | [Hs | Hr]].
    + right. exists x. split; [left; reflexivity | exact Hx].
    + left. exact Hs.
    + destruct (IH Hr) as [Hs | (p & Hp & Hc)]; [left; exact Hs|].
      right. exists p. split; [right; exact Hp | exact Hc].
Qed.

Lemma trimEnd_app_blank (a b : str) :
  trimEnd (a ++ b) = if blank b then trimEnd a else a ++ trimEnd b.
Proof.
  unfold trimEnd. rewrite List.rev_app_distr, trimStart_app_blank, blank_rev.
  destruct (blank b); [reflexivity|]. rewrite List.rev_app_distr, List.rev_involutive.
  reflexivity.
Qed.

Lemma trimEnd_blank (s : str) : blank s = true -> trimEnd s = [].
Proof.
  intros Hb. unfold trimEnd. rewrite <- blank_rev in Hb.
  apply trimStart_blank in Hb. rewrite Hb. reflexivity.
Qed.

(** Trimming the end first does not change what [trim] gives. *)
Lemma trim_trimEnd (s : str) : trim (trimEnd s) = trim s.
Proof.
  induction s as [|d s IH]; [reflexivity|].
  destruct (isWhiteSpace d) eqn:Ed.
  - change (d :: s) with ([d] ++ s). rewrite trimEnd_app_blank.
    destruct (blank s) eqn:Eb.
    + rewrite (trimEnd_blank [d]) by (cbn; rewrite Ed; reflexivity).
      symmetry. apply trim_blank. cbn. rewrite Ed. exact Eb.
    + cbn [app]. unfold trim. cbn [trimStart]. rewrite Ed. exact IH.
  - rewrite trimEnd_cons by exact Ed. unfold trim. cbn [trimStart]. rewrite Ed.
    rewrite !trimEnd_cons by exact Ed. rewrite trimEnd_idem. reflexivity.
Qed.

(** A replacement text without a dollar sign stands for itself. *)
Lemma getSubstitution_plain (matched before after repl : str) :
  ~ In 36%N repl -> getSubstitution matched before after repl = repl.
Proof.
  induction repl as [|c r IH]; [reflexivity|]. intros Hnot. cbn [getSubstitution].
  destruct (N.eqb_spec c 36) as [->|_]; [exfalso; apply Hnot; left; reflexivity|].
  rewrite IH by (intros Hin; apply Hnot; right; exact Hin). reflexivity.
Qed.

(** ** Numbers as text *)

Lemma lit_inj (a b : string) : lit a = lit b -> a = b.
Proof.
  revert b. induction a as [|x a IH]; intros [|y b]; cbn; try discriminate; [reflexivity|].
  intros E. injection E as Ex Er. f_equal; [|apply IH, Er].
  rewrite <- (ascii_N_embedding x), <- (ascii_N_embedding y), Ex. reflexivity.
Qed.

(** A number is determined by its decimal text. *)
Lemma toString_inj (a b : Z) : toString a = toString b -> a = b.
Proof.
  unfold toString. intros E. apply lit_inj in E.
  assert (Hn : forall z, Z.to_int z <> Decimal.Pos Decimal.Nil /\
                         Z.to_int z <> Decimal.Neg Decimal.Nil).
  { intros [|p|p]; cbn; split; try discriminate;
      intros Hp; injection Hp as Hp; exact (DecimalPos.Unsigned.to_uint_nonnil p Hp). }
  assert (Hi : Some (Z.to_int a) = Some (Z.to_int b)).
  { rewrite <- (NilZero.isi (Z.to_int a)), <- (NilZero.isi (Z.to_int b)), E;
      first [reflexivity | apply Hn]. }
  injection Hi as Hi. rewrite <- (DecimalZ.of_to a), <- (DecimalZ.of_to b), Hi.
  reflexivity.
Qed.

Lemma digitsOf_decimal (d : Decimal.uint) : forallb isDecimalDigit (digitsOf d) = true.
Proof. induction d; cbn; try reflexivity; exact IHd. Qed.

Lemma decimalValue_acc (d : Decimal.uint) (acc : positive) :
  List.fold_left (fun a c => a * 10 + (c - 48))%N (digitsOf d) (N.pos acc)
  = N.pos (Pos.of_uint_acc d acc).
Proof.
  revert acc. induction d; intros acc; cbn [digitsOf]; [reflexivity|..];
    unfold digitsOf in *; cbn [NilEmpty.string_of_uint lit list_ascii_of_string List.map
                               List.fold_left];
    cbn [Pos.of_uint_acc]; rewrite <- IHd; f_equal; cbn; lia.
Qed.

Lemma decimalValue_digitsOf (d : Decimal.uint) :
  decimalValue (digitsOf d) = Pos.of_uint d.
Proof.
  unfold decimalValue. induction d; [reflexivity|..];
    unfold digitsOf in *; cbn [NilEmpty.string_of_uint lit list_ascii_of_string List.map
                               List.fold_left Pos.of_uint];
    first [exact IHd | apply decimalValue_acc].
Qed.

Lemma toString_pos (p : positive) : toString (Z.pos p) = digitsOf (Pos.to_uint p).
Proof.
  unfold toString, digitsOf. cbn [Z.to_int NilZero.string_of_int].
  pose proof (DecimalPos.Unsigned.to_uint_nonnil p) as Hn.
  destruct (Pos.to_uint p); [congruence|..]; reflexivity.
Qed.

Lemma toString_neg (p : positive) : toString (Z.neg p) = 45%N :: digitsOf (Pos.to_uint p).
Proof.
  unfold toString, digitsOf. cbn [Z.to_int NilZero.string_of_int].
  pose proof (DecimalPos.Unsigned.to_uint_nonnil p) as Hn.
  destruct (Pos.to_uint p); [congruence|..]; reflexivity.
Qed.

Lemma digitsOf_nonempty (p : positive) : digitsOf (Pos.to_uint p) <> [].
Proof.
  pose proof (DecimalPos.Unsigned.to_uint_nonnil p) as Hn.
  destruct (Pos.to_uint p); [congruence|..]; discriminate.
Qed.

Lemma parseInt_minus (c : N) (s : str) (z : Z) :
  isDecimalDigit c = true ->
  parseInt (c :: s) 10 = Int z -> parseInt (45%N :: c :: s) 10 = Int (- z).
Proof.
  intros Hc.
  pose proof (isDecimalDigit_not_space c Hc) as Hws.
  assert (H45 : (c =? 45)%N = false /\ (c =? 43)%N = false).
  { unfold isDecimalDigit in Hc. apply andb_true_iff in Hc as [H1 H2].
    apply N.leb_le in H1. split; apply N.eqb_neq; lia. }
  destruct H45 as [H45 H43].
  unfold parseInt. cbn [trimStart]. rewrite Hws.
  change (isWhiteSpace 45) with false. cbv iota.
  rewrite H45, H43. change (45 =? 45)%N with true. cbv iota.
  cbn -[digitsPrefix mathInt Z.of_N].
  destruct (digitsPrefix 10 (c :: s)); [discriminate|].
  intros E. injection E as <-. reflexivity.
Qed.

Lemma parseInt_digitsOf (p : positive) :
  parseInt (digitsOf (Pos.to_uint p)) 10 = Int (Z.pos p).
Proof.
  rewrite <- (app_nil_r (digitsOf _)).
  rewrite (parseInt_decimal 10); try tauto.
  - rewrite decimalValue_digitsOf, DecimalPos.Unsigned.of_to. reflexivity.
  - apply digitsOf_nonempty.
  - apply digitsOf_decimal.
  - exact I.
  - intros Hr. discriminate Hr.
Qed.

(** Reading in base ten the text of a number gives the number back. *)
Lemma parseInt_toString (z : Z) : parseInt (toString z) 10 = Int z.
Proof.
  destruct z as [|p|p]; [reflexivity|..].
  - rewrite toString_pos. apply parseInt_digitsOf.
  - rewrite toString_neg.
    pose proof (parseInt_digitsOf p) as Hp.
    pose proof (digitsOf_nonempty p) as Hne.
    pose proof (digitsOf_decimal (Pos.to_uint p)) as Hd.
    destruct (digitsOf (Pos.to_uint p)) as [|c ds]; [congruence|].
    cbn [forallb] in Hd. apply andb_true_iff in Hd as [Hc _].
    apply (parseInt_minus c ds (Z.pos p) Hc Hp).
Qed.

(** The text of a number is not empty. *)
Lemma toString_nonempty (z : Z) : toString z <> [].
Proof.
  destruct z as [|p|p]; [discriminate| |rewrite toString_neg; discriminate].
  rewrite toString_pos. apply digitsOf_nonempty.
Qed.

End MoreJsFacts.

(** * The lines of a response: claim C1 *)

Section ResponseLines.

Context `{Host}.

(** White space before a text adds no line to it. *)
Lemma parts_cons_blank (c : N) (s : str) :
  isWhiteSpace c = true -> parts (c :: s) = parts s.
Proof.
  intros Hc. unfold parts. cbn [split].
  pose proof (split_not_nil 10 s) as Hne.
  destruct (c =? 10)%N; [reflexivity|].
  destruct (split 10 s) as [|p ps]; [congruence|].
  cbn [List.map]. unfold trim at 1 3. cbn [trimStart]. rewrite Hc. reflexivity.
Qed.

Lemma parts_blank (b : str) : blank b = true -> parts b = [].
Proof.
  induction b as [|c b IH]; [reflexivity|]. cbn [blank forallb].
  intros Hb. apply andb_true_iff in Hb as [Hc Hb].
  rewrite (parts_cons_blank c b Hc). exact (IH Hb).
Qed.

Lemma parts_trimStart (s : str) : parts (trimStart s) = parts s.
Proof.
  induction s as [|c s IH]; [reflexivity|]. cbn [trimStart].
  destruct (isWhiteSpace c) eqn:Hc; [|reflexivity].
  rewrite (parts_cons_blank c s Hc). exact IH.
Qed.

(** White space after a text lengthens its last line and adds blank
    lines. *)
Lemma split_app_blank (a b : str) :
  blank b = true ->
  exists init lst w bl,
    split 10 a = init ++ [lst] /\
    split 10 (a ++ b) = init ++ (lst ++ w) :: bl /\
    blank w = true /\ Forall (fun p => blank p = true) bl.
Proof.
  intros Hb. induction a as [|c a IH].
  - exists [], []. cbn [app split]. clear H.
    induction b as [|d b IHb].
    + exists [], []. repeat split. constructor.
    + cbn [blank forallb] in Hb. apply andb_true_iff in Hb as [Hd Hb].
      destruct (IHb Hb) as (w & bl & _ & Hs & Hw & Hbl). cbn [app] in Hs.
      cbn [split]. rewrite Hs. destruct (d =? 10)%N.
      * exists [], (w :: bl). repeat split. constructor; assumption.
      * exists (d :: w), bl. repeat split; [|exact Hbl].
        cbn [blank forallb]. rewrite Hd. exact Hw.
  - destruct IH as (init & lst & w & bl & Ha & Hab & Hw & Hbl).
    cbn [app split]. rewrite Ha, Hab. destruct (c =? 10)%N.
    + exists ([] :: init), lst, w, bl. repeat split; assumption.
    + destruct init as [|i init]; cbn [app].
      * exists [], (c :: lst), w, bl. repeat split; assumption.
      * exists ((c :: i) :: init), lst, w, bl. repeat split; assumption.
Qed.

Lemma trim_app_blank (a w : str) : blank w = true -> trim (a ++ w) = trim a.
Proof.
  intros Hw. unfold trim. rewrite trimStart_app_blank.
  destruct (blank a) eqn:Ha.
  - apply trimStart_blank in Hw. rewrite Hw.
    apply trimStart_blank in Ha. rewrite Ha. reflexivity.
  - rewrite trimEnd_app_blank, Hw. reflexivity.
Qed.

Lemma parts_app_blank (a b : str) : blank b = true -> parts (a ++ b) = parts a.
Proof.
  intros Hb.
  destruct (split_app_blank a b Hb) as (init & lst & w & bl & Ha & Hab & Hw & Hbl).
  unfold parts. rewrite Ha, Hab. unfold filterBoolean.
  rewrite !List.map_app, !List.filter_app. f_equal.
  cbn [List.map List.filter]. rewrite (trim_app_blank lst w Hw).
  assert (Hnil : List.filter truthy (List.map trim bl) = []).
  { clear Hab. induction Hbl as [|p bl Hp _ IH]; [reflexivity|].
    cbn [List.map List.filter]. apply trim_blank in Hp. rewrite Hp. exact IH. }
  rewrite Hnil. reflexivity.
Qed.

(** A text is its trimmed start followed by white space. *)
Lemma trimStart_split (s : str) :
  exists a, s = a ++ trimStart s /\ blank a = true.
Proof.
  induction s as [|c s (a & Ha & Hb)]; [exists []; split; reflexivity|].
  cbn [trimStart]. destruct (isWhiteSpace c) eqn:Hc.
  - exists (c :: a). cbn [app blank forallb]. rewrite Hc. split; [f_equal; exact Ha | exact Hb].
  - exists []. split; reflexivity.
Qed.

Lemma trimEnd_split (s : str) :
  exists b, s = trimEnd s ++ b /\ blank b = true.
Proof.
  destruct (trimStart_split (List.rev s)) as (a & Ha & Hb).
  exists (List.rev a). split; [|rewrite blank_rev; exact Hb].
  unfold trimEnd. rewrite <- List.rev_app_distr, <- Ha, List.rev_involutive.
  reflexivity.
Qed.

Lemma parts_trimEnd (s : str) : parts (trimEnd s) = parts s.
Proof.
  destruct (trimEnd_split s) as (b & Hs & Hb).
  rewrite Hs at 2. symmetry. apply parts_app_blank, Hb.
Qed.

(** Trimming the whole text first, as line 43 does, changes none of its
    non-empty trimmed lines. *)
Lemma parts_trim (s : str) : parts (trim s) = parts s.
Proof. unfold trim. rewrite parts_trimEnd. apply parts_trimStart. Qed.

(** [join] then [split] on the same separator gives the pieces back,
    when no piece holds the separator. *)
Lemma split_join (sep : N) (l : list str) :
  l <> [] -> Forall (fun p => ~ In sep p) l -> split sep (join [sep] l) = l.
Proof.
  intros Hne Hall. induction l as [|p l IH]; [congruence|].
  apply Forall_cons_iff in Hall as [Hp Hall].
  destruct l as [|q l].
  - cbn [join]. apply split_no_separator, Hp.
  - change (join [sep] (p :: q :: l)) with (p ++ sep :: join [sep] (q :: l)).
    rewrite (split_app_sep sep p _ Hp), IH by (discriminate || exact Hall).
    reflexivity.
Qed.

Lemma filterBoolean_nonempty (l : list str) :
  filterBoolean l = List.filter (fun p => bool_decide (p <> [])) l.
Proof.
  unfold filterBoolean. apply List.filter_ext. intros [|c p]; [|reflexivity].
  symmetry. apply bool_decide_eq_false_2. intros E. exact (E eq_refl).
Qed.

(** The lines that [callHuggingFace] reads off a response made of the
    lines [lines]. *)
Lemma parts_lines (lines : list str) :
  Forall (fun line => ~ In 10%N line) lines ->
  parts (trim (join [10%N] lines))
  = List.filter (fun line => bool_decide (line <> [])) (List.map trim lines).
Proof.
  intros Hall. rewrite parts_trim.
  destruct lines as [|l lines]; [reflexivity|].
  unfold parts. rewrite split_join by (discriminate || exact Hall).
  apply filterBoolean_nonempty.
Qed.

(** C1, as amended: [callHuggingFace] returns a verdict for every
    response.  When the call is rejected, or the body cannot be read,
    the verdict is [{violates: false, reason: "Analysis unavailable"}].
    When the body has no content field it is
    [{violates: false, reason: "No analysis response"}].  When the
    content is a text made of the lines [lines] (joined by line feeds),
    each line is trimmed and the empty ones are dropped: if no line
    remains the verdict is again "No analysis response"; otherwise
    [violates] is true exactly when the upper-cased first line is [YES]
    (for an ASCII first line: exactly when it is [yes] up to case), and
    the reason is the further lines joined by single spaces when there
    are any, and the fixed text [Unspecified] when there is none.  Every
    text is made of lines in this way. *)
Theorem callHuggingFace_reads_response (w : World) (s s' : state w)
    (messages : list ChatMessage) (response : result Body) :
  answer w (inferencePost messages) s = (response, s') ->
  exists v : Verdict,
    value (run w (callHuggingFace messages) s) = Returned v /\
    match response with
    | Rejected | Fulfilled Unreadable => v = UNAVAILABLE
    | Fulfilled (Answered None) => v = NO_RESPONSE
    | Fulfilled (Answered (Some text)) =>
        (exists lines : list str,
            text = join [10%N] lines /\ Forall (fun line => ~ In 10%N line) lines) /\
        forall lines : list str,
          text = join [10%N] lines ->
          Forall (fun line => ~ In 10%N line) lines ->
          match List.filter (fun line => bool_decide (line <> []))
                  (List.map trim lines) with
          | [] => v = NO_RESPONSE
          | first :: rest =>
              (violates v = true <-> toUpperCase first = lit "YES") /\
              (forallb isAscii first = true ->
               (violates v = true <-> List.map asciiLower first = lit "yes")) /\
              reason v = match rest with
                         | [] => lit "Unspecified"
                         | _ :: _ => join (lit " ") rest
                         end
          end
    end.
Proof.
  intros Ha. rewrite run_callHuggingFace, Ha. cbn [value].
  destruct response as [[[text|]|]|]; eexists; (split; [reflexivity|]);
    try reflexivity.
  split.
  { exists (split 10 text). split; [symmetry; apply join_split|].
    apply List.Forall_forall. intros line Hin. exact (split_In 10 text line Hin). }
  intros lines -> Hall. rewrite <- (parts_lines lines Hall).
  destruct (blank (join [10%N] lines)) eqn:Hb.
  - rewrite (parseResponse_blank _ Hb). apply trim_blank in Hb. rewrite Hb.
    reflexivity.
  - rewrite (parseResponse_content _ Hb).
    destruct (parts (trim (join [10%N] lines))) as [|first rest] eqn:Ep.
    { exfalso. eapply parts_not_empty; [apply trim_not_blank, Hb | exact Ep]. }
    rewrite (verdictOf_cons _ _ _ Ep). cbn [violates reason].
    split; [apply bool_decide_eq_true|].
    split; [|reflexivity].
    intros Hascii. rewrite bool_decide_eq_true, (toUpperCase_ascii _ Hascii).
    apply asciiUpper_YES.
Qed.

End ResponseLines.

Lemma callHuggingFace_reads_response_witness :
  let H := asciiHost [] [] in
  let text := lit "no" ++ [10%N] ++ lit " fine " ++ [10%N; 10%N] ++ lit "thanks" in
  let w := fixedWorld Rejected None None (Fulfilled (Answered (Some text))) in
  answer w (inferencePost []) tt = (Fulfilled (Answered (Some text)), tt) /\
  exists v : Verdict,
    value (run w (callHuggingFace []) tt) = Returned v /\
    violates v = false /\ reason v = lit "fine thanks".
Proof.
  intros H text w. split; [reflexivity|].
  destruct (callHuggingFace_reads_response w tt tt [] _ eq_refl)
    as (v & Hv & _ & Hlines).
  exists v. split; [exact Hv|].
  specialize (Hlines [lit "no"; lit " fine "; []; lit "thanks"] eq_refl).
  destruct Hlines as (Hyes & _ & Hreason).
  { repeat constructor; intros Hin; cbn in Hin; intuition discriminate. }
  split; [|exact Hreason].
  destruct (violates v); [|reflexivity].
  destruct Hyes as [Hyes _]. specialize (Hyes eq_refl). discriminate Hyes.
Defined.
(** C1 as stated fails: for the response [YES] no line remains, the
    remaining lines joined are the empty text, and the reason returned
    is [Unspecified]. *)
Lemma reason_is_not_the_joined_rest :
  let H := asciiHost [] [] in
  let w := fixedWorld Rejected None None (Fulfilled (Answered (Some (lit "YES")))) in
  parts (trim (lit "YES")) = [lit "YES"] /\
  join (lit " ") (slice1 (parts (trim (lit "YES")))) = [] /\
  value (run w (callHuggingFace []) tt)
  = Returned {| violates := true; reason := lit "Unspecified" |} /\
  value (run w (callHuggingFace []) tt)
  <> Returned {| violates := true;
                 reason := join (lit " ") (slice1 (parts (trim (lit "YES")))) |}.
Proof.
  intros H w. split; [reflexivity|]. split; [reflexivity|].
  split; [reflexivity|]. discriminate.
Qed.


(** * The creation time as stored: claim C8 *)

Section CreatedDate.

(** [parseInt] skips the white space before a number. *)
Lemma parseInt_skip_blank (ws s : str) (radix : Z) :
  blank ws = true -> parseInt (ws ++ s) radix = parseInt s radix.
Proof.
  intros Hb. unfold parseInt. rewrite trimStart_app_blank, Hb. reflexivity.
Qed.

Lemma isDecimalDigit_not_sign (c : N) :
  isDecimalDigit c = true -> (c =? 45)%N = false /\ (c =? 43)%N = false.
Proof.
  unfold isDecimalDigit. intros Hc. apply andb_true_iff in Hc as [H1 _].
  apply N.leb_le in H1. split; apply N.eqb_neq; lia.
Qed.

Lemma parseInt_plus (c : N) (s : str) :
  isDecimalDigit c = true -> parseInt (43%N :: c :: s) 10 = parseInt (c :: s) 10.
Proof.
  intros Hc. pose proof (isDecimalDigit_not_space c Hc) as Hws.
  destruct (isDecimalDigit_not_sign c Hc) as [H45 H43].
  unfold parseInt. cbn [trimStart]. rewrite Hws.
  change (isWhiteSpace 43) with false. cbv iota.
  rewrite H45, H43. reflexivity.
Qed.

(** A sign that no decimal digit follows is not a number. *)
Lemma parseInt_sign_NaN (sign : N) (rest : str) :
  sign = 45%N \/ sign = 43%N -> digitsEnd rest ->
  parseInt (sign :: rest) 10 = NaN.
Proof.
  intros Hs Hend.
  assert (E : digitsPrefix 10 rest = []).
  { destruct rest as [|c rest]; [reflexivity|]. cbn in Hend. cbn [digitsPrefix].
    rewrite radixDigit_decimal, Hend. reflexivity. }
  unfold parseInt.
  destruct Hs as [-> | ->]; cbn [trimStart];
    [change (isWhiteSpace 45) with false | change (isWhiteSpace 43) with false];
    cbv iota; cbn -[digitsPrefix mathInt Z.of_N]; rewrite E; reflexivity.
Qed.

(** The number that [parseInt] reads in base ten from white space, an
    optional sign and a run of decimal digits, whatever follows. *)
Lemma parseInt_10_signed (ws sign ds rest : str) :
  blank ws = true -> sign = [] \/ sign = [45%N] \/ sign = [43%N] ->
  ds <> [] -> forallb isDecimalDigit ds = true -> digitsEnd rest ->
  parseInt (ws ++ sign ++ ds ++ rest) 10
  = Int (if bool_decide (sign = [45%N])
         then - Z.of_N (decimalValue ds) else Z.of_N (decimalValue ds)).
Proof.
  intros Hb Hs Hne Hds Hend. rewrite (parseInt_skip_blank _ _ _ Hb).
  assert (Hp : parseInt (ds ++ rest) 10 = Int (Z.of_N (decimalValue ds))).
  { apply parseInt_decimal; auto. intros Hr. discriminate Hr. }
  destruct ds as [|c ds]; [congruence|].
  assert (Hc : isDecimalDigit c = true).
  { cbn [forallb] in Hds. apply andb_true_iff in Hds. tauto. }
  destruct Hs as [-> | [-> | ->]]; cbn [app] in *.
  - exact Hp.
  - exact (parseInt_minus c _ _ Hc Hp).
  - rewrite (parseInt_plus c _ Hc). exact Hp.
Qed.

(** Texts that [parseInt] does not read as a number in base ten: after
    the white space and an optional sign there is no decimal digit. *)
Lemma parseInt_10_not_a_number (ws sign rest : str) :
  blank ws = true ->
  (sign = [] /\
   match rest with
   | [] => True
   | c :: _ => isWhiteSpace c = false /\ c <> 45%N /\ c <> 43%N /\
               isDecimalDigit c = false
   end) \/
  ((sign = [45%N] \/ sign = [43%N]) /\ digitsEnd rest) ->
  parseInt (ws ++ sign ++ rest) 10 = NaN.
Proof.
  intros Hb Hs. rewrite (parseInt_skip_blank _ _ _ Hb).
  destruct Hs as [[-> Hrest] | [[-> | ->] Hend]]; cbn [app].
  - destruct rest as [|c rest]; [reflexivity|].
    destruct Hrest as (Hws & H45 & H43 & Hd). apply parseInt_10_NaN; assumption.
  - apply parseInt_sign_NaN; [left; reflexivity | exact Hend].
  - apply parseInt_sign_NaN; [right; reflexivity | exact Hend].
Qed.

(** Every text is a run of decimal digits followed by something that
    does not open with a decimal digit. *)
Lemma digits_split (s : str) :
  exists ds rest, s = ds ++ rest /\ forallb isDecimalDigit ds = true /\ digitsEnd rest.
Proof.
  induction s as [|c s (ds & rest & Hs & Hds & Hend)].
  - exists [], []. repeat split.
  - destruct (isDecimalDigit c) eqn:Hc.
    + exists (c :: ds), rest. cbn [app forallb]. rewrite Hc, Hds, <- Hs. repeat split.
      exact Hend.
    + exists [], (c :: s). repeat split. exact Hc.
Qed.

(** Every text has the shape that [parseInt] reads in base ten: white
    space, an optional sign, a run of decimal digits and a rest; when
    the run is empty it is one of the texts that do not parse. *)
Lemma decimal_shape (t : str) :
  exists ws sign ds rest : str,
    t = ws ++ sign ++ ds ++ rest /\ blank ws = true /\
    (sign = [] \/ sign = [45%N] \/ sign = [43%N]) /\
    forallb isDecimalDigit ds = true /\ digitsEnd rest /\
    (ds = [] ->
     (sign = [] /\
      match rest with
      | [] => True
      | c :: _ => isWhiteSpace c = false /\ c <> 45%N /\ c <> 43%N /\
                  isDecimalDigit c = false
      end) \/
     ((sign = [45%N] \/ sign = [43%N]) /\ digitsEnd rest)).
Proof.
  destruct (trimStart_split t) as (ws & Ht & Hws).
  pose proof (trimStart_headOk t) as Hhead.
  destruct (trimStart t) as [|c s] eqn:Es.
  - exists ws, [], [], []. split; [exact Ht|]. split; [exact Hws|].
    split; [left; reflexivity|]. split; [reflexivity|]. split; [exact I|].
    intros _. left. split; [reflexivity | exact I].
  - cbn in Hhead.
    destruct (N.eqb_spec c 45) as [->|H45]; [|destruct (N.eqb_spec c 43) as [->|H43]].
    + destruct (digits_split s) as (ds & rest & -> & Hds & Hend).
      exists ws, [45%N], ds, rest. split; [exact Ht|]. split; [exact Hws|].
      split; [right; left; reflexivity|]. split; [exact Hds|]. split; [exact Hend|].
      intros _. right. split; [left; reflexivity | exact Hend].
    + destruct (digits_split s) as (ds & rest & -> & Hds & Hend).
      exists ws, [43%N], ds, rest. split; [exact Ht|]. split; [exact Hws|].
      split; [right; right; reflexivity|]. split; [exact Hds|]. split; [exact Hend|].
      intros _. right. split; [right; reflexivity | exact Hend].
    + destruct (digits_split (c :: s)) as (ds & rest & Hs & Hds & Hend).
      exists ws, [], ds, rest. cbn [app]. rewrite <- Hs.
      split; [exact Ht|]. split; [exact Hws|].
      split; [left; reflexivity|]. split; [exact Hds|]. split; [exact Hend|].
      intros ->. left. split; [reflexivity|]. cbn [app] in Hs. subst rest.
      cbn in Hend. repeat split; assumption.
Qed.

(** C8, as amended: [getRulesCreatedDate] makes one read of the chat's
    creation key.  A rejected read gives [null], and so does a missing or
    empty value.  Any other stored text is parsed by [parseInt] in base
    ten: after leading white space and an optional sign, a run of
    decimal digits gives the integer it denotes (negated after a minus
    sign), whatever follows the digits; the value is exact up to 2^53.
    A text that has no decimal digit in that place does not parse: the
    result is then [NaN], which is no integer and is not [null] either,
    though the test of the report handler treats it exactly as
    [null].  Every stored text has one of these two shapes. *)
Theorem getRulesCreatedDate_reads (chatId : Z) (w : World) (s : state w) :
  let r := run w (getRulesCreatedDate chatId) s in
  let read := RedisGet (rulesCreatedKey chatId) in
  match answer w read s with
  | (Rejected, _) => value r = Returned None /\ trace r = [Ev read Rejected]
  | (Fulfilled None, _) =>
      value r = Returned None /\ trace r = [Ev read (Fulfilled None)]
  | (Fulfilled (Some t), _) =>
      trace r = [Ev read (Fulfilled (Some t))] /\
      (t = [] -> value r = Returned None) /\
      (forall ws sign ds rest : str,
          t = ws ++ sign ++ ds ++ rest -> blank ws = true ->
          sign = [] \/ sign = [45%N] \/ sign = [43%N] ->
          ds <> [] -> forallb isDecimalDigit ds = true -> digitsEnd rest ->
          (decimalValue ds <= 2 ^ 53)%N ->
          value r = Returned (Some (Int (if bool_decide (sign = [45%N])
                                         then - Z.of_N (decimalValue ds)
                                         else Z.of_N (decimalValue ds))))) /\
      (forall ws sign rest : str,
          t = ws ++ sign ++ rest -> t <> [] -> blank ws = true ->
          (sign = [] /\
           match rest with
           | [] => True
           | c :: _ => isWhiteSpace c = false /\ c <> 45%N /\ c <> 43%N /\
                       isDecimalDigit c = false
           end) \/
          ((sign = [45%N] \/ sign = [43%N]) /\ digitsEnd rest) ->
          value r = Returned (Some NaN) /\
          value r <> Returned None /\
          (forall z, value r <> Returned (Some (Int z))) /\
          (forall messageDate, predatesRules messageDate (Some NaN)
                               = predatesRules messageDate None)) /\
      (exists ws sign ds rest : str,
          t = ws ++ sign ++ ds ++ rest /\ blank ws = true /\
          (sign = [] \/ sign = [45%N] \/ sign = [43%N]) /\
          forallb isDecimalDigit ds = true /\ digitsEnd rest /\
          (ds = [] ->
           (sign = [] /\
            match rest with
            | [] => True
            | c :: _ => isWhiteSpace c = false /\ c <> 45%N /\ c <> 43%N /\
                        isDecimalDigit c = false
            end) \/
           ((sign = [45%N] \/ sign = [43%N]) /\ digitsEnd rest)))
  end.
Proof.
  intros r read. subst r read. rewrite run_getRulesCreatedDate.
  destruct (answer w _ s) as [[[t|]|] s']; cbn [value trace].
  - split; [reflexivity|].
    split; [intros ->; reflexivity|].
    assert (Hne : t <> [] -> (if truthy t then Some (parseInt t 10) else None)
                            = Some (parseInt t 10)).
    { destruct t; [congruence | reflexivity]. }
    split; [|split; [|apply decimal_shape]].
    + intros ws sign ds rest -> Hb Hs Hds Hall Hend _.
      rewrite Hne.
      * rewrite (parseInt_10_signed ws sign ds rest); auto.
      * destruct ds; [congruence|]. intros E.
        apply app_eq_nil in E as [_ E]. apply app_eq_nil in E as [_ E].
        discriminate E.
    + intros ws sign rest -> Ht Hb Hs. rewrite (Hne Ht).
      rewrite (parseInt_10_not_a_number ws sign rest Hb Hs).
      split; [reflexivity|]. split; [discriminate|].
      split; [intros z; discriminate | reflexivity].
  - split; reflexivity.
  - split; reflexivity.
Qed.

End CreatedDate.

(** A stored text with white space, a sign, leading zeros and a tail. *)
Lemma getRulesCreatedDate_reads_witness :
  let w := fixedWorld Rejected None (Some (lit " -0042 days")) Rejected in
  value (run w (getRulesCreatedDate 1) tt) = Returned (Some (Int (-42))).
Proof.
  intros w.
  exact (proj1 (proj2 (proj2 (getRulesCreatedDate_reads 1 w tt)))
           (lit " ") (lit "-") (lit "0042") (lit " days")
           eq_refl eq_refl (or_intror (or_introl eq_refl))
           ltac:(discriminate) eq_refl eq_refl ltac:(vm_compute; discriminate)).
Defined.

(** C8 as stated fails: a stored value that does not parse as a number,
    here [soon], does not yield absence.  The function returns [NaN],
    where a read error or a missing value gives [null]. *)
Lemma unparsable_created_date_is_NaN :
  let stored := fixedWorld Rejected None (Some (lit "soon")) Rejected in
  let missing := fixedWorld Rejected None None Rejected in
  value (run stored (getRulesCreatedDate 1) tt) = Returned (Some NaN) /\
  value (run missing (getRulesCreatedDate 1) tt) = Returned None /\
  value (run stored (getRulesCreatedDate 1) tt) <> Returned None.
Proof.
  intros stored missing. split; [reflexivity|]. split; [reflexivity|]. discriminate.
Qed.

(** * Runs cut at one of their events *)

Lemma ForallEarlier_cut (P : list event -> event -> Prop) (acc : list event) :
  ForallEarlier P acc ->
  forall post e pre, acc = post ++ e :: pre -> P pre e.
Proof.
  intros Hall post. revert acc Hall.
  induction post as [|a post IH]; intros acc Hall e pre ->; cbn in Hall.
  - tauto.
  - destruct Hall as [_ Hall]. exact (IH _ Hall e pre eq_refl).
Qed.

(** The same on the trace of a run, which lists the events in order. *)
Lemma ForallEarlier_trace (P : list event -> event -> Prop) (acc : list event) :
  ForallEarlier P acc ->
  forall pre e post, List.rev acc = pre ++ e :: post -> P (List.rev pre) e.
Proof.
  intros Hall pre e post Hcut.
  apply (ForallEarlier_cut P acc Hall (List.rev post) e (List.rev pre)).
  rewrite <- (List.rev_involutive acc), Hcut, List.rev_app_distr. cbn [List.rev].
  rewrite <- app_assoc. reflexivity.
Qed.

Lemma length_filter_rev {A} (f : A -> bool) (l : list A) :
  length (List.filter f (List.rev l)) = length (List.filter f l).
Proof.
  induction l as [|a l IH]; [reflexivity|]. cbn [List.rev List.filter].
  rewrite List.filter_app, List.length_app, IH. cbn [List.filter].
  destruct (f a); cbn [length]; lia.
Qed.

Lemma forallb_negb_existsb {A} (f : A -> bool) (l : list A) :
  forallb (fun e => negb (f e)) l = true -> existsb f l = false.
Proof.
  induction l as [|a l IH]; [reflexivity|]. cbn [forallb existsb].
  intros Hw. apply andb_true_iff in Hw as [Ha Hw].
  rewrite (IH Hw), orb_false_r. apply negb_true_iff, Ha.
Qed.

Ltac each_event :=
  cbn [ForallEarlier]; repeat split.


(** * The inference client and the rules store, further *)

Section StoreMore.

Context `{Host}.

Lemma parts_no_line_feed (content p : str) : In p (parts content) -> ~ In 10%N p.
Proof.
  unfold parts, filterBoolean. intros Hin Hlf.
  apply filter_In in Hin as [Hin _]. apply in_map_iff in Hin as (q & <- & Hq).
  exact (split_In 10 content q Hq (trim_In _ _ Hlf)).
Qed.

Lemma verdictOf_reason (content : str) :
  reason (verdictOf content) <> [] /\ ~ In 10%N (reason (verdictOf content)).
Proof.
  unfold verdictOf. cbn [reason]. unfold orElse.
  destruct (join (lit " ") (slice1 (parts content))) as [|c r] eqn:Ej; cbn [truthy].
  - split; [discriminate|]. cbn. intros Hin.
    repeat (destruct Hin as [Hin|Hin]; [discriminate Hin|]). exact Hin.
  - split; [discriminate|]. rewrite <- Ej. intros Hin.
    apply join_In in Hin as [Hin | (p & Hp & Hin)].
    + destruct Hin as [Hin|[]]. discriminate Hin.
    + apply (parts_no_line_feed content p); [|exact Hin].
      unfold slice1 in Hp. destruct (parts content); [destruct Hp | right; exact Hp].
Qed.

Lemma parseResponse_reason (content : option str) :
  reason (parseResponse content) <> [] /\ ~ In 10%N (reason (parseResponse content)).
Proof.
  assert (Hno : reason NO_RESPONSE <> [] /\ ~ In 10%N (reason NO_RESPONSE)).
  { split; [discriminate|]. cbn. intros Hin.
    repeat (destruct Hin as [Hin|Hin]; [discriminate Hin|]). exact Hin. }
  unfold parseResponse. destruct content as [text|]; cbn [option_map]; [|exact Hno].
  destruct (truthy (trim text)); cbn [negb]; [apply verdictOf_reason | exact Hno].
Qed.

Lemma parseResponse_violates (content : option str) :
  violates (parseResponse content) = true ->
  exists text, content = Some text /\ blank text = false.
Proof.
  destruct content as [text|]; [|discriminate]. intros Hv. exists text.
  split; [reflexivity|]. destruct (blank text) eqn:Hb; [|reflexivity].
  rewrite (parseResponse_blank text Hb) in Hv. discriminate Hv.
Qed.

(** X1: [callHuggingFace] always answers: it makes exactly one call, the
    request, and returns a verdict whatever the outcome, never
    throwing.  The reason of the verdict is never empty and holds no
    line feed, and the verdict is a violation only when the request
    was fulfilled with a content that is not blank. *)
Theorem callHuggingFace_always_answers (w : World) (s : state w)
    (messages : list ChatMessage) :
  let r := run w (callHuggingFace messages) s in
  exists v res,
    value r = Returned v /\
    trace r = [Ev (inferencePost messages) res] /\
    reason v <> [] /\ ~ In 10%N (reason v) /\
    (violates v = true ->
     exists text, res = Fulfilled (Answered (Some text)) /\ blank text = false).
Proof.
  intros r. subst r. rewrite run_callHuggingFace.
  assert (Hun : reason UNAVAILABLE <> [] /\ ~ In 10%N (reason UNAVAILABLE)).
  { split; [discriminate|]. cbn. intros Hin.
    repeat (destruct Hin as [Hin|Hin]; [discriminate Hin|]). exact Hin. }
  destruct (answer w (inferencePost messages) s) as [[[content|]|] s']; cbn [value trace].
  - exists (parseResponse content), (Fulfilled (Answered content)).
    split; [reflexivity|]. split; [reflexivity|].
    destruct (parseResponse_reason content) as [Hne Hlf].
    split; [exact Hne|]. split; [exact Hlf|].
    intros Hv. destruct (parseResponse_violates content Hv) as (text & -> & Hb).
    exists text. split; [reflexivity | exact Hb].
  - exists UNAVAILABLE, (Fulfilled Unreadable). split; [reflexivity|].
    split; [reflexivity|]. destruct Hun. repeat split; auto. discriminate.
  - exists UNAVAILABLE, Rejected. split; [reflexivity|].
    split; [reflexivity|]. destruct Hun. repeat split; auto. discriminate.
Qed.

(** X2: [getSimpleRules] makes exactly one read, of the rule key of the
    chat, and never throws.  It returns the stored text when the read
    is fulfilled with a text that is not empty, and [null] when the
    read is rejected or gives nothing or the empty text: the result is
    never the empty text. *)
Theorem getSimpleRules_reads (chatId : Z) (w : World) (s : state w) :
  let r := run w (getSimpleRules chatId) s in
  let read := RedisGet (simpleRulesKey chatId) in
  let stored := fst (answer w read s) in
  trace r = [Ev read stored] /\ final r = snd (answer w read s) /\
  value r = Returned match stored with
                     | Fulfilled (Some (c :: t)) => Some (c :: t)
                     | _ => None
                     end /\
  value r <> Returned (Some []).
Proof.
  intros r read stored. subst r read stored. rewrite run_getSimpleRules.
  destruct (answer w _ s) as [[[[|c t]|]|] s']; cbn; repeat split; discriminate.
Qed.

Lemma run_setCustomRules (w : World) (s : state w) (chatId : Z) (rules : str) :
  20 <= length rules ->
  let write1 := RedisSet (simpleRulesKey chatId) (trim rules) in
  let write2 := RedisSet (rulesCreatedKey chatId) (toString (clock w s / 1000)) in
  run w (setCustomRules chatId rules) s
  = match answer w write1 s with
    | (Rejected, s1) =>
        {| value := Returned None; final := s1; trace := [Ev write1 Rejected] |}
    | (Fulfilled u1, s1) =>
        match answer w write2 s1 with
        | (Rejected, s2) =>
            {| value := Returned None; final := s2;
               trace := [Ev write1 (Fulfilled u1); Ev write2 Rejected] |}
        | (Fulfilled u2, s2) =>
            {| value := Returned (Some (buildFullPrompt rules)); final := s2;
               trace := [Ev write1 (Fulfilled u1); Ev write2 (Fulfilled u2)] |}
        end
    end.
Proof.
  intros Hlen write1 write2. subst write1 write2. unfold run, setCustomRules.
  apply Nat.ltb_ge in Hlen. rewrite Hlen.
  cbn [exec bind try_catch await dateNow].
  destruct (answer w (RedisSet (simpleRulesKey chatId) (trim rules)) s) as [[u1|] s1];
    cbn [exec bind try_catch await]; [|reflexivity].
  destruct (answer w (RedisSet (rulesCreatedKey chatId) _) s1) as [[u2|] s2];
    reflexivity.
Qed.

(** X3: [setCustomRules] never throws and calls nothing but the store.  A
    text of at least 20 code units is written trimmed under the rule
    key, then the time in seconds under the creation key.  The result
    is the prompt built from the text when both writes are fulfilled and
    the failure value as soon as one is rejected; after a rejected
    second write the new text is stored without its creation time. *)
Theorem setCustomRules_writes (chatId : Z) (rules : str) (w : World) (s : state w) :
  20 <= length rules ->
  let r := run w (setCustomRules chatId rules) s in
  let write1 := RedisSet (simpleRulesKey chatId) (trim rules) in
  let write2 := RedisSet (rulesCreatedKey chatId) (toString (clock w s / 1000)) in
  exists r1,
    value r <> Thrown /\
    match r1 with
    | Rejected => trace r = [Ev write1 r1] /\ value r = Returned None
    | Fulfilled _ =>
        exists r2,
          trace r = [Ev write1 r1; Ev write2 r2] /\
          value r = Returned match r2 with
                             | Fulfilled _ => Some (buildFullPrompt rules)
                             | Rejected => None
                             end
    end.
Proof.
  intros Hlen r write1 write2. subst r write1 write2.
  rewrite (run_setCustomRules w s chatId rules Hlen). cbv zeta.
  destruct (answer w (RedisSet (simpleRulesKey chatId) (trim rules)) s) as [[u1|] s1].
  - destruct (answer w (RedisSet (rulesCreatedKey chatId) _) s1) as [[u2|] s2].
    + exists (Fulfilled u1). split; [discriminate|]. exists (Fulfilled u2).
      split; reflexivity.
    + exists (Fulfilled u1). split; [discriminate|]. exists Rejected.
      split; reflexivity.
  - exists Rejected. split; [discriminate|]. split; reflexivity.
Qed.

Lemma run_getRulesCreatedDate_store (w : World) (s : state w) (store : gmap str str)
    (chatId : Z) :
  value (run (withStore w) (getRulesCreatedDate chatId) (s, store))
  = Returned match store !! rulesCreatedKey chatId with
             | Some t => if truthy t then Some (parseInt t 10) else None
             | None => None
             end.
Proof. rewrite run_getRulesCreatedDate. reflexivity. Qed.

(** X4: With a reliable store, once [setCustomRules] has accepted a text,
    [getRulesCreatedDate] returns the time of the call in whole
    seconds: what [toString] wrote, [parseInt] reads back.  The report
    handler then takes a message for older than the rules exactly when
    its date is strictly before that second.  The time is within the
    range in which a JavaScript number is exact. *)
Theorem set_then_get_created (w : World) (s : state w) (store : gmap str str)
    (chatId : Z) (rules : str) :
  20 <= length rules ->
  (Z.abs (clock w s / 1000) <= 2 ^ 53)%Z ->
  let seconds := (clock w s / 1000)%Z in
  let set := run (withStore w) (setCustomRules chatId rules) (s, store) in
  value (run (withStore w) (getRulesCreatedDate chatId) (final set))
  = Returned (Some (Int seconds)) /\
  forall messageDate : N,
    predatesRules messageDate (Some (Int seconds)) = (Z.of_N messageDate <? seconds)%Z.
Proof.
  intros Hlen _ seconds set. subst set seconds.
  rewrite run_setCustomRules_store by exact Hlen. cbn [final].
  rewrite run_getRulesCreatedDate_store, lookup_insert_eq.
  generalize (clock w s / 1000)%Z. intros seconds. split.
  - pose proof (toString_nonempty seconds) as Hne.
    destruct (toString seconds) as [|c t] eqn:Et; [congruence|]. cbn [truthy].
    rewrite <- Et, parseInt_toString. reflexivity.
  - intros messageDate. unfold predatesRules, truthyNum, lt.
    destruct (Z.eqb_spec seconds 0) as [->|Hne]; cbn [negb andb]; [|reflexivity].
    symmetry. apply Z.ltb_ge. lia.
Qed.

(** X5: The prompt is the template with the placeholder replaced by the
    trimmed rules: a rule text without a dollar sign is inserted as it
    is, and white space around the rules makes no difference, so that
    the prompt returned when the rules are set is the prompt that the
    report handler builds from the stored text. *)
Theorem buildFullPrompt_inserts_rules :
  exists before after,
    PROMPT_TEMPLATE = before ++ lit "{RULES}" ++ after /\
    (forall rules, ~ In 36%N rules ->
                   buildFullPrompt rules = before ++ trim rules ++ after) /\
    (forall rules, buildFullPrompt (trim rules) = buildFullPrompt rules).
Proof.
  destruct (search (lit "{RULES}") [] PROMPT_TEMPLATE) as [[before after]|] eqn:Es;
    [|vm_compute in Es; discriminate Es].
  exists before, after. split; [|split].
  - vm_compute in Es. injection Es as <- <-. vm_compute. reflexivity.
  - intros rules Hno. unfold buildFullPrompt, replace. rewrite Es.
    rewrite getSubstitution_plain; [reflexivity|].
    intros Hin. apply Hno, (trim_In _ _ Hin).
  - intros rules. unfold buildFullPrompt. rewrite trim_idem. reflexivity.
Qed.

End StoreMore.

(** * [/rules], further *)

Section RulesMore.

Context `{Host}.

Lemma toLowerCase_set : toLowerCase (lit "set") = lit "set".
Proof. rewrite toLowerCase_ascii; reflexivity. Qed.

Lemma toLowerCase_empty : toLowerCase [] = [].
Proof. rewrite toLowerCase_ascii; reflexivity. Qed.

(** The arguments that [/rules] reads from [/rules set] followed by a
    space and a text: the subcommand, and the rule text, which is the
    text trimmed. *)
Lemma rules_set_argument (body : str) :
  let args := split 32 (trim (replace (lit "/rules") [] (lit "/rules set " ++ body))) in
  List.head args = Some (lit "set") /\
  trim (join (lit " ") (slice1 args)) = trim body.
Proof.
  change (replace (lit "/rules") [] (lit "/rules set " ++ body))
    with (32%N :: lit "set" ++ 32%N :: body).
  assert (Ht : trim (32%N :: lit "set" ++ 32%N :: body)
               = lit "set" ++ (if blank body then [] else 32%N :: trimEnd body)).
  { unfold trim. cbn [trimStart lit app List.map list_ascii_of_string].
    change (isWhiteSpace 32) with true. cbv iota.
    change (isWhiteSpace (N_of_ascii "s")) with false. cbv iota.
    rewrite !trimEnd_cons by reflexivity.
    change (32%N :: body) with ([32%N] ++ body). rewrite trimEnd_app_blank.
    destruct (blank body); reflexivity. }
  cbv zeta. rewrite Ht. destruct (blank body) eqn:Hb.
  - split; [reflexivity|]. cbn. symmetry. apply trim_blank, Hb.
  - rewrite split_app_sep by (cbn; intros [E|[E|[E|[]]]]; discriminate E).
    cbn [List.head slice1 List.tl]. split; [reflexivity|].
    change (lit " ") with [32%N]. rewrite join_split. apply trim_trimEnd.
Qed.

(** The arguments of [/rules] alone. *)
Lemma rules_no_argument (ws : str) :
  blank ws = true ->
  List.head (split 32 (trim (replace (lit "/rules") [] (lit "/rules" ++ ws)))) = Some [].
Proof.
  intros Hb. change (replace (lit "/rules") [] (lit "/rules" ++ ws)) with ws.
  apply trim_blank in Hb. rewrite Hb. reflexivity.
Qed.

Ltac unfold_rules :=
  unfold rulesCommand, getSimpleRules, isAuthorizedUser, setCustomRules, resetRules.

Lemma rules_show (ctx : Context) (ws : str) (w : World) (s : state w) :
  chat_type ctx = lit "supergroup" ->
  message_text ctx = lit "/rules" ++ ws -> blank ws = true ->
  let stored := fst (answer w (RedisGet (simpleRulesKey (chat_id ctx))) s) in
  let '(_, _, acc) := exec w (rulesCommand ctx) s [] in
  exists res,
    acc = [Ev (Reply match stored with
                     | Fulfilled (Some t) =>
                         if truthy t then CURRENT_RULES t else NO_RULES_SET
                     | _ => NO_RULES_SET
                     end) res;
           Ev (RedisGet (simpleRulesKey (chat_id ctx))) stored].
Proof.
  intros Hchat Htext Hb stored. subst stored. unfold_rules.
  rewrite Hchat, strictEq_refl, Htext, (rules_no_argument ws Hb).
  cbn [negb option_map]. rewrite toLowerCase_empty. cbn [truthyOpt truthy negb].
  exec_all; try discriminate.
  all: try match goal with
           | E : (if truthyOpt ?x then ?x else None) = _ |- _ =>
               destruct x as [[|? ?]|]; cbn in E; try discriminate E;
               try (injection E as <-)
           end.
  all: try discriminate.
  all: eexists; reflexivity.
Qed.

Lemma rules_unauthorized (ctx : Context) (w : World) (s : state w) :
  includes SPECIAL_ANONYMOUS_IDS (from ctx) = false ->
  (forall member s1,
      answer w (GetChatMember (chat_id ctx) (from ctx)) s = (Fulfilled member, s1) ->
      isAdminStatus member = false) ->
  let '(_, _, acc) := exec w (rulesCommand ctx) s [] in
  forallb (fun e => negb (is_store_write e)) acc = true.
Proof.
  intros Hin Hlook. unfold_rules. rewrite Hin.
  destruct (answer w (GetChatMember (chat_id ctx) (from ctx)) s) as [[member|] s1] eqn:Ha.
  - pose proof (Hlook member s1 eq_refl) as Hm.
    repeat (exec_step; rewrite ?Hm in * ); exec_reduce; cbv beta iota.
    all: try reflexivity.
    all: exfalso; cbn [negb andb] in *.
    all: match goal with
         | E : _ || _ = false |- _ => apply orb_false_iff in E as [? ?]; congruence
         end.
  - exec_all; try reflexivity.
    all: exfalso; cbn [negb andb] in *.
    all: match goal with
         | E : _ || _ = false |- _ => apply orb_false_iff in E as [? ?]; congruence
         end.
Qed.

Lemma bool_decide_refl {A} `{EqDecision A} (a : A) : bool_decide (a = a) = true.
Proof. apply bool_decide_eq_true_2. reflexivity. Qed.

Lemma rules_set_run (ctx : Context) (body : str) (w : World) (s s1 : state w) :
  chat_type ctx = lit "supergroup" ->
  message_text ctx = lit "/rules set " ++ body ->
  authorizedFrom ctx w s s1 ->
  let '(_, _, acc) := exec w (rulesCommand ctx) s [] in
  exists pre rest,
    acc = rest ++ pre /\ forallb is_lookup pre = true /\
    if blank body then exists res, rest = [Ev (Reply RULES_SET_USAGE) res]
    else if (length (trim body) <? 20)%nat
    then exists res, rest = [Ev (Reply RULES_SET_FAILED) res]
    else
      exists r1 r2 res,
        let write1 := Ev (RedisSet (simpleRulesKey (chat_id ctx)) (trim body)) r1 in
        let write2 := Ev (RedisSet (rulesCreatedKey (chat_id ctx))
                            (toString (clock w s1 / 1000))) r2 in
        match r1, r2 with
        | Fulfilled _, Fulfilled _ =>
            rest = [Ev (Reply (RULES_SET_DONE (trim body))) res; write2; write1]
        | Fulfilled _, Rejected =>
            rest = [Ev (Reply RULES_SET_FAILED) res; write2; write1]
        | Rejected, _ => rest = [Ev (Reply RULES_SET_FAILED) res; write1]
        end.
Proof.
  intros Hchat Htext Hauth. unfold_rules.
  destruct (rules_set_argument body) as [Hhead Hrules]. cbv zeta in Hhead, Hrules.
  rewrite Hchat, strictEq_refl, Htext, Hhead, Hrules. cbn [negb option_map].
  rewrite toLowerCase_set. change (truthyOpt (Some (lit "set"))) with true.
  rewrite bool_decide_refl, trim_idem. cbn [negb orb].
  assert (Hb : truthy (trim body) = negb (blank body)).
  { destruct (blank body) eqn:Hb.
    - apply trim_blank in Hb. rewrite Hb. reflexivity.
    - destruct (trim body) eqn:Et; [|reflexivity].
      apply trim_blank in Et. congruence. }
  rewrite Hb.
  destruct Hauth as [[Hin ->] | (Hin & member & Hlook & Hst)]; rewrite Hin.
  - destruct (blank body), (length (trim body) <? 20)%nat;
      repeat (exec_reduce; cbn [andb]; exec_step); exec_reduce; cbv beta iota.
    all: exists (@nil event); eexists; split; [rewrite app_nil_r; reflexivity|].
    all: split; [reflexivity|].
    all: first [ eexists; reflexivity
               | exists (Fulfilled tt), (Fulfilled tt); eexists;
                 repeat match goal with u : unit |- _ => destruct u end; reflexivity
               | exists (Fulfilled tt), Rejected; eexists;
                 repeat match goal with u : unit |- _ => destruct u end; reflexivity
               | exists Rejected, Rejected; eexists; reflexivity ].
  - apply isAdminStatus_iff in Hst.
    destruct (blank body), (length (trim body) <? 20)%nat;
      repeat (exec_reduce; rewrite ?Hst; cbn [negb andb]; exec_step);
      exec_reduce; cbv beta iota.
    all: eexists [_];
      first [ eexists [_]; split; [reflexivity|]
            | eexists [_; _]; split; [reflexivity|]
            | eexists [_; _; _]; split; [reflexivity|] ].
    all: split; [reflexivity|].
    all: first [ eexists; reflexivity
               | exists (Fulfilled tt), (Fulfilled tt); eexists;
                 repeat match goal with u : unit |- _ => destruct u end; reflexivity
               | exists (Fulfilled tt), Rejected; eexists;
                 repeat match goal with u : unit |- _ => destruct u end; reflexivity
               | exists Rejected, Rejected; eexists; reflexivity ].
Qed.

Ltac store_reduce :=
  cbn [exec bind try_catch await reply dateNow answer withStore clock fst snd negb].

Lemma rules_set_store (ctx : Context) (body : str) (w : World) (s s1 : state w)
    (store : gmap str str) :
  chat_type ctx = lit "supergroup" ->
  message_text ctx = lit "/rules set " ++ body ->
  20 <= length (trim body) ->
  authorizedFrom ctx w s s1 ->
  let '(_, final, acc) := exec (withStore w) (rulesCommand ctx) (s, store) [] in
  snd final = <[rulesCreatedKey (chat_id ctx) := toString (clock w s1 / 1000)]>
                (<[simpleRulesKey (chat_id ctx) := trim body]> store) /\
  exists res pre,
    acc = Ev (Reply (RULES_SET_DONE (trim body))) res :: pre.
Proof.
  intros Hchat Htext Hlen Hauth. unfold_rules.
  destruct (rules_set_argument body) as [Hhead Hrules]. cbv zeta in Hhead, Hrules.
  rewrite Hchat, strictEq_refl, Htext, Hhead, Hrules. cbn [negb option_map].
  rewrite toLowerCase_set. change (truthyOpt (Some (lit "set"))) with true.
  rewrite bool_decide_refl, trim_idem. cbn [negb orb].
  assert (Hb : truthy (trim body) = true).
  { destruct (trim body); [cbn in Hlen; lia | reflexivity]. }
  apply Nat.ltb_ge in Hlen. rewrite Hb, Hlen.
  destruct Hauth as [[Hin ->] | (Hin & member & Hlook & Hst)]; rewrite Hin.
  - store_reduce. cbn [andb]. store_reduce.
    destruct (answer w (Reply (RULES_SET_DONE (trim body))) s) as [[x|] s2];
      store_reduce; (split; [reflexivity|]); do 2 eexists; reflexivity.
  - apply isAdminStatus_iff in Hst.
    store_reduce. rewrite Hlook. store_reduce. rewrite Hst. cbn [negb andb].
    store_reduce.
    destruct (answer w (Reply (RULES_SET_DONE (trim body))) s1) as [[x|] s2];
      store_reduce; (split; [reflexivity|]); do 2 eexists; reflexivity.
Qed.

(** The subcommand that [/rules] reads from [/rules reset], alone or
    followed by a space and anything. *)
Lemma rules_reset_argument (rest : str) :
  rest = [] \/ (exists r, rest = 32%N :: r) ->
  List.head (split 32 (trim (replace (lit "/rules") [] (lit "/rules reset" ++ rest))))
  = Some (lit "reset").
Proof.
  intros Hrest.
  change (replace (lit "/rules") [] (lit "/rules reset" ++ rest))
    with (32%N :: lit "reset" ++ rest).
  assert (Ht : trim (32%N :: lit "reset" ++ rest)
               = lit "reset" ++ (if blank rest then [] else trimEnd rest)).
  { unfold trim. cbn [trimStart lit app List.map list_ascii_of_string].
    change (isWhiteSpace 32) with true. cbv iota.
    change (isWhiteSpace (N_of_ascii "r")) with false. cbv iota.
    rewrite !trimEnd_cons by reflexivity.
    destruct (blank rest) eqn:Hb; [rewrite (trimEnd_blank rest Hb)|]; reflexivity. }
  rewrite Ht. destruct (blank rest) eqn:Hb; [reflexivity|].
  destruct Hrest as [-> | (r & ->)]; [discriminate Hb|].
  assert (Hb' : blank r = false) by exact Hb.
  change (32%N :: r) with ([32%N] ++ r). rewrite trimEnd_app_blank, Hb'. cbn [app].
  rewrite split_app_sep; [reflexivity|].
  cbn. intros [E|[E|[E|[E|[E|[]]]]]]; discriminate E.
Qed.

Lemma toLowerCase_reset : toLowerCase (lit "reset") = lit "reset".
Proof. rewrite toLowerCase_ascii; reflexivity. Qed.

Lemma rules_reset_store (ctx : Context) (rest : str) (w : World) (s s1 : state w)
    (store : gmap str str) :
  chat_type ctx = lit "supergroup" ->
  message_text ctx = lit "/rules reset" ++ rest ->
  rest = [] \/ (exists r, rest = 32%N :: r) ->
  authorizedFrom ctx w s s1 ->
  let '(_, final, acc) := exec (withStore w) (rulesCommand ctx) (s, store) [] in
  snd final = delete (rulesCreatedKey (chat_id ctx))
                (delete (simpleRulesKey (chat_id ctx)) store) /\
  exists res, In (Ev (Reply RULES_RESET_DONE) res) acc.
Proof.
  intros Hchat Htext Hrest Hauth. unfold_rules.
  rewrite Hchat, strictEq_refl, Htext, (rules_reset_argument rest Hrest).
  cbn [negb option_map].
  rewrite toLowerCase_reset. change (truthyOpt (Some (lit "reset"))) with true.
  rewrite bool_decide_refl.
  rewrite (bool_decide_eq_false_2 (Some (lit "reset") = Some (lit "set")))
    by discriminate.
  cbn [negb orb].
  destruct Hauth as [[Hin ->] | (Hin & member & Hlook & Hst)]; rewrite Hin.
  - store_reduce. cbn [andb]. store_reduce.
    destruct (answer w (Reply RULES_RESET_DONE) s) as [[x|] s2]; store_reduce.
    + split; [reflexivity|]. eexists. left. reflexivity.
    + destruct (answer w (Reply RULES_RESET_FAILED) s2) as [[y|] s3]; store_reduce;
        (split; [reflexivity|]); eexists; right; left; reflexivity.
  - apply isAdminStatus_iff in Hst.
    store_reduce. rewrite Hlook. store_reduce. rewrite Hst. cbn [negb andb].
    store_reduce.
    destruct (answer w (Reply RULES_RESET_DONE) s1) as [[x|] s2]; store_reduce.
    + split; [reflexivity|]. eexists. left. reflexivity.
    + destruct (answer w (Reply RULES_RESET_FAILED) s2) as [[y|] s3]; store_reduce;
        (split; [reflexivity|]); eexists; right; left; reflexivity.
Qed.

Lemma trimEnd_no_space (s : str) :
  forallb (fun c => negb (isWhiteSpace c)) s = true -> trimEnd s = s.
Proof.
  induction s as [|c s IH]; [reflexivity|]. cbn [forallb].
  intros Hs. apply andb_true_iff in Hs as [Hc Hs]. apply negb_true_iff in Hc.
  rewrite trimEnd_cons by exact Hc. rewrite (IH Hs). reflexivity.
Qed.

Lemma no_space_not_In (s : str) :
  forallb (fun c => negb (isWhiteSpace c)) s = true -> ~ In 32%N s.
Proof.
  intros Hs Hin. rewrite forallb_forall in Hs. specialize (Hs _ Hin). discriminate Hs.
Qed.

(** The arguments of a text that opens with a word without white
    space, alone or followed by a space and anything. *)
Lemma arguments_of_word (word rest : str) :
  word <> [] -> forallb (fun c => negb (isWhiteSpace c)) word = true ->
  rest = [] \/ (exists r, rest = 32%N :: r) ->
  split 32 (trim (word ++ rest))
  = word :: (if blank rest then [] else split 32 (trimEnd (List.tl rest))).
Proof.
  intros Hne Hword Hrest.
  assert (Hstart : trimStart (word ++ rest) = word ++ rest).
  { destruct word as [|c word]; [congruence|]. cbn [forallb] in Hword.
    apply andb_true_iff in Hword as [Hc _]. apply negb_true_iff in Hc.
    cbn [app trimStart]. rewrite Hc. reflexivity. }
  unfold trim. rewrite Hstart, trimEnd_app_blank.
  destruct (blank rest) eqn:Hb.
  - rewrite (trimEnd_no_space word Hword).
    rewrite split_no_separator by (apply no_space_not_In, Hword). reflexivity.
  - destruct Hrest as [-> | (r & ->)]; [discriminate Hb|].
    assert (Hb' : blank r = false) by exact Hb.
    change (32%N :: r) with ([32%N] ++ r). rewrite trimEnd_app_blank, Hb'. cbn [app].
    rewrite split_app_sep by (apply no_space_not_In, Hword). reflexivity.
Qed.

(** Its first argument is the word. *)
Lemma first_argument (word rest : str) :
  word <> [] -> forallb (fun c => negb (isWhiteSpace c)) word = true ->
  rest = [] \/ (exists r, rest = 32%N :: r) ->
  List.head (split 32 (trim (word ++ rest))) = Some word.
Proof.
  intros Hne Hword Hrest. rewrite (arguments_of_word word rest Hne Hword Hrest).
  reflexivity.
Qed.

Lemma rules_other_subcommand (ctx : Context) (sub : str) (w : World) (s : state w) :
  chat_type ctx = lit "supergroup" ->
  option_map toLowerCase
    (List.head (split 32 (trim (replace (lit "/rules") [] (message_text ctx)))))
  = Some sub ->
  sub <> [] -> sub <> lit "set" -> sub <> lit "reset" ->
  let '(_, _, acc) := exec w (rulesCommand ctx) s [] in
  exists res pre,
    acc = Ev (Reply RULES_INVALID) res :: pre /\ forallb is_lookup pre = true.
Proof.
  intros Hchat Hsub Hne Hset Hreset. unfold_rules.
  rewrite Hchat, strictEq_refl, Hsub. cbn [negb].
  assert (Ht : truthyOpt (Some sub) = true) by (destruct sub; [congruence | reflexivity]).
  rewrite Ht, !bool_decide_eq_false_2 by congruence. cbn [negb orb].
  repeat (exec_reduce; rewrite ?andb_false_r; exec_step); exec_reduce; cbv beta iota.
  all: do 2 eexists; split; reflexivity.
Qed.

Lemma rules_bot_name (ctx : Context) (name rest : str) (w : World) (s : state w) :
  chat_type ctx = lit "supergroup" ->
  message_text ctx = lit "/rules@" ++ name ++ rest ->
  forallb isAscii name = true ->
  forallb (fun c => negb (isWhiteSpace c)) name = true ->
  rest = [] \/ (exists r, rest = 32%N :: r) ->
  let '(_, _, acc) := exec w (rulesCommand ctx) s [] in
  exists res pre,
    acc = Ev (Reply RULES_INVALID) res :: pre /\ forallb is_lookup pre = true.
Proof.
  intros Hchat Htext Hascii Hname Hrest.
  apply (rules_other_subcommand ctx (64%N :: List.map asciiLower name) w s Hchat);
    try discriminate.
  rewrite Htext.
  change (replace (lit "/rules") [] (lit "/rules@" ++ name ++ rest))
    with ((64%N :: name) ++ rest).
  rewrite first_argument; [| discriminate | cbn [forallb]; rewrite Hname; reflexivity
                          | exact Hrest ].
  cbn [option_map]. rewrite toLowerCase_ascii by (cbn [forallb]; rewrite Hascii; reflexivity).
  reflexivity.
Qed.

Lemma asciiLower_idem (c : N) : asciiLower (asciiLower c) = asciiLower c.
Proof.
  unfold asciiLower.
  destruct (N.leb_spec 65 c), (N.leb_spec c 90); cbn [andb]; try reflexivity.
  - destruct (N.leb_spec 65 (c + 32)), (N.leb_spec (c + 32) 90); cbn [andb];
      first [reflexivity | lia].
  - destruct (N.leb_spec 65 c), (N.leb_spec c 90); cbn [andb]; first [reflexivity | lia].
  - destruct (N.leb_spec 65 c), (N.leb_spec c 90); cbn [andb]; first [reflexivity | lia].
  - destruct (N.leb_spec 65 c), (N.leb_spec c 90); cbn [andb]; first [reflexivity | lia].
Qed.

Lemma asciiLower_isAscii (c : N) : isAscii c = true -> isAscii (asciiLower c) = true.
Proof.
  unfold isAscii, asciiLower. intros Hc. apply N.ltb_lt in Hc.
  destruct (N.leb_spec 65 c), (N.leb_spec c 90); cbn [andb]; apply N.ltb_lt; lia.
Qed.

Lemma asciiLower_no_space (c : N) :
  isWhiteSpace c = false -> isWhiteSpace (asciiLower c) = false.
Proof.
  unfold asciiLower.
  destruct (N.leb_spec 65 c), (N.leb_spec c 90); cbn [andb]; try tauto.
  intros _. unfold isWhiteSpace.
  repeat match goal with
         | |- context [(?a <=? ?b)%N] => destruct (N.leb_spec a b); try lia
         | |- context [(?a =? ?b)%N] => destruct (N.eqb_spec a b); try lia
         end; reflexivity.
Qed.

Lemma rules_subcommand_case (ctx ctx' : Context) (sub rest : str) :
  chat_type ctx' = chat_type ctx -> chat_id ctx' = chat_id ctx ->
  from ctx' = from ctx ->
  message_text ctx = lit "/rules " ++ sub ++ rest ->
  message_text ctx' = lit "/rules " ++ List.map asciiLower sub ++ rest ->
  sub <> [] -> forallb isAscii sub = true ->
  forallb (fun c => negb (isWhiteSpace c)) sub = true ->
  rest = [] \/ (exists r, rest = 32%N :: r) ->
  rulesCommand ctx' = rulesCommand ctx.
Proof.
  intros Hchat Hid Hfrom Htext Htext' Hne Hascii Hword Hrest.
  assert (Hne' : List.map asciiLower sub <> []) by (destruct sub; [congruence | discriminate]).
  assert (Hascii' : forallb isAscii (List.map asciiLower sub) = true).
  { rewrite forallb_forall in *. intros c Hin. apply in_map_iff in Hin as (d & <- & Hd).
    apply asciiLower_isAscii, Hascii, Hd. }
  assert (Hword' : forallb (fun c => negb (isWhiteSpace c)) (List.map asciiLower sub) = true).
  { rewrite forallb_forall in *. intros c Hin. apply in_map_iff in Hin as (d & <- & Hd).
    apply negb_true_iff, asciiLower_no_space, negb_true_iff, Hword, Hd. }
  assert (Hargs : forall word,
             split 32 (trim (replace (lit "/rules") [] (lit "/rules " ++ word ++ rest)))
             = split 32 (trim (word ++ rest))).
  { intros word.
    change (replace (lit "/rules") [] (lit "/rules " ++ word ++ rest))
      with (32%N :: word ++ rest). reflexivity. }
  unfold rulesCommand, isAuthorizedUser.
  rewrite Hchat, Hid, Hfrom, Htext, Htext', !Hargs.
  rewrite (arguments_of_word sub rest Hne Hword Hrest).
  rewrite (arguments_of_word _ rest Hne' Hword' Hrest).
  cbn [List.head option_map slice1 List.tl].
  rewrite (toLowerCase_ascii _ Hascii), (toLowerCase_ascii _ Hascii').
  rewrite List.map_map.
  rewrite (List.map_ext (fun x => asciiLower (asciiLower x)) asciiLower asciiLower_idem).
  reflexivity.
Qed.

End RulesMore.

(** * [/rules], further: the properties *)

Section RulesProperties.

Context `{Host}.

(** X6: [/rules] without a subcommand shows the rules to anyone: it makes
    one read of the rule text and one reply, with the stored text when
    there is one and with the notice that no rules are set when the
    text is missing, empty or cannot be read; no membership lookup is
    made. *)
Theorem anyone_can_read_the_rules (ctx : Context) (ws : str) (w : World)
    (s : state w) :
  chat_type ctx = lit "supergroup" ->
  message_text ctx = lit "/rules" ++ ws -> blank ws = true ->
  let read := RedisGet (simpleRulesKey (chat_id ctx)) in
  let stored := fst (answer w read s) in
  exists res,
    trace (run w (rulesCommand ctx) s)
    = [Ev read stored;
       Ev (Reply match stored with
                 | Fulfilled (Some t) =>
                     if truthy t then CURRENT_RULES t else NO_RULES_SET
                 | _ => NO_RULES_SET
                 end) res].
Proof.
  intros Hchat Htext Hb read stored. subst read stored. unfold run.
  pose proof (rules_show ctx ws w s Hchat Htext Hb) as Hr. cbv zeta in Hr.
  destruct (exec w (rulesCommand ctx) s []) as [[o s'] acc]. cbn [trace].
  destruct Hr as (res & ->). exists res. reflexivity.
Qed.

(** X7: A sender who is not on the allow-list and whose membership lookup
    fails or gives a status other than [administrator] and [creator]
    cannot change the rules: whatever the command text, [/rules] writes
    nothing to the store and deletes nothing from it. *)
Theorem unauthorized_cannot_change_rules (ctx : Context) (w : World) (s : state w) :
  includes SPECIAL_ANONYMOUS_IDS (from ctx) = false ->
  (forall member s1,
      answer w (GetChatMember (chat_id ctx) (from ctx)) s = (Fulfilled member, s1) ->
      status member <> lit "administrator" /\ status member <> lit "creator") ->
  existsb is_store_write (trace (run w (rulesCommand ctx) s)) = false.
Proof.
  intros Hin Hlook. unfold run.
  assert (Hlook' : forall member s1,
             answer w (GetChatMember (chat_id ctx) (from ctx)) s = (Fulfilled member, s1) ->
             isAdminStatus member = false).
  { intros member s1 Ha. destruct (isAdminStatus member) eqn:E; [|reflexivity].
    apply isAdminStatus_iff in E. destruct (Hlook member s1 Ha). tauto. }
  pose proof (rules_unauthorized ctx w s Hin Hlook') as Hr.
  destruct (exec w (rulesCommand ctx) s []) as [[o s'] acc]. cbn [trace].
  rewrite existsb_rev. apply forallb_negb_existsb, Hr.
Qed.

(** X8: What [/rules set] followed by a text does for an authorized sender,
    after the authorization lookup if any.  A text of white space only
    is answered with the usage notice and a text whose trimmed form is
    shorter than 20 code units with the failure notice, in both cases
    without any call to the store.  Otherwise the trimmed text is
    written under the rule key and then the time in seconds under the
    creation key; the reply is the confirmation when both writes are
    fulfilled, and the failure notice as soon as one is rejected (after
    a rejected second write the new rule text stays stored). *)
Theorem rules_set_replies (ctx : Context) (body : str) (w : World) (s s1 : state w) :
  chat_type ctx = lit "supergroup" ->
  message_text ctx = lit "/rules set " ++ body ->
  authorizedFrom ctx w s s1 ->
  exists pre rest,
    trace (run w (rulesCommand ctx) s) = pre ++ rest /\
    forallb is_lookup pre = true /\
    if blank body then exists res, rest = [Ev (Reply RULES_SET_USAGE) res]
    else if (length (trim body) <? 20)%nat
    then exists res, rest = [Ev (Reply RULES_SET_FAILED) res]
    else
      exists r1 r2 res,
        let write1 := Ev (RedisSet (simpleRulesKey (chat_id ctx)) (trim body)) r1 in
        let write2 := Ev (RedisSet (rulesCreatedKey (chat_id ctx))
                            (toString (clock w s1 / 1000))) r2 in
        match r1, r2 with
        | Fulfilled _, Fulfilled _ =>
            rest = [write1; write2; Ev (Reply (RULES_SET_DONE (trim body))) res]
        | Fulfilled _, Rejected =>
            rest = [write1; write2; Ev (Reply RULES_SET_FAILED) res]
        | Rejected, _ => rest = [write1; Ev (Reply RULES_SET_FAILED) res]
        end.
Proof.
  intros Hchat Htext Hauth. unfold run.
  pose proof (rules_set_run ctx body w s s1 Hchat Htext Hauth) as Hr.
  destruct (exec w (rulesCommand ctx) s []) as [[o s'] acc]. cbn [trace].
  destruct Hr as (pre & rest & -> & Hpre & Hrest).
  exists (List.rev pre), (List.rev rest).
  split; [apply List.rev_app_distr|]. split; [rewrite forallb_rev; exact Hpre|].
  destruct (blank body).
  { destruct Hrest as (res & ->). exists res. reflexivity. }
  destruct (length (trim body) <? 20)%nat.
  { destruct Hrest as (res & ->). exists res. reflexivity. }
  destruct Hrest as (r1 & r2 & res & Hrest). exists r1, r2, res. cbv zeta in *.
  destruct r1 as [u1|]; [destruct r2 as [u2|]|]; rewrite Hrest; reflexivity.
Qed.

(** X9: With a reliable store, after [/rules set] followed by a text of at
    least 20 code units once trimmed, sent by an authorized user, the
    store holds the trimmed text and the time of the command in seconds
    under the two keys of the chat, and [/rules] then shows exactly the
    trimmed text to any member. *)
Theorem rules_set_then_show (ctx ctx' : Context) (body : str) (w : World)
    (s s1 : state w) (store : gmap str str) :
  chat_type ctx = lit "supergroup" ->
  message_text ctx = lit "/rules set " ++ body ->
  20 <= length (trim body) ->
  authorizedFrom ctx w s s1 ->
  chat_type ctx' = lit "supergroup" -> chat_id ctx' = chat_id ctx ->
  message_text ctx' = lit "/rules" ->
  let set := run (withStore w) (rulesCommand ctx) (s, store) in
  let show := run (withStore w) (rulesCommand ctx') (final set) in
  snd (final set)
  = <[rulesCreatedKey (chat_id ctx) := toString (clock w s1 / 1000)]>
      (<[simpleRulesKey (chat_id ctx) := trim body]> store) /\
  exists res,
    trace show = [Ev (RedisGet (simpleRulesKey (chat_id ctx))) (Fulfilled (Some (trim body)));
                  Ev (Reply (CURRENT_RULES (trim body))) res].
Proof.
  intros Hchat Htext Hlen Hauth Hchat' Hid Htext' set show. subst set show.
  pose proof (rules_set_store ctx body w s s1 store Hchat Htext Hlen Hauth) as Hr.
  assert (Hfinal : exists s2,
             final (run (withStore w) (rulesCommand ctx) (s, store))
             = (s2, <[rulesCreatedKey (chat_id ctx) := toString (clock w s1 / 1000)]>
                      (<[simpleRulesKey (chat_id ctx) := trim body]> store))).
  { unfold run.
    destruct (exec (withStore w) (rulesCommand ctx) (s, store) [])
      as [[o [s2 store2]] acc].
    cbn [final snd] in *. destruct Hr as (-> & _). exists s2. reflexivity. }
  destruct Hfinal as (s2 & ->). cbn [snd]. split; [reflexivity|].
  set (store2 := <[rulesCreatedKey (chat_id ctx) := toString (clock w s1 / 1000)]>
                   (<[simpleRulesKey (chat_id ctx) := trim body]> store)).
  pose proof (rules_show ctx' [] (withStore w) (s2, store2) Hchat'
                (eq_trans Htext' (eq_sym (app_nil_r _))) eq_refl) as Ht.
  cbv zeta in Ht. unfold run.
  destruct (exec (withStore w) (rulesCommand ctx') (s2, store2) []) as [[o s'] acc].
  destruct Ht as (res & ->). exists res. cbn [trace List.rev app].
  rewrite Hid. cbn [answer withStore fst snd]. subst store2.
  rewrite lookup_insert_ne by (intros E; exact (keys_distinct _ _ (eq_sym E))).
  rewrite lookup_insert_eq.
  destruct (trim body) eqn:Et; [cbn in Hlen; lia | reflexivity].
Qed.

(** X10: With a reliable store, after [/rules reset] sent by an authorized
    user the two keys of the chat are gone from the store, every other
    key is as it was, and [/rules] then answers that no rules are
    set. *)
Theorem rules_reset_then_show (ctx ctx' : Context) (rest : str) (w : World)
    (s s1 : state w) (store : gmap str str) :
  chat_type ctx = lit "supergroup" ->
  message_text ctx = lit "/rules reset" ++ rest ->
  rest = [] \/ (exists r, rest = 32%N :: r) ->
  authorizedFrom ctx w s s1 ->
  chat_type ctx' = lit "supergroup" -> chat_id ctx' = chat_id ctx ->
  message_text ctx' = lit "/rules" ->
  let reset := run (withStore w) (rulesCommand ctx) (s, store) in
  let show := run (withStore w) (rulesCommand ctx') (final reset) in
  snd (final reset)
  = delete (rulesCreatedKey (chat_id ctx)) (delete (simpleRulesKey (chat_id ctx)) store) /\
  exists res,
    trace show = [Ev (RedisGet (simpleRulesKey (chat_id ctx))) (Fulfilled None);
                  Ev (Reply NO_RULES_SET) res].
Proof.
  intros Hchat Htext Hrest Hauth Hchat' Hid Htext' reset show. subst reset show.
  pose proof (rules_reset_store ctx rest w s s1 store Hchat Htext Hrest Hauth) as Hr.
  assert (Hfinal : exists s2,
             final (run (withStore w) (rulesCommand ctx) (s, store))
             = (s2, delete (rulesCreatedKey (chat_id ctx))
                      (delete (simpleRulesKey (chat_id ctx)) store))).
  { unfold run.
    destruct (exec (withStore w) (rulesCommand ctx) (s, store) [])
      as [[o [s2 store2]] acc].
    cbn [final snd] in *. destruct Hr as (-> & _). exists s2. reflexivity. }
  destruct Hfinal as (s2 & ->). cbn [snd]. split; [reflexivity|].
  set (store2 := delete (rulesCreatedKey (chat_id ctx))
                   (delete (simpleRulesKey (chat_id ctx)) store)).
  pose proof (rules_show ctx' [] (withStore w) (s2, store2) Hchat'
                (eq_trans Htext' (eq_sym (app_nil_r _))) eq_refl) as Ht.
  cbv zeta in Ht. unfold run.
  destruct (exec (withStore w) (rulesCommand ctx') (s2, store2) []) as [[o s'] acc].
  destruct Ht as (res & ->). exists res. cbn [trace List.rev app].
  rewrite Hid. cbn [answer withStore fst snd]. subst store2.
  rewrite lookup_delete_ne by (intros E; exact (keys_distinct _ _ (eq_sym E))).
  rewrite lookup_delete_eq. reflexivity.
Qed.

(** X11: The subcommand of [/rules] is matched whatever its case: a command
    whose subcommand is an ASCII word runs exactly as the command with
    that word in lower case, so that [/rules SET ...] and
    [/rules Reset] are [/rules set ...] and [/rules reset]. *)
Theorem subcommand_case_is_ignored (ctx ctx' : Context) (sub rest : str)
    (w : World) (s : state w) :
  chat_type ctx' = chat_type ctx -> chat_id ctx' = chat_id ctx ->
  from ctx' = from ctx ->
  message_text ctx = lit "/rules " ++ sub ++ rest ->
  message_text ctx' = lit "/rules " ++ List.map asciiLower sub ++ rest ->
  sub <> [] -> forallb isAscii sub = true ->
  forallb (fun c => negb (isWhiteSpace c)) sub = true ->
  rest = [] \/ (exists r, rest = 32%N :: r) ->
  run w (rulesCommand ctx) s = run w (rulesCommand ctx') s.
Proof.
  intros Hchat Hid Hfrom Htext Htext' Hne Hascii Hword Hrest.
  rewrite (rules_subcommand_case ctx ctx' sub rest Hchat Hid Hfrom Htext Htext' Hne
             Hascii Hword Hrest).
  reflexivity.
Qed.

(** X12: [/rules] does not understand a command addressed to the bot by
    name, as clients write it in groups: in [/rules@name ...] the name
    is taken for the subcommand, so that the reply, after the
    authorization lookup if any, is the notice of an invalid
    subcommand; nothing is read from or written to the store, whoever
    the sender and whatever follows the name. *)
Theorem rules_with_bot_name_is_invalid (ctx : Context) (name rest : str)
    (w : World) (s : state w) :
  chat_type ctx = lit "supergroup" ->
  message_text ctx = lit "/rules@" ++ name ++ rest ->
  forallb isAscii name = true ->
  forallb (fun c => negb (isWhiteSpace c)) name = true ->
  rest = [] \/ (exists r, rest = 32%N :: r) ->
  exists pre res,
    trace (run w (rulesCommand ctx) s) = pre ++ [Ev (Reply RULES_INVALID) res] /\
    forallb is_lookup pre = true.
Proof.
  intros Hchat Htext Hascii Hname Hrest. unfold run.
  pose proof (rules_bot_name ctx name rest w s Hchat Htext Hascii Hname Hrest) as Hr.
  destruct (exec w (rulesCommand ctx) s []) as [[o s'] acc]. cbn [trace].
  destruct Hr as (res & pre & -> & Hpre).
  exists (List.rev pre), res. split; [reflexivity|].
  rewrite forallb_rev. exact Hpre.
Qed.

End RulesProperties.

(** * [/unmute], further *)

Section UnmuteMore.

Lemma startsWith_two (a b c : N) (ds rest : str) :
  ds <> [] -> startsWith [a; b] (ds ++ c :: rest) = startsWith [a; b] (ds ++ [c]).
Proof.
  intros Hne. destruct ds as [|d [|d2 ds]]; [congruence | reflexivity | reflexivity].
Qed.

Lemma startsWith_digits (a b : N) (ds : str) :
  forallb isDecimalDigit ds = true -> isDecimalDigit b = false ->
  startsWith [a; b] ds = false.
Proof.
  intros Hds Hb. destruct ds as [|d [|d2 ds]]; cbn in *.
  - reflexivity.
  - apply andb_false_r.
  - apply andb_true_iff in Hds as [_ Hds]. apply andb_true_iff in Hds as [Hd2 _].
    destruct (N.eqb_spec b d2) as [->|_]; [congruence|].
    cbn. apply andb_false_r.
Qed.

(** The argument that [/unmute] reads from a command text whose
    argument opens with decimal digits, and the number it denotes. *)
Lemma unmute_number (ds rest : str) :
  ds <> [] -> forallb isDecimalDigit ds = true -> digitsEnd rest ->
  hexPrefix (ds ++ rest) = false ->
  exists userIdStr,
    option_map trim
      (List.head (split 32 (trim (replace (lit "/unmute") []
                                    (lit "/unmute " ++ ds ++ rest)))))
    = Some userIdStr /\
    truthy userIdStr = true /\
    parseInt userIdStr 0 = Int (Z.of_N (decimalValue ds)).
Proof.
  intros Hne Hds Hend Hhex. apply orb_false_iff in Hhex as [Hx1 Hx2].
  destruct rest as [|c rest].
  - rewrite app_nil_r in *.
    change (replace (lit "/unmute") [] (lit "/unmute " ++ ds)) with (32%N :: ds).
    pose proof (trim_digits ds [] Hne Hds) as Hd. rewrite app_nil_r in Hd.
    change (trimEnd []) with (@nil N) in Hd. rewrite app_nil_r in Hd.
    assert (Ht : trim (32%N :: ds) = ds) by exact Hd.
    rewrite Ht. pose proof (split_digits ds [] Hds) as Hs.
    rewrite app_nil_r in Hs. cbn [split List.hd] in Hs. rewrite app_nil_r in Hs.
    rewrite Hs. cbn [option_map]. rewrite Hd.
    exists ds. split; [reflexivity|].
    split; [destruct ds; [congruence | reflexivity]|].
    rewrite <- (app_nil_r ds) at 1. apply parseInt_decimal; auto.
    intros _. rewrite app_nil_r. split; assumption.
  - cbn in Hend.
    pose proof (startsWith_two 48 120 c ds rest Hne) as E1.
    pose proof (startsWith_two 48 88 c ds rest Hne) as E2.
    apply unmute_argument; auto.
    + etransitivity; [symmetry; exact E1 | exact Hx1].
    + etransitivity; [symmetry; exact E2 | exact Hx2].
Qed.

(** A text that starts with something that is neither white space, a
    sign nor a decimal digit is not a number, with or without radix. *)
Lemma parseInt_0_NaN (c : N) (s : str) :
  isWhiteSpace c = false -> c <> 45%N -> c <> 43%N -> isDecimalDigit c = false ->
  parseInt (c :: s) 0 = NaN.
Proof.
  intros Hws H45 H43 Hd. unfold parseInt. cbn [trimStart]. rewrite Hws.
  apply N.eqb_neq in H45, H43. rewrite H45, H43.
  assert (H0 : (48 =? c)%N = false).
  { apply N.eqb_neq. intros <-. discriminate Hd. }
  assert (Hx : forall b, startsWith [48%N; b] (c :: s) = false).
  { intros b. cbn [startsWith]. rewrite H0. reflexivity. }
  change (lit "0x") with [48; 120]%N. change (lit "0X") with [48; 88]%N.
  rewrite !Hx. cbn -[digitsPrefix mathInt Z.of_N].
  cbn [digitsPrefix]. rewrite radixDigit_decimal, Hd. reflexivity.
Qed.

(** The argument that [/unmute] reads when there is none, or when it
    does not open like a number. *)
Lemma unmute_no_number (arg : str) :
  blank arg = true \/
  (exists ws c rest,
      arg = ws ++ c :: rest /\ blank ws = true /\
      isWhiteSpace c = false /\ c <> 45%N /\ c <> 43%N /\ isDecimalDigit c = false) ->
  match option_map trim
          (List.head (split 32 (trim (replace (lit "/unmute") [] (lit "/unmute" ++ arg)))))
  with
  | Some userIdStr => truthy userIdStr = false \/ parseInt userIdStr 0 = NaN
  | None => True
  end.
Proof.
  change (replace (lit "/unmute") [] (lit "/unmute" ++ arg)) with arg.
  intros [Hb | (ws & c & rest & -> & Hb & Hws & H45 & H43 & Hd)].
  - apply trim_blank in Hb. rewrite Hb. left. reflexivity.
  - unfold trim at 2. rewrite trimStart_app_blank, Hb.
    cbn [trimStart]. rewrite Hws, trimEnd_cons by exact Hws.
    cbn [split]. assert (H32 : (c =? 32)%N = false).
    { apply N.eqb_neq. intros ->. discriminate Hws. }
    rewrite H32.
    destruct (split 32 (trimEnd rest)) as [|p ps]; cbn [List.head option_map];
      unfold trim; cbn [trimStart]; rewrite Hws, trimEnd_cons by exact Hws;
      right; apply parseInt_0_NaN; assumption.
Qed.

Lemma unmute_usage (ctx : Context) (arg : str) (w : World) (s : state w) :
  chat_type ctx = lit "supergroup" ->
  message_text ctx = lit "/unmute" ++ arg ->
  blank arg = true \/
  (exists ws c rest,
      arg = ws ++ c :: rest /\ blank ws = true /\
      isWhiteSpace c = false /\ c <> 45%N /\ c <> 43%N /\ isDecimalDigit c = false) ->
  let '(_, _, acc) := exec w (unmuteCommand ctx) s [] in
  exists res, acc = [Ev (Reply UNMUTE_USAGE) res].
Proof.
  intros Hchat Htext Harg. pose proof (unmute_no_number arg Harg) as Hn.
  unfold unmuteCommand. rewrite Hchat, strictEq_refl, Htext. cbn [negb].
  destruct (option_map trim _) as [userIdStr|].
  - destruct Hn as [Hn | Hn].
    + rewrite Hn. exec_all; eexists; reflexivity.
    + rewrite Hn. exec_all; eexists; reflexivity.
  - exec_all; eexists; reflexivity.
Qed.

Lemma unmute_unauthorized (ctx : Context) (w : World) (s : state w) :
  includes SPECIAL_ANONYMOUS_IDS (from ctx) = false ->
  (forall member s1,
      answer w (GetChatMember (chat_id ctx) (from ctx)) s = (Fulfilled member, s1) ->
      isAdminStatus member = false) ->
  let '(_, _, acc) := exec w (unmuteCommand ctx) s [] in
  forallb (fun e => negb (is_restrict e)) acc = true.
Proof.
  intros Hin Hlook. unfold unmuteCommand, isAuthorizedUser. rewrite Hin.
  destruct (answer w (GetChatMember (chat_id ctx) (from ctx)) s) as [[member|] s1] eqn:Ha.
  - pose proof (Hlook member s1 eq_refl) as Hm.
    repeat (exec_reduce; rewrite ?Hm; cbn [negb]; exec_step); exec_reduce; cbv beta iota.
    all: reflexivity.
  - exec_all; reflexivity.
Qed.

Lemma unmute_run (ctx : Context) (ds rest : str) (w : World) (s s1 : state w) :
  chat_type ctx = lit "supergroup" ->
  message_text ctx = lit "/unmute " ++ ds ++ rest ->
  ds <> [] -> forallb isDecimalDigit ds = true -> digitsEnd rest ->
  hexPrefix (ds ++ rest) = false ->
  authorizedFrom ctx w s s1 ->
  let userId := Z.of_N (decimalValue ds) in
  let '(_, _, acc) := exec w (unmuteCommand ctx) s [] in
  exists pre after done,
    acc = after ++ Ev (RestrictChatMember (chat_id ctx) userId UntilFalse
                         UNMUTE_PERMISSIONS) done :: pre /\
    forallb is_lookup pre = true /\
    match done with
    | Rejected => exists res, after = [Ev (Reply (UNMUTE_FAILED userId)) res]
    | Fulfilled _ =>
        exists lookup res,
          let notice := Reply (UNMUTE_DONE (unmutedDisplay userId lookup)) in
          match res with
          | Fulfilled _ =>
              after = [Ev notice res; Ev (GetChatMember (chat_id ctx) userId) lookup]
          | Rejected =>
              exists res',
                after = [Ev (Reply (UNMUTE_FAILED userId)) res'; Ev notice res;
                         Ev (GetChatMember (chat_id ctx) userId) lookup]
          end
    end.
Proof.
  intros Hchat Htext Hne Hds Hend Hhex Hauth userId. subst userId.
  destruct (unmute_number ds rest Hne Hds Hend Hhex) as (u & Hu & Htr & Hp).
  unfold unmuteCommand, isAuthorizedUser.
  rewrite Hchat, strictEq_refl, Htext, Hu. cbn [negb]. rewrite Htr, Hp. cbn [negb].
  destruct Hauth as [[Hin ->] | (Hin & member & Hlook & Hst)]; rewrite Hin.
  - exec_all.
    all: exists (@nil event).
    all: first [ eexists [_]; eexists; split; [reflexivity|]
               | eexists [_; _]; eexists; split; [reflexivity|]
               | eexists [_; _; _]; eexists; split; [reflexivity|] ].
    all: split; [reflexivity|].
    all: first [ eexists; reflexivity
               | lazymatch goal with
                 | |- context [Ev (GetChatMember _ _) ?lk
                               :: @nil event] => exists lk
                 end;
                 lazymatch goal with
                 | |- context [Ev (Reply (UNMUTE_DONE _)) ?r] => exists r
                 end;
                 cbv zeta; first [reflexivity | eexists; reflexivity] ].
  - apply isAdminStatus_iff in Hst.
    repeat (exec_reduce; rewrite ?Hst; cbn [negb]; exec_step); exec_reduce; cbv beta iota.
    all: eexists [_].
    all: first [ eexists [_]; eexists; split; [reflexivity|]
               | eexists [_; _]; eexists; split; [reflexivity|]
               | eexists [_; _; _]; eexists; split; [reflexivity|] ].
    all: split; [reflexivity|].
    all: first [ eexists; reflexivity
               | lazymatch goal with
                 | |- context [Ev (GetChatMember _ _) ?lk
                               :: @nil event] => exists lk
                 end;
                 lazymatch goal with
                 | |- context [Ev (Reply (UNMUTE_DONE _)) ?r] => exists r
                 end;
                 cbv zeta; first [reflexivity | eexists; reflexivity] ].
Qed.

End UnmuteMore.

(** * [/unmute], further: the properties *)

Section UnmuteProperties.

(** X13: [/unmute] checks its argument before it checks the sender.  Without
    an argument, or when what follows [/unmute] opens, after white space
    if any, with something that is neither a decimal digit nor a sign
    (a name, or the [@botname] that clients append to a command in a
    group), the only call is the reply with the usage notice: no
    membership lookup is made. *)
Theorem unmute_without_number_shows_usage (ctx : Context) (arg : str)
    (w : World) (s : state w) :
  chat_type ctx = lit "supergroup" ->
  message_text ctx = lit "/unmute" ++ arg ->
  blank arg = true \/
  (exists ws c rest,
      arg = ws ++ c :: rest /\ blank ws = true /\
      isWhiteSpace c = false /\ c <> 45%N /\ c <> 43%N /\ isDecimalDigit c = false) ->
  exists res, trace (run w (unmuteCommand ctx) s) = [Ev (Reply UNMUTE_USAGE) res].
Proof.
  intros Hchat Htext Harg. unfold run.
  pose proof (unmute_usage ctx arg w s Hchat Htext Harg) as Hr.
  destruct (exec w (unmuteCommand ctx) s []) as [[o s'] acc]. cbn [trace].
  destruct Hr as (res & ->). exists res. reflexivity.
Qed.

(** X14: A sender who is not on the allow-list and whose membership lookup
    fails or gives a status other than [administrator] and [creator]
    cannot lift a restriction: whatever the command text, [/unmute]
    never calls restrict-member. *)
Theorem unauthorized_cannot_unmute (ctx : Context) (w : World) (s : state w) :
  includes SPECIAL_ANONYMOUS_IDS (from ctx) = false ->
  (forall member s1,
      answer w (GetChatMember (chat_id ctx) (from ctx)) s = (Fulfilled member, s1) ->
      status member <> lit "administrator" /\ status member <> lit "creator") ->
  existsb is_restrict (trace (run w (unmuteCommand ctx) s)) = false.
Proof.
  intros Hin Hlook. unfold run.
  assert (Hlook' : forall member s1,
             answer w (GetChatMember (chat_id ctx) (from ctx)) s = (Fulfilled member, s1) ->
             isAdminStatus member = false).
  { intros member s1 Ha. destruct (isAdminStatus member) eqn:E; [|reflexivity].
    apply isAdminStatus_iff in E. destruct (Hlook member s1 Ha). tauto. }
  pose proof (unmute_unauthorized ctx w s Hin Hlook') as Hr.
  destruct (exec w (unmuteCommand ctx) s []) as [[o s'] acc]. cbn [trace].
  rewrite existsb_rev. apply forallb_negb_existsb, Hr.
Qed.

(** X15: What [/unmute] followed by a decimal number does for an authorized
    sender, after the authorization lookup if any: it lifts the
    restrictions of the user with that number.  When that call is
    rejected the only reply is the failure notice, and the user is not
    looked up.  When it is fulfilled the user is looked up and the
    confirmation names the user by username, else by first name, else
    by number, the last also when the lookup is rejected; should
    sending the confirmation be rejected, the failure notice is sent
    although the restrictions were lifted.  The number is within the
    range in which a JavaScript number is exact. *)
Theorem unmute_notices (ctx : Context) (ds rest : str) (w : World) (s s1 : state w) :
  chat_type ctx = lit "supergroup" ->
  message_text ctx = lit "/unmute " ++ ds ++ rest ->
  ds <> [] -> forallb isDecimalDigit ds = true -> digitsEnd rest ->
  hexPrefix (ds ++ rest) = false ->
  (decimalValue ds <= 2 ^ 53)%N ->
  authorizedFrom ctx w s s1 ->
  let userId := Z.of_N (decimalValue ds) in
  exists pre after done,
    trace (run w (unmuteCommand ctx) s)
    = pre ++ Ev (RestrictChatMember (chat_id ctx) userId UntilFalse
                   UNMUTE_PERMISSIONS) done :: after /\
    forallb is_lookup pre = true /\
    match done with
    | Rejected => exists res, after = [Ev (Reply (UNMUTE_FAILED userId)) res]
    | Fulfilled _ =>
        exists lookup res,
          let notice := Reply (UNMUTE_DONE (unmutedDisplay userId lookup)) in
          match res with
          | Fulfilled _ =>
              after = [Ev (GetChatMember (chat_id ctx) userId) lookup; Ev notice res]
          | Rejected =>
              exists res',
                after = [Ev (GetChatMember (chat_id ctx) userId) lookup; Ev notice res;
                         Ev (Reply (UNMUTE_FAILED userId)) res']
          end
    end.
Proof.
  intros Hchat Htext Hne Hds Hend Hhex _ Hauth userId. unfold run.
  pose proof (unmute_run ctx ds rest w s s1 Hchat Htext Hne Hds Hend Hhex Hauth) as Hr.
  cbv zeta in Hr. fold userId in Hr.
  destruct (exec w (unmuteCommand ctx) s []) as [[o s'] acc]. cbn [trace].
  destruct Hr as (pre & after & done & -> & Hpre & Hafter).
  exists (List.rev pre), (List.rev after), done.
  split.
  { rewrite List.rev_app_distr. cbn [List.rev]. rewrite <- app_assoc. reflexivity. }
  split; [rewrite forallb_rev; exact Hpre|].
  destruct done as [u|].
  - destruct Hafter as (lookup & res & Hafter). exists lookup, res. cbv zeta in *.
    destruct res as [x|]; [rewrite Hafter; reflexivity|].
    destruct Hafter as (res' & ->). exists res'. reflexivity.
  - destruct Hafter as (res & ->). exists res. reflexivity.
Qed.

End UnmuteProperties.

(** * The report workflow, further: the runs *)

Section ReportRuns.

Context `{Host}.

Ltac unfold_report :=
  unfold reportCommand, analyse, getSimpleRules, getRulesCreatedDate,
    buildUserMsg, callHuggingFace, enforce.

Lemma report_actions (ctx : Context) (w : World) (s : state w) :
  let '(_, _, acc) := exec w (reportCommand ctx) s [] in
  ForallEarlier
    (fun earlier e =>
       is_delete e || is_restrict e = true ->
       existsb is_violation_verdict earlier = true) acc.
Proof.
  unfold_report.
  exec_all; each_event; intros He; try discriminate He.
  all: cbn [existsb is_violation_verdict inferencePost orb].
  all: match goal with
       | E : violates _ = true |- _ => rewrite E
       end.
  all: rewrite ?orb_true_r; reflexivity.
Qed.

Lemma report_restricts (ctx : Context) (replied : Message) (w : World) (s : state w) :
  reply_to_message ctx = Some replied ->
  let '(_, _, acc) := exec w (reportCommand ctx) s [] in
  ForallEarlier
    (fun earlier e =>
       is_restrict e = true ->
       exists res earlier',
         e = Ev (RestrictChatMember (chat_id ctx) (from_id replied) (UntilNum 0)
                   MUTE_PERMISSIONS) res /\
         earlier = Ev (DeleteMessage (chat_id ctx) (message_id replied)) (Fulfilled tt)
                   :: earlier') acc.
Proof.
  intros Hrep. unfold_report. rewrite Hrep.
  exec_all; each_event; intros He; try discriminate He.
  all: repeat match goal with u : unit |- _ => destruct u end.
  all: do 2 eexists; split; reflexivity.
Qed.

Lemma is_unset_read_rules (a : Z) (r : result (option str)) :
  is_unset_read (simpleRulesKey a) (Ev (RedisGet (simpleRulesKey a)) r)
  = match r with Fulfilled (Some t) => negb (truthy t) | _ => true end.
Proof. unfold is_unset_read. rewrite bool_decide_eq_true_2; reflexivity. Qed.

Lemma is_unset_read_created (a b : Z) (r : result (option str)) :
  is_unset_read (simpleRulesKey a) (Ev (RedisGet (rulesCreatedKey b)) r) = false.
Proof. unfold is_unset_read. destruct r as [[t|]|]; reflexivity. Qed.

Lemma report_unset (ctx : Context) (w : World) (s : state w) :
  let '(o, _, acc) := exec w (reportCommand ctx) s [] in
  existsb (is_unset_read (simpleRulesKey (chat_id ctx))) acc = true ->
  exists loading rules res pre post,
    acc = post ++ Ev (EditMessageText (chat_id ctx) loading NO_RULES_REPORT) res
               :: Ev (RedisGet (simpleRulesKey (chat_id ctx))) rules :: pre /\
    forallb (fun e => negb (is_action e)) acc = true /\
    (res = Fulfilled tt -> post = [] /\ o = Returned tt).
Proof.
  unfold_report.
  exec_all; intros Hf;
    cbn [existsb] in Hf;
    rewrite ?is_unset_read_rules, ?is_unset_read_created in Hf;
    cbn [is_unset_read orb] in Hf; try discriminate Hf.
  all: try match goal with
           | E : truthyOpt None = true |- _ => discriminate E
           | E : truthyOpt (if truthyOpt ?x then ?x else None) = true |- _ =>
               destruct x as [[|? ?]|]; discriminate
           end.
  all: first
         [ do 4 eexists; exists (@nil event); split; [reflexivity|]
         | do 4 eexists; eexists (_ :: nil); split; [reflexivity|] ].
  all: split; [reflexivity|].
  all: intros Hres; first [discriminate Hres | split; reflexivity].
Qed.


Lemma report_failed_download (ctx : Context) (w : World) (s : state w) :
  let '(o, _, acc) := exec w (reportCommand ctx) s [] in
  existsb is_failed_download acc = true ->
  exists loading res e pre,
    acc = Ev (EditMessageText (chat_id ctx) loading ANALYSIS_FAILED) res :: e :: pre /\
    is_failed_download e = true /\
    forallb (fun e => negb (is_action e)) acc = true /\
    o = match res with Fulfilled _ => Returned tt | Rejected => Thrown end.
Proof.
  unfold_report.
  exec_all; intros Hf; cbn [existsb is_failed_download orb] in Hf;
    try discriminate Hf.
  all: do 4 eexists; split; [reflexivity|]; repeat split.
Qed.

Lemma is_read_not_later_rules (a b : Z) (d : N) (r : result (option str)) :
  is_read_not_later (rulesCreatedKey a) d (Ev (RedisGet (simpleRulesKey b)) r) = false.
Proof. unfold is_read_not_later. destruct r as [[t|]|]; reflexivity. Qed.

Lemma is_read_not_later_created (a : Z) (d : N) (r : result (option str)) :
  is_read_not_later (rulesCreatedKey a) d (Ev (RedisGet (rulesCreatedKey a)) r)
  = match r with Fulfilled (Some t) => negb (laterThan d t) | _ => true end.
Proof. unfold is_read_not_later. rewrite bool_decide_eq_true_2; reflexivity. Qed.

Lemma predates_laterThan (d : N) (x : option str) :
  predatesRules d match x with
                  | Some t => if truthy t then Some (parseInt t 10) else None
                  | None => None
                  end = true ->
  match x with Some t => laterThan d t = true | None => False end.
Proof.
  destruct x as [[|c t]|]; cbn [truthy]; try discriminate.
  unfold predatesRules, laterThan, lt.
  destruct (parseInt (c :: t) 10) as [|created]; [discriminate|].
  intros E. apply andb_true_iff in E as [_ E]. exact E.
Qed.

Lemma report_not_later (ctx : Context) (replied : Message) (w : World) (s : state w) :
  reply_to_message ctx = Some replied -> photo replied = None ->
  let '(_, _, acc) := exec w (reportCommand ctx) s [] in
  existsb (is_read_not_later (rulesCreatedKey (chat_id ctx)) (date replied)) acc = true ->
  exists rules created res pre post,
    acc = post ++ Ev (inferencePost (textRequest rules replied)) res
               :: Ev (RedisGet (rulesCreatedKey (chat_id ctx))) created
               :: Ev (RedisGet (simpleRulesKey (chat_id ctx))) (Fulfilled (Some rules))
               :: pre /\
    rules <> [].
Proof.
  intros Hrep Hphoto. unfold_report. rewrite Hrep, Hphoto.
  exec_all; intros Hf; cbn [existsb] in Hf;
    rewrite ?is_read_not_later_rules, ?is_read_not_later_created in Hf;
    cbn [is_read_not_later orb] in Hf; try discriminate Hf.
  all: try match goal with
           | E : predatesRules _ _ = true |- _ =>
               apply predates_laterThan in E;
               match type of E with
               | match ?x with _ => _ end => destruct x; [|contradiction]
               end;
               rewrite E in Hf; discriminate Hf
           end.
  all: try match goal with
           | E : truthyOpt None = true |- _ => discriminate E
           end.
  all: match goal with
       | E : truthyOpt (if truthyOpt ?x then ?x else None) = true |- _ =>
           destruct x as [[|? ?]|]; try discriminate E
       end.
  all: try discriminate.
  all: cbn [truthyOpt truthy default from_option id]; unfold textRequest.
  all: first
         [ do 4 eexists; exists (@nil event); split; [reflexivity|]
         | do 4 eexists; eexists (_ :: nil); split; [reflexivity|]
         | do 4 eexists; eexists (_ :: _ :: nil); split; [reflexivity|]
         | do 4 eexists; eexists (_ :: _ :: _ :: nil); split; [reflexivity|]
         | do 4 eexists; eexists (_ :: _ :: _ :: _ :: nil); split; [reflexivity|]
         | do 4 eexists; eexists (_ :: _ :: _ :: _ :: _ :: nil); split; [reflexivity|] ].
  all: discriminate.
Qed.


Lemma report_photo (ctx : Context) (replied : Message) (sizes : list PhotoSize)
    (w : World) (s : state w) :
  reply_to_message ctx = Some replied -> photo replied = Some sizes ->
  let '(_, _, acc) := exec w (reportCommand ctx) s [] in
  ForallEarlier
    (fun earlier e =>
       is_inference e = true ->
       exists largest path data rules created res earlier',
         last sizes = Some largest /\
         earlier
         = Ev (AxiosGet (lit "https://api.telegram.org/file/bot" ++ BOT_TOKEN
                         ++ lit "/" ++ path)) (Fulfilled data)
           :: Ev (GetFile (file_id largest)) (Fulfilled path)
           :: Ev (RedisGet (rulesCreatedKey (chat_id ctx))) created
           :: Ev (RedisGet (simpleRulesKey (chat_id ctx))) (Fulfilled (Some rules))
           :: earlier' /\
         e = Ev (inferencePost
                   [{| role := lit "system"; content := Plain (buildFullPrompt rules) |};
                    photoMessage replied data]) res) acc.
Proof.
  intros Hrep Hphoto. unfold_report. rewrite Hrep, Hphoto.
  exec_all; each_event; intros He; try discriminate He.
  all: try match goal with
           | E : truthyOpt None = true |- _ => discriminate E
           end.
  all: match goal with
       | E : truthyOpt (if truthyOpt ?x then ?x else None) = true |- _ =>
           destruct x as [[|? ?]|]; try discriminate E
       end.
  all: cbn [truthyOpt truthy default from_option id]; unfold photoMessage.
  all: do 7 eexists; split; [reflexivity|]; split; reflexivity.
Qed.

Lemma report_footprint (ctx : Context) (w : World) (s : state w) :
  let '(_, _, acc) := exec w (reportCommand ctx) s [] in
  forallb (fun e => negb (is_store_write e)) acc = true /\
  (length (List.filter is_inference acc) <=? 1)%nat = true /\
  (length (List.filter is_delete acc) <=? 1)%nat = true /\
  (length (List.filter is_restrict acc) <=? 1)%nat = true /\
  implb (existsb is_store_access acc) (existsb is_edit acc) = true.
Proof.
  unfold_report. exec_all; repeat split.
Qed.

Lemma report_failed_enforcement (ctx : Context) (replied : Message) (w : World)
    (s : state w) :
  reply_to_message ctx = Some replied ->
  let '(o, _, acc) := exec w (reportCommand ctx) s [] in
  existsb is_failed_enforcement acc = true ->
  exists messages content res e pre,
    acc = Ev (Reply (ACTION_FAILED replied (reason (parseResponse content)))) res
          :: e :: pre /\
    is_failed_enforcement e = true /\
    In (Ev (inferencePost messages) (Fulfilled (Answered content))) pre /\
    (is_delete e = true -> existsb is_restrict acc = false) /\
    o = match res with Fulfilled _ => Returned tt | Rejected => Thrown end.
Proof.
  intros Hrep. unfold_report. rewrite Hrep.
  exec_all; intros Hf; cbn [existsb is_failed_enforcement is_delete is_restrict orb andb] in Hf;
    try discriminate Hf.
  all: do 5 eexists; split; [reflexivity|]; split; [reflexivity|].
  all: split; [cbn [In]; repeat first [left; reflexivity | right]|].
  all: split; [|reflexivity].
  all: intros Hd; first [discriminate Hd | reflexivity].
Qed.



Lemma report_no_reply (ctx : Context) (w : World) (s : state w) :
  chat_type ctx = lit "supergroup" -> reply_to_message ctx = None ->
  let '(_, _, acc) := exec w (reportCommand ctx) s [] in
  exists res, acc = [Ev (Reply REPLY_TO_REPORT) res].
Proof.
  intros Hchat Hrep. unfold reportCommand. rewrite Hchat, strictEq_refl, Hrep.
  cbn [negb]. exec_all; eexists; reflexivity.
Qed.

Lemma report_nothing (ctx : Context) (replied : Message) (w : World) (s : state w) :
  chat_type ctx = lit "supergroup" -> reply_to_message ctx = Some replied ->
  messageTextOf replied = [] -> photo replied = None ->
  let '(_, _, acc) := exec w (reportCommand ctx) s [] in
  exists res, acc = [Ev (Reply NOTHING_TO_ANALYZE) res].
Proof.
  intros Hchat Hrep Ht Hp. unfold reportCommand.
  rewrite Hchat, strictEq_refl, Hrep, Ht, Hp. cbn [negb truthy andb].
  rewrite bool_decide_eq_false_2 by (intros [x Hx]; discriminate Hx).
  cbn [negb]. exec_all; eexists; reflexivity.
Qed.

Lemma predatesRules_Int (messageDate : N) (seconds : Z) :
  predatesRules messageDate (Some (Int seconds)) = (Z.of_N messageDate <? seconds)%Z.
Proof.
  unfold predatesRules, truthyNum, lt.
  destruct (Z.eqb_spec seconds 0) as [->|Hne]; cbn [negb andb]; [|reflexivity].
  symmetry. apply Z.ltb_ge. lia.
Qed.

Lemma truthy_toString (z : Z) : truthy (toString z) = true.
Proof.
  pose proof (toString_nonempty z) as Hne.
  destruct (toString z); [congruence | reflexivity].
Qed.

Lemma report_enforces (ctx : Context) (replied : Message) (w : World) (s : state w) :
  reply_to_message ctx = Some replied ->
  let '(o, _, acc) := exec w (reportCommand ctx) s [] in
  existsb is_violation_verdict acc = true ->
  exists messages content loading res pre after,
    acc = List.rev after
          ++ Ev (EditMessageText (chat_id ctx) loading
                   (VIOLATION (reason (parseResponse content)))) res
          :: Ev (inferencePost messages) (Fulfilled (Answered content)) :: pre /\
    (res = Rejected -> after = [] /\ o = Thrown) /\
    (res = Fulfilled tt ->
     exists deleted after1,
       after = Ev (DeleteMessage (chat_id ctx) (message_id replied)) deleted :: after1 /\
       (deleted = Fulfilled tt ->
        exists restricted after2,
          after1 = Ev (RestrictChatMember (chat_id ctx) (from_id replied) (UntilNum 0)
                         MUTE_PERMISSIONS) restricted :: after2 /\
          (restricted = Fulfilled tt ->
           exists notified after3,
             after2 = Ev (Reply (MUTED replied (reason (parseResponse content))))
                        notified :: after3 /\
             (after3 = [] -> o = match notified with
                                 | Fulfilled _ => Returned tt
                                 | Rejected => Thrown
                                 end) /\
             (notified <> Rejected -> after3 = [])))).
Proof.
  intros Hrep. unfold_report. rewrite Hrep.
  exec_all;
    try lazymatch goal with
        | |- context [if violates ?r then _ else _] => destruct (violates r) eqn:?
        end;
    intros Hf; cbn [existsb is_violation_verdict inferencePost orb] in Hf;
    try match goal with
        | E : violates _ = false |- _ => rewrite E in Hf
        end;
    try discriminate Hf.
  all: repeat match goal with u : unit |- _ => destruct u end.
  all: do 5 eexists;
    first [ exists (@nil event); split; [reflexivity|]
          | eexists [_]; split; [reflexivity|]
          | eexists [_; _]; split; [reflexivity|]
          | eexists [_; _; _]; split; [reflexivity|]
          | eexists [_; _; _; _]; split; [reflexivity|]
          | eexists [_; _; _; _; _]; split; [reflexivity|] ].
  all: split; [intros Hr; first [discriminate Hr | split; reflexivity]|].
  all: intros Hr; try discriminate Hr.
  all: do 2 eexists; split; [reflexivity|].
  all: intros Hd; try discriminate Hd.
  all: do 2 eexists; split; [reflexivity|].
  all: intros Hm; try discriminate Hm.
  all: do 2 eexists; split; [reflexivity|].
  all: split; [intros Hn; first [discriminate Hn | reflexivity]|].
  all: intros Hn; first [reflexivity | exfalso; apply Hn; reflexivity].
Qed.

Ltac store_known H1 H2 :=
  repeat progress
    (cbn [exec bind try_catch await reply editMessageText dateNow answer withStore clock
          fst snd negb violates reason UNAVAILABLE NO_RESPONSE inferencePost];
     rewrite ?H1, ?H2, ?truthy_toString, ?parseInt_toString, ?predatesRules_Int;
     cbn [truthyOpt truthy negb default from_option id]).

Ltac store_step H1 H2 := store_known H1 H2; exec_step.

Lemma report_with_store (ctx : Context) (replied : Message) (rules : str) (seconds : Z)
    (w : World) (s : state w) (store : gmap str str) :
  reply_to_message ctx = Some replied -> photo replied = None ->
  store !! simpleRulesKey (chat_id ctx) = Some rules -> rules <> [] ->
  store !! rulesCreatedKey (chat_id ctx) = Some (toString seconds) ->
  let '(_, _, acc) := exec (withStore w) (reportCommand ctx) (s, store) [] in
  existsb is_store_access acc = true ->
  if (Z.of_N (date replied) <? seconds)%Z
  then
    forallb (fun e => negb (is_action e)) acc = true /\
    exists loading res,
      In (Ev (EditMessageText (chat_id ctx) loading PREDATES_RULES) res) acc
  else
    exists res, In (Ev (inferencePost (textRequest rules replied)) res) acc.
Proof.
  intros Hrep Hphoto Hrules Hne Hcreated. unfold_report. rewrite Hrep, Hphoto.
  destruct rules as [|c t]; [congruence|].
  repeat store_step Hrules Hcreated.
  all: store_known Hrules Hcreated; cbv beta iota.
  all: intros Hf; try discriminate Hf; clear Hf.
  all: try match goal with
           | E : (_ <? _)%Z = _ |- _ => rewrite E
           end.
  all: unfold textRequest;
    first [ split; [reflexivity|]; do 2 eexists | eexists ];
    cbn [In]; repeat (first [left; reflexivity | right]).
Qed.

End ReportRuns.

(** * The report workflow, further: the properties *)

Section ReportProperties.

Context `{Host}.

(** X16: A report that does not reply to a message, or that replies to a
    message without text, caption and photo, is answered by one reply
    stating so, and nothing else is called. *)
Theorem report_needs_a_message (ctx : Context) (w : World) (s : state w) :
  chat_type ctx = lit "supergroup" ->
  let r := run w (reportCommand ctx) s in
  match reply_to_message ctx with
  | None => exists res, trace r = [Ev (Reply REPLY_TO_REPORT) res]
  | Some replied =>
      messageTextOf replied = [] -> photo replied = None ->
      exists res, trace r = [Ev (Reply NOTHING_TO_ANALYZE) res]
  end.
Proof.
  intros Hchat r. subst r. unfold run.
  destruct (reply_to_message ctx) as [replied|] eqn:Hrep.
  - intros Ht Hp. pose proof (report_nothing ctx replied w s Hchat Hrep Ht Hp) as Hr.
    destruct (exec w (reportCommand ctx) s []) as [[o s'] acc]. cbn [trace].
    destruct Hr as (res & ->). exists res. reflexivity.
  - pose proof (report_no_reply ctx w s Hchat Hrep) as Hr.
    destruct (exec w (reportCommand ctx) s []) as [[o s'] acc]. cbn [trace].
    destruct Hr as (res & ->). exists res. reflexivity.
Qed.

(** X17: A report in a chat without rules, whether the rule text is missing,
    empty or cannot be read, is not analysed: the next call replaces the
    status message by the notice that no rules are set, and no inference
    call, deletion or restriction is made. *)
Theorem report_without_rules (ctx : Context) (w : World) (s : state w) :
  let r := run w (reportCommand ctx) s in
  let key := simpleRulesKey (chat_id ctx) in
  existsb (is_unset_read key) (trace r) = true ->
  exists loading rules res pre post,
    trace r = pre ++ Ev (RedisGet key) rules
                  :: Ev (EditMessageText (chat_id ctx) loading NO_RULES_REPORT) res
                  :: post /\
    forallb (fun e => negb (is_action e)) (trace r) = true /\
    (res = Fulfilled tt -> post = [] /\ value r = Returned tt).
Proof.
  intros r key. subst r key. unfold run.
  pose proof (report_unset ctx w s) as Hr.
  destruct (exec w (reportCommand ctx) s []) as [[o s'] acc].
  cbn [trace value]. rewrite existsb_rev. intros Hf.
  destruct (Hr Hf) as (loading & rules & res & pre & post & -> & Hact & Hres).
  exists loading, rules, res, (List.rev pre), (List.rev post).
  split.
  { rewrite List.rev_app_distr. cbn [List.rev]. rewrite <- !app_assoc. reflexivity. }
  split; [rewrite forallb_rev; exact Hact|].
  intros E. destruct (Hres E) as [-> ->]. split; reflexivity.
Qed.

(** X18: A report on a message without a photo that is not older than the
    rules is analysed.  Whenever the handler reads a creation time that
    is not later than the date of the message (an equal time included,
    as well as a missing, unreadable or non-numeric one), its next call
    is the inference request, made of the prompt built from the rule
    text read just before and of one user message quoting the text of
    the reported message. *)
Theorem text_report_is_analysed (ctx : Context) (replied : Message)
    (w : World) (s : state w) :
  reply_to_message ctx = Some replied -> photo replied = None ->
  let r := run w (reportCommand ctx) s in
  existsb (is_read_not_later (rulesCreatedKey (chat_id ctx)) (date replied)) (trace r)
  = true ->
  exists rules created res pre post,
    trace r = pre ++ Ev (RedisGet (simpleRulesKey (chat_id ctx))) (Fulfilled (Some rules))
                  :: Ev (RedisGet (rulesCreatedKey (chat_id ctx))) created
                  :: Ev (inferencePost (textRequest rules replied)) res
                  :: post /\
    rules <> [].
Proof.
  intros Hrep Hphoto r. subst r. unfold run.
  pose proof (report_not_later ctx replied w s Hrep Hphoto) as Hr.
  destruct (exec w (reportCommand ctx) s []) as [[o s'] acc].
  cbn [trace]. rewrite existsb_rev. intros Hf.
  destruct (Hr Hf) as (rules & created & res & pre & post & -> & Hne).
  exists rules, created, res, (List.rev pre), (List.rev post).
  split; [|exact Hne].
  rewrite List.rev_app_distr. cbn [List.rev]. rewrite <- !app_assoc. reflexivity.
Qed.

(** X19: The inference request for a message with a photo.  The request is
    made right after the download of the last, largest, size of the
    photo; it carries the prompt built from the rule text read before
    and one user message of two parts, a text (the caption analysis
    when there is a caption) and the downloaded octets as a base64
    [data:] URL. *)
Theorem photo_report_request (ctx : Context) (replied : Message)
    (sizes : list PhotoSize) (w : World) (s : state w)
    (pre post : list event) (e : event) :
  reply_to_message ctx = Some replied -> photo replied = Some sizes ->
  trace (run w (reportCommand ctx) s) = pre ++ e :: post ->
  is_inference e = true ->
  exists largest path data rules created res pre',
    last sizes = Some largest /\
    pre = pre' ++ [Ev (RedisGet (simpleRulesKey (chat_id ctx))) (Fulfilled (Some rules));
                   Ev (RedisGet (rulesCreatedKey (chat_id ctx))) created;
                   Ev (GetFile (file_id largest)) (Fulfilled path);
                   Ev (AxiosGet (lit "https://api.telegram.org/file/bot" ++ BOT_TOKEN
                                 ++ lit "/" ++ path)) (Fulfilled data)] /\
    e = Ev (inferencePost
              [{| role := lit "system"; content := Plain (buildFullPrompt rules) |};
               photoMessage replied data]) res.
Proof.
  intros Hrep Hphoto. unfold run.
  pose proof (report_photo ctx replied sizes w s Hrep Hphoto) as Hall.
  destruct (exec w (reportCommand ctx) s []) as [[o s'] acc]. cbn [trace].
  intros Hcut He.
  destruct (ForallEarlier_trace _ acc Hall pre e post Hcut He)
    as (largest & path & data & rules & created & res & earlier & Hl & Hpre & ->).
  exists largest, path, data, rules, created, res, (List.rev earlier).
  split; [exact Hl|]. split; [|reflexivity].
  rewrite <- (List.rev_involutive pre), Hpre. cbn [List.rev].
  rewrite <- !app_assoc. reflexivity.
Qed.

(** X20: When the photo of a reported message cannot be fetched ([getFile]
    or the download is rejected), the report is abandoned: the next and
    last call replaces the status message by the notice that the
    analysis failed, and no inference call, deletion or restriction is
    made. *)
Theorem failed_download_aborts_report (ctx : Context) (w : World) (s : state w) :
  let r := run w (reportCommand ctx) s in
  existsb is_failed_download (trace r) = true ->
  exists loading res e pre,
    trace r = pre ++ [e; Ev (EditMessageText (chat_id ctx) loading ANALYSIS_FAILED) res] /\
    is_failed_download e = true /\
    forallb (fun e => negb (is_action e)) (trace r) = true /\
    value r = match res with Fulfilled _ => Returned tt | Rejected => Thrown end.
Proof.
  intros r. subst r. unfold run.
  pose proof (report_failed_download ctx w s) as Hr.
  destruct (exec w (reportCommand ctx) s []) as [[o s'] acc].
  cbn [trace value]. rewrite existsb_rev. intros Hf.
  destruct (Hr Hf) as (loading & res & e & pre & -> & He & Hact & ->).
  exists loading, res, e, (List.rev pre). cbn [List.rev]. rewrite <- !app_assoc.
  split; [reflexivity|]. split; [exact He|].
  split; [|reflexivity].
  rewrite <- Hact, <- (forallb_rev _ (_ :: _ :: pre)). cbn [List.rev].
  rewrite <- !app_assoc. reflexivity.
Qed.

(** X21: A reported message is deleted, and its sender restricted, only after
    the inference endpoint has answered with a verdict of violation. *)
Theorem no_action_without_violation_verdict (ctx : Context) (w : World)
    (s : state w) (pre post : list event) (e : event) :
  trace (run w (reportCommand ctx) s) = pre ++ e :: post ->
  is_delete e || is_restrict e = true ->
  existsb is_violation_verdict pre = true.
Proof.
  unfold run. pose proof (report_actions ctx w s) as Hall.
  destruct (exec w (reportCommand ctx) s []) as [[o s'] acc]. cbn [trace].
  intros Hcut He. rewrite <- existsb_rev.
  exact (ForallEarlier_trace _ acc Hall pre e post Hcut He).
Qed.

(** X22: The sender of a reported message is restricted only by the call
    that follows the successful deletion of that message, and the
    restriction is the one of lines 284-293: every permission to send
    withdrawn, without expiry. *)
Theorem restriction_follows_deletion (ctx : Context) (replied : Message)
    (w : World) (s : state w) (pre post : list event) (e : event) :
  reply_to_message ctx = Some replied ->
  trace (run w (reportCommand ctx) s) = pre ++ e :: post ->
  is_restrict e = true ->
  exists res pre',
    e = Ev (RestrictChatMember (chat_id ctx) (from_id replied) (UntilNum 0)
              MUTE_PERMISSIONS) res /\
    pre = pre' ++ [Ev (DeleteMessage (chat_id ctx) (message_id replied)) (Fulfilled tt)].
Proof.
  intros Hrep. unfold run. pose proof (report_restricts ctx replied w s Hrep) as Hall.
  destruct (exec w (reportCommand ctx) s []) as [[o s'] acc]. cbn [trace].
  intros Hcut He.
  destruct (ForallEarlier_trace _ acc Hall pre e post Hcut He) as (res & earlier & -> & Hpre).
  exists res, (List.rev earlier). split; [reflexivity|].
  rewrite <- (List.rev_involutive pre), Hpre. reflexivity.
Qed.

(** X23: When the deletion of the reported message or the restriction of
    its sender is rejected, the next and last call is the reply that
    the violation was detected but the action failed, with the reason
    of the verdict; after a rejected deletion no restriction is
    attempted. *)
Theorem failed_enforcement_is_reported (ctx : Context) (replied : Message)
    (w : World) (s : state w) :
  reply_to_message ctx = Some replied ->
  let r := run w (reportCommand ctx) s in
  existsb is_failed_enforcement (trace r) = true ->
  exists messages content res e pre,
    trace r = pre ++ [e; Ev (Reply (ACTION_FAILED replied
                                      (reason (parseResponse content)))) res] /\
    is_failed_enforcement e = true /\
    In (Ev (inferencePost messages) (Fulfilled (Answered content))) pre /\
    (is_delete e = true -> existsb is_restrict (trace r) = false) /\
    value r = match res with Fulfilled _ => Returned tt | Rejected => Thrown end.
Proof.
  intros Hrep r. subst r. unfold run.
  pose proof (report_failed_enforcement ctx replied w s Hrep) as Hr.
  destruct (exec w (reportCommand ctx) s []) as [[o s'] acc].
  cbn [trace value]. rewrite !existsb_rev. intros Hf.
  destruct (Hr Hf) as (messages & content & res & e & pre & -> & He & Hin & Hd & ->).
  exists messages, content, res, e, (List.rev pre). cbn [List.rev].
  rewrite <- !app_assoc.
  split; [reflexivity|]. split; [exact He|].
  split; [apply List.in_rev in Hin; exact Hin|].
  split; [exact Hd | reflexivity].
Qed.

(** X24: A report that gets as far as reading the rules always resolves
    its status message: whatever happens next (no rules, a message
    older than the rules, a failed download, a verdict), the handler
    goes on to edit the message that said the content was being
    analysed. *)
Theorem report_resolves_its_status (ctx : Context) (w : World) (s : state w) :
  let r := run w (reportCommand ctx) s in
  existsb is_store_access (trace r) = true -> existsb is_edit (trace r) = true.
Proof.
  intros r. subst r. unfold run.
  pose proof (report_footprint ctx w s) as Hr.
  destruct (exec w (reportCommand ctx) s []) as [[o s'] acc]. cbn [trace].
  destruct Hr as (_ & _ & _ & _ & Hr). rewrite !existsb_rev. intros Ha.
  rewrite Ha in Hr. exact Hr.
Qed.

(** X25: What a report never does and does at most once: it writes nothing
    to the store, and makes at most one inference request, one deletion
    and one restriction. *)
Theorem report_calls_are_bounded (ctx : Context) (w : World) (s : state w) :
  let r := run w (reportCommand ctx) s in
  existsb is_store_write (trace r) = false /\
  length (List.filter is_inference (trace r)) <= 1 /\
  length (List.filter is_delete (trace r)) <= 1 /\
  length (List.filter is_restrict (trace r)) <= 1.
Proof.
  intros r. subst r. unfold run.
  pose proof (report_footprint ctx w s) as Hr.
  destruct (exec w (reportCommand ctx) s []) as [[o s'] acc]. cbn [trace].
  destruct Hr as (Hw & Hi & Hd & Hr & _).
  rewrite !length_filter_rev. apply Nat.leb_le in Hi, Hd, Hr.
  split; [|tauto].
  rewrite existsb_rev. apply forallb_negb_existsb, Hw.
Qed.

(** X29: The rules and the creation time that [/rules set] stores govern
    a report.  With a non-empty rule text and the decimal string of a
    whole number of seconds under the two keys of the chat, a report on
    a message without a photo that gets as far as the store either
    (the message is older than the rules) takes no action and edits the
    status message to the notice that the message predates the rules,
    or (the message is not older) sends the inference request built
    from the stored rule text and the reported message. *)
Theorem stored_rules_govern_reports (ctx : Context) (replied : Message) (rules : str)
    (seconds : Z) (w : World) (s : state w) (store : gmap str str) :
  reply_to_message ctx = Some replied -> photo replied = None ->
  store !! simpleRulesKey (chat_id ctx) = Some rules -> rules <> [] ->
  store !! rulesCreatedKey (chat_id ctx) = Some (toString seconds) ->
  let r := run (withStore w) (reportCommand ctx) (s, store) in
  existsb is_store_access (trace r) = true ->
  if (Z.of_N (date replied) <? seconds)%Z
  then
    forallb (fun e => negb (is_action e)) (trace r) = true /\
    exists loading res,
      In (Ev (EditMessageText (chat_id ctx) loading PREDATES_RULES) res) (trace r)
  else
    exists res, In (Ev (inferencePost (textRequest rules replied)) res) (trace r).
Proof.
  intros Hrep Hphoto Hrules Hne Hcreated r. subst r. unfold run.
  pose proof (report_with_store ctx replied rules seconds w s store
                Hrep Hphoto Hrules Hne Hcreated) as Hr.
  destruct (exec (withStore w) (reportCommand ctx) (s, store) []) as [[o s'] acc].
  cbn [trace]. rewrite existsb_rev, forallb_rev. intros Hf. specialize (Hr Hf).
  destruct (Z.of_N (date replied) <? seconds)%Z.
  - destruct Hr as (Hall & loading & res & Hin).
    split; [exact Hall|]. exists loading, res. apply List.in_rev in Hin. exact Hin.
  - destruct Hr as (res & Hin). exists res. apply List.in_rev in Hin. exact Hin.
Qed.

(** X30: A verdict of violation is enforced step by step.  The call after
    the answer that carries the verdict is the edit of the status
    message to the violation notice with the reason of the verdict.  If
    that edit is rejected the handler stops there and throws.  If it
    succeeds the reported message is deleted next; after a successful
    deletion the sender is restricted, without expiry and with every
    permission to send withdrawn; after a successful restriction the
    chat is told that the user was muted, for the same reason, and when
    that reply is delivered the handler is done. *)
Theorem violation_is_enforced (ctx : Context) (replied : Message)
    (w : World) (s : state w) :
  reply_to_message ctx = Some replied ->
  let r := run w (reportCommand ctx) s in
  existsb is_violation_verdict (trace r) = true ->
  exists messages content loading res pre after,
    trace r = pre ++ Ev (inferencePost messages) (Fulfilled (Answered content))
                  :: Ev (EditMessageText (chat_id ctx) loading
                           (VIOLATION (reason (parseResponse content)))) res
                  :: after /\
    (res = Rejected -> after = [] /\ value r = Thrown) /\
    (res = Fulfilled tt ->
     exists deleted after1,
       after = Ev (DeleteMessage (chat_id ctx) (message_id replied)) deleted :: after1 /\
       (deleted = Fulfilled tt ->
        exists restricted after2,
          after1 = Ev (RestrictChatMember (chat_id ctx) (from_id replied) (UntilNum 0)
                         MUTE_PERMISSIONS) restricted :: after2 /\
          (restricted = Fulfilled tt ->
           exists notified after3,
             after2 = Ev (Reply (MUTED replied (reason (parseResponse content))))
                        notified :: after3 /\
             (notified <> Rejected -> after3 = [] /\ value r = Returned tt)))).
Proof.
  intros Hrep r. subst r. unfold run.
  pose proof (report_enforces ctx replied w s Hrep) as Hr.
  destruct (exec w (reportCommand ctx) s []) as [[o s'] acc].
  cbn [trace value]. rewrite existsb_rev. intros Hf.
  destruct (Hr Hf) as (messages & content & loading & res & pre & after & -> & Hrej & Hok).
  exists messages, content, loading, res, (List.rev pre), after.
  split.
  { rewrite List.rev_app_distr, List.rev_involutive. cbn [List.rev].
    rewrite <- !app_assoc. reflexivity. }
  split; [exact Hrej|].
  intros Hres. destruct (Hok Hres) as (deleted & after1 & -> & Hdel).
  exists deleted, after1. split; [reflexivity|].
  intros Hd. destruct (Hdel Hd) as (restricted & after2 & -> & Hmute).
  exists restricted, after2. split; [reflexivity|].
  intros Hm. destruct (Hmute Hm) as (notified & after3 & -> & Hend & Hlast).
  exists notified, after3. split; [reflexivity|].
  intros Hn. pose proof (Hlast Hn) as ->. split; [reflexivity|].
  rewrite (Hend eq_refl). destruct notified; [reflexivity | congruence].
Qed.

End ReportProperties.

(** * The three commands together *)

Section Commands.

Context `{Host}.

Lemma strictEq_neq (a b : str) : a <> b -> strictEq a b = false.
Proof. intros Hne. unfold strictEq. apply bool_decide_eq_false_2, Hne. Qed.

Lemma groups_only (ctx : Context) (w : World) (s : state w)
    (handler : Context -> Prog unit) :
  chat_type ctx <> lit "supergroup" ->
  In handler [rulesCommand; unmuteCommand; reportCommand] ->
  let '(o, _, acc) := exec w (handler ctx) s [] in
  exists res,
    acc = [Ev (Reply GROUPS_ONLY) res] /\
    o = match res with Fulfilled _ => Returned tt | Rejected => Thrown end.
Proof.
  intros Hchat Hin. apply strictEq_neq in Hchat.
  destruct Hin as [<- | [<- | [<- | []]]].
  - unfold rulesCommand. rewrite Hchat. exec_all; eexists; split; reflexivity.
  - unfold unmuteCommand. rewrite Hchat. exec_all; eexists; split; reflexivity.
  - unfold reportCommand. rewrite Hchat. exec_all; eexists; split; reflexivity.
Qed.

(** X26: The three commands work in supergroups only.  In a chat of any
    other type (a private chat, a basic group, a channel) each of them
    makes one call, the reply that the command is for groups only, and
    nothing else: no lookup, no access to the store, no action. *)
Theorem commands_are_for_supergroups (ctx : Context) (w : World) (s : state w)
    (handler : Context -> Prog unit) :
  chat_type ctx <> lit "supergroup" ->
  In handler [rulesCommand; unmuteCommand; reportCommand] ->
  let r := run w (handler ctx) s in
  exists res,
    trace r = [Ev (Reply GROUPS_ONLY) res] /\
    value r = match res with Fulfilled _ => Returned tt | Rejected => Thrown end.
Proof.
  intros Hchat Hin r. subst r. unfold run.
  pose proof (groups_only ctx w s handler Hchat Hin) as Hr.
  destruct (exec w (handler ctx) s []) as [[o s'] acc]. cbn [trace value].
  destruct Hr as (res & -> & ->). exists res. split; reflexivity.
Qed.

Lemma simpleRulesKey_inj (a b : Z) : simpleRulesKey a = simpleRulesKey b -> a = b.
Proof.
  unfold simpleRulesKey. intros E. apply app_inv_head in E. apply toString_inj, E.
Qed.

Lemma rulesCreatedKey_inj (a b : Z) : rulesCreatedKey a = rulesCreatedKey b -> a = b.
Proof.
  unfold rulesCreatedKey. intros E. apply app_inv_head in E. apply toString_inj, E.
Qed.

Lemma own_keys_other (chatId other : Z) (e : event) :
  other <> chatId -> own_keys chatId e ->
  accessed_key e <> Some (simpleRulesKey other) /\
  accessed_key e <> Some (rulesCreatedKey other).
Proof.
  unfold own_keys. intros Hne Hown.
  destruct (accessed_key e) as [k|]; [|split; discriminate].
  split; intros E; injection E as ->; destruct Hown as [E | E].
  - apply Hne, simpleRulesKey_inj, E.
  - exact (keys_distinct _ _ E).
  - exact (keys_distinct _ _ (eq_sym E)).
  - apply Hne, rulesCreatedKey_inj, E.
Qed.

Ltac own_keys_all :=
  repeat (apply List.Forall_cons; [cbn; auto|]); apply List.Forall_nil.

Lemma commands_own_keys (ctx : Context) (w : World) (s : state w)
    (handler : Context -> Prog unit) :
  In handler [rulesCommand; unmuteCommand; reportCommand] ->
  let '(_, _, acc) := exec w (handler ctx) s [] in
  Forall (own_keys (chat_id ctx)) acc.
Proof.
  intros Hin. destruct Hin as [<- | [<- | [<- | []]]].
  - unfold rulesCommand, getSimpleRules, isAuthorizedUser, setCustomRules, resetRules.
    exec_all; own_keys_all.
  - unfold unmuteCommand, isAuthorizedUser. exec_all; own_keys_all.
  - unfold reportCommand, analyse, getSimpleRules, getRulesCreatedDate,
      buildUserMsg, callHuggingFace, enforce.
    exec_all; own_keys_all.
Qed.

(** X27: The rules are kept per chat: a command sent in one chat never
    reads, writes or deletes the rule text or the creation time of
    another chat, since the two keys are distinct for distinct chat
    identifiers and every call to the store is on a key of the chat of
    the command. *)
Theorem commands_keep_to_their_chat (ctx : Context) (other : Z) (w : World)
    (s : state w) (handler : Context -> Prog unit) :
  other <> chat_id ctx ->
  In handler [rulesCommand; unmuteCommand; reportCommand] ->
  Forall (fun e => accessed_key e <> Some (simpleRulesKey other) /\
                   accessed_key e <> Some (rulesCreatedKey other))
    (trace (run w (handler ctx) s)).
Proof.
  intros Hne Hin. unfold run.
  pose proof (commands_own_keys ctx w s handler Hin) as Hr.
  destruct (exec w (handler ctx) s []) as [[o s'] acc]. cbn [trace].
  apply List.Forall_rev. eapply List.Forall_impl; [|exact Hr].
  intros e. apply own_keys_other, Hne.
Qed.

Lemma rules_unmute_footprint (ctx : Context) (w : World) (s : state w) :
  (let '(_, _, acc) := exec w (rulesCommand ctx) s [] in
   forallb (fun e => is_reply e || is_lookup e || is_store_access e) acc = true) /\
  (let '(_, _, acc) := exec w (unmuteCommand ctx) s [] in
   forallb (fun e => is_reply e || is_lookup e || is_restrict e) acc = true /\
   (length (List.filter is_restrict acc) <=? 1)%nat = true).
Proof.
  split.
  - unfold rulesCommand, getSimpleRules, isAuthorizedUser, setCustomRules, resetRules.
    exec_all; reflexivity.
  - unfold unmuteCommand, isAuthorizedUser. exec_all; split; reflexivity.
Qed.

(** X28: What [/rules] and [/unmute] never do.  [/rules] only replies, looks
    the sender up and calls the store: it never calls the inference
    endpoint, deletes a message or restricts a member.  [/unmute] only
    replies, looks members up and lifts restrictions, at most once: it
    never touches the store, the inference endpoint or a message. *)
Theorem rules_and_unmute_calls (ctx : Context) (w : World) (s : state w) :
  forallb (fun e => is_reply e || is_lookup e || is_store_access e)
    (trace (run w (rulesCommand ctx) s)) = true /\
  forallb (fun e => is_reply e || is_lookup e || is_restrict e)
    (trace (run w (unmuteCommand ctx) s)) = true /\
  length (List.filter is_restrict (trace (run w (unmuteCommand ctx) s))) <= 1.
Proof.
  destruct (rules_unmute_footprint ctx w s) as [Hr Hu]. unfold run.
  destruct (exec w (rulesCommand ctx) s []) as [[o1 s1] acc1].
  destruct (exec w (unmuteCommand ctx) s []) as [[o2 s2] acc2]. cbn [trace].
  destruct Hu as [Hu Hn]. rewrite !forallb_rev, length_filter_rev.
  apply Nat.leb_le in Hn. tauto.
Qed.

End Commands.

(** * Runs of the properties on sample data *)

Lemma setCustomRules_writes_witness :
  let w := fixedWorld Rejected None None Rejected in
  let r := run w (setCustomRules 1 sampleRules) tt in
  exists r1,
    value r <> Thrown /\
    match r1 with
    | Rejected =>
        trace r = [Ev (RedisSet (simpleRulesKey 1) (trim sampleRules)) r1] /\
        value r = Returned None
    | Fulfilled _ =>
        exists r2,
          trace r = [Ev (RedisSet (simpleRulesKey 1) (trim sampleRules)) r1;
                     Ev (RedisSet (rulesCreatedKey 1) (toString (0 / 1000))) r2] /\
          value r = Returned match r2 with
                             | Fulfilled _ => Some (buildFullPrompt sampleRules)
                             | Rejected => None
                             end
    end.
Proof.
  intros w r. refine (setCustomRules_writes 1 sampleRules w tt _). vm_compute. lia.
Defined.

Lemma set_then_get_created_witness :
  let w := atTime 1700000000999 (fixedWorld Rejected None None Rejected) in
  let set := run (withStore w) (setCustomRules 1 sampleRules) (tt, ∅) in
  value (run (withStore w) (getRulesCreatedDate 1) (final set))
  = Returned (Some (Int 1700000000)) /\
  forall messageDate : N,
    predatesRules messageDate (Some (Int 1700000000))
    = (Z.of_N messageDate <? 1700000000)%Z.
Proof.
  intros w.
  refine (set_then_get_created w tt ∅ 1 sampleRules _ _); vm_compute; [lia | discriminate].
Defined.

Lemma anyone_can_read_the_rules_witness :
  let H := sampleHost in
  let ctx := sampleCommand (lit "/rules ") None in
  exists res,
    trace (run sampleWorld (rulesCommand ctx) tt)
    = [Ev (RedisGet (simpleRulesKey (-1001))) (Fulfilled (Some sampleRules));
       Ev (Reply (CURRENT_RULES sampleRules)) res].
Proof.
  intros H ctx.
  exact (anyone_can_read_the_rules ctx (lit " ") sampleWorld tt eq_refl eq_refl eq_refl).
Defined.

Lemma unauthorized_cannot_change_rules_witness :
  let H := sampleHost in
  let ctx := sampleCommand (lit "/rules set no links, no spam, be kind") None in
  existsb is_store_write (trace (run sampleWorld (rulesCommand ctx) tt)) = false.
Proof.
  intros H ctx. apply (unauthorized_cannot_change_rules ctx sampleWorld tt eq_refl).
  intros member s1 E. injection E as <- _. split; discriminate.
Defined.

Lemma rules_set_replies_witness :
  let H := sampleHost in
  let w := fixedWorld (Fulfilled sampleAdmin) None None Rejected in
  let ctx := sampleCommand (lit "/rules set   no links, no spam, be kind ") None in
  authorizedFrom ctx w tt tt /\
  exists pre res,
    trace (run w (rulesCommand ctx) tt)
    = pre ++ [Ev (RedisSet (simpleRulesKey (-1001)) sampleRules) (Fulfilled tt);
              Ev (RedisSet (rulesCreatedKey (-1001)) (lit "0")) (Fulfilled tt);
              Ev (Reply (RULES_SET_DONE sampleRules)) res] /\
    forallb is_lookup pre = true.
Proof.
  intros H w ctx.
  assert (Hauth : authorizedFrom ctx w tt tt).
  { right. split; [reflexivity|]. exists sampleAdmin. split; [reflexivity|].
    left. reflexivity. }
  split; [exact Hauth|].
  destruct (rules_set_replies ctx (lit "  no links, no spam, be kind ") w tt tt
              eq_refl eq_refl Hauth) as (pre & rest & Ht & Hpre & Hrest).
  cbn in Hrest. destruct Hrest as (r1 & r2 & res & Hrest).
  exists pre, res. split; [|exact Hpre]. rewrite Ht.
  destruct r1 as [[]|], r2 as [[]|]; rewrite Hrest in Ht |- *;
    first [reflexivity | exfalso; clear -Ht; vm_compute in Ht;
           repeat (destruct pre as [|? pre]; try discriminate Ht; injection Ht as ? Ht)].
Defined.

Lemma rules_set_then_show_witness :
  let H := sampleHost in
  let w := atTime 1700000000999 (fixedWorld (Fulfilled sampleAdmin) None None Rejected) in
  let ctx := sampleCommand (lit "/rules set   no links, no spam, be kind ") None in
  let ctx' := sampleCommand (lit "/rules") None in
  let set := run (withStore w) (rulesCommand ctx) (tt, ∅) in
  let show := run (withStore w) (rulesCommand ctx') (final set) in
  snd (final set) = <[rulesCreatedKey (-1001) := lit "1700000000"]>
                      (<[simpleRulesKey (-1001) := sampleRules]> ∅) /\
  exists res,
    trace show = [Ev (RedisGet (simpleRulesKey (-1001))) (Fulfilled (Some sampleRules));
                  Ev (Reply (CURRENT_RULES sampleRules)) res].
Proof.
  intros H w ctx ctx'.
  refine (rules_set_then_show ctx ctx' (lit "  no links, no spam, be kind ") w tt tt ∅
            eq_refl eq_refl _ _ eq_refl eq_refl eq_refl).
  - vm_compute. lia.
  - right. split; [reflexivity|]. exists sampleAdmin. split; [reflexivity|].
    left. reflexivity.
Defined.

Lemma rules_reset_then_show_witness :
  let H := sampleHost in
  let w := fixedWorld (Fulfilled sampleAdmin) None None Rejected in
  let ctx := sampleCommand (lit "/rules reset now") None in
  let ctx' := sampleCommand (lit "/rules") None in
  let store : gmap str str := {[ simpleRulesKey (-1001) := sampleRules ]} in
  let reset := run (withStore w) (rulesCommand ctx) (tt, store) in
  let show := run (withStore w) (rulesCommand ctx') (final reset) in
  snd (final reset)
  = delete (rulesCreatedKey (-1001)) (delete (simpleRulesKey (-1001)) store) /\
  exists res,
    trace show = [Ev (RedisGet (simpleRulesKey (-1001))) (Fulfilled None);
                  Ev (Reply NO_RULES_SET) res].
Proof.
  intros H w ctx ctx' store.
  refine (rules_reset_then_show ctx ctx' (lit " now") w tt tt store
            eq_refl eq_refl _ _ eq_refl eq_refl eq_refl).
  - right. eexists. reflexivity.
  - right. split; [reflexivity|]. exists sampleAdmin. split; [reflexivity|].
    left. reflexivity.
Defined.

Lemma subcommand_case_is_ignored_witness :
  let H := sampleHost in
  let w := withStore (fixedWorld (Fulfilled sampleAdmin) None None Rejected) in
  let upper := sampleCommand (lit "/rules SeT no links, no spam, be kind") None in
  let lower := sampleCommand (lit "/rules set no links, no spam, be kind") None in
  run w (rulesCommand upper) (tt, ∅) = run w (rulesCommand lower) (tt, ∅) /\
  snd (final (run w (rulesCommand upper) (tt, ∅))) !! simpleRulesKey (-1001)
  = Some sampleRules.
Proof.
  intros H w upper lower. split; [|vm_compute; reflexivity].
  refine (subcommand_case_is_ignored upper lower (lit "SeT")
            (lit " no links, no spam, be kind") w (tt, ∅)
            eq_refl eq_refl eq_refl eq_refl eq_refl _ eq_refl eq_refl _).
  - discriminate.
  - right. eexists. reflexivity.
Defined.

Lemma rules_with_bot_name_is_invalid_witness :
  let H := sampleHost in
  let w := fixedWorld (Fulfilled sampleAdmin) None None Rejected in
  let ctx := sampleCommand (lit "/rules@AiBotX set no links, no spam, be kind") None in
  exists pre res,
    trace (run w (rulesCommand ctx) tt) = pre ++ [Ev (Reply RULES_INVALID) res] /\
    forallb is_lookup pre = true.
Proof.
  intros H w ctx.
  refine (rules_with_bot_name_is_invalid ctx (lit "AiBotX")
            (lit " set no links, no spam, be kind") w tt eq_refl eq_refl eq_refl eq_refl _).
  right. eexists. reflexivity.
Defined.

Lemma unmute_without_number_shows_usage_witness :
  let ctx := sampleCommand (lit "/unmute@AiBotX 42") None in
  exists res,
    trace (run sampleWorld (unmuteCommand ctx) tt) = [Ev (Reply UNMUTE_USAGE) res].
Proof.
  intros ctx.
  apply (unmute_without_number_shows_usage ctx (lit "@AiBotX 42") sampleWorld tt
           eq_refl eq_refl).
  right. exists [], 64%N, (lit "AiBotX 42"). repeat split; discriminate.
Defined.

Lemma unauthorized_cannot_unmute_witness :
  let ctx := sampleCommand (lit "/unmute 42") None in
  existsb is_restrict (trace (run sampleWorld (unmuteCommand ctx) tt)) = false.
Proof.
  intros ctx. apply (unauthorized_cannot_unmute ctx sampleWorld tt eq_refl).
  intros member s1 E. injection E as <- _. split; discriminate.
Defined.

Lemma unmute_notices_witness :
  let w := fixedWorld (Fulfilled sampleAdmin) None None Rejected in
  let ctx := sampleCommand (lit "/unmute 42") None in
  decimalValue (lit "42") = 42%N /\
  exists pre lookup res,
    trace (run w (unmuteCommand ctx) tt)
    = pre ++ [Ev (RestrictChatMember (-1001) 42 UntilFalse UNMUTE_PERMISSIONS)
                (Fulfilled tt);
              Ev (GetChatMember (-1001) 42) lookup;
              Ev (Reply (UNMUTE_DONE (unmutedDisplay 42 lookup))) res] /\
    forallb is_lookup pre = true.
Proof.
  intros w ctx. split; [reflexivity|].
  assert (Hauth : authorizedFrom ctx w tt tt).
  { right. split; [reflexivity|]. exists sampleAdmin. split; [reflexivity|].
    left. reflexivity. }
  assert (Hne : lit "42" <> []) by discriminate.
  assert (Hbound : (decimalValue (lit "42") <= 2 ^ 53)%N) by (vm_compute; discriminate).
  destruct (unmute_notices ctx (lit "42") [] w tt tt eq_refl eq_refl Hne eq_refl I
              eq_refl Hbound Hauth) as (pre & after & done & Ht & Hpre & Hafter).
  assert (Hdone : exists u, done = Fulfilled u).
  { destruct done as [u|]; [exists u; reflexivity|]. exfalso.
    destruct Hafter as (res & ->). clear -Ht. vm_compute in Ht.
    repeat (destruct pre as [|? pre]; try discriminate Ht; injection Ht as ? Ht). }
  destruct Hdone as ([] & ->). destruct Hafter as (lookup & res & Hafter).
  cbv zeta in Hafter. exists pre, lookup, res. split; [|exact Hpre].
  destruct res as [x|]; [rewrite Ht, Hafter; reflexivity|]. exfalso.
  destruct Hafter as (res' & ->). clear -Ht. vm_compute in Ht.
  repeat (destruct pre as [|? pre]; try discriminate Ht; injection Ht as ? Ht).
Defined.

Lemma report_needs_a_message_witness :
  let H := sampleHost in
  let ctx := sampleCommand (lit "/report") None in
  exists res,
    trace (run sampleWorld (reportCommand ctx) tt) = [Ev (Reply REPLY_TO_REPORT) res].
Proof.
  intros H ctx. exact (report_needs_a_message ctx sampleWorld tt eq_refl).
Defined.

Lemma report_without_rules_witness :
  let H := sampleHost in
  let w := fixedWorld (Fulfilled sampleMember) None None sampleYes in
  let ctx := sampleCommand (lit "/report") (Some (sampleText 1700000010)) in
  let r := run w (reportCommand ctx) tt in
  let key := simpleRulesKey (chat_id ctx) in
  existsb (is_unset_read key) (trace r) = true /\
  exists loading rules res pre post,
    trace r = pre ++ Ev (RedisGet key) rules
                  :: Ev (EditMessageText (chat_id ctx) loading NO_RULES_REPORT) res
                  :: post /\
    forallb (fun e => negb (is_action e)) (trace r) = true /\
    (res = Fulfilled tt -> post = [] /\ value r = Returned tt).
Proof.
  intros H w ctx r key.
  assert (Hf : existsb (is_unset_read key) (trace r) = true) by (vm_compute; reflexivity).
  split; [exact Hf|]. exact (report_without_rules ctx w tt Hf).
Defined.

(** The message was sent in the very second the rules were created. *)
Lemma text_report_is_analysed_witness :
  let H := sampleHost in
  let replied := sampleText 1700000000 in
  let ctx := sampleCommand (lit "/report") (Some replied) in
  let r := run sampleWorld (reportCommand ctx) tt in
  existsb (is_read_not_later (rulesCreatedKey (chat_id ctx)) (date replied)) (trace r)
  = true /\
  exists rules created res pre post,
    trace r = pre ++ Ev (RedisGet (simpleRulesKey (chat_id ctx))) (Fulfilled (Some rules))
                  :: Ev (RedisGet (rulesCreatedKey (chat_id ctx))) created
                  :: Ev (inferencePost (textRequest rules replied)) res
                  :: post /\
    rules <> [].
Proof.
  intros H replied ctx r.
  assert (Hf : existsb (is_read_not_later (rulesCreatedKey (chat_id ctx)) (date replied))
                 (trace r) = true) by (vm_compute; reflexivity).
  split; [exact Hf|].
  exact (text_report_is_analysed ctx replied sampleWorld tt eq_refl eq_refl Hf).
Defined.

Lemma photo_report_request_witness :
  let H := sampleHost in
  let ctx := sampleCommand (lit "/report") (Some samplePhoto) in
  let t := trace (run sampleWorld (reportCommand ctx) tt) in
  let sizes := [{| file_id := lit "small" |}; {| file_id := lit "large" |}] in
  exists e,
    List.nth_error t 6 = Some e /\ is_inference e = true /\
    exists largest path data rules created res pre',
      last sizes = Some largest /\
      List.firstn 6 t
      = pre' ++ [Ev (RedisGet (simpleRulesKey (chat_id ctx))) (Fulfilled (Some rules));
                 Ev (RedisGet (rulesCreatedKey (chat_id ctx))) created;
                 Ev (GetFile (file_id largest)) (Fulfilled path);
                 Ev (AxiosGet (lit "https://api.telegram.org/file/bot" ++ BOT_TOKEN
                               ++ lit "/" ++ path)) (Fulfilled data)] /\
      e = Ev (inferencePost
                [{| role := lit "system"; content := Plain (buildFullPrompt rules) |};
                 photoMessage samplePhoto data]) res.
Proof.
  intros H ctx t sizes.
  destruct (List.nth_error t 6) as [e|] eqn:He; [|discriminate He].
  exists e. split; [reflexivity|].
  assert (Hi : is_inference e = true) by (injection He as <-; reflexivity).
  split; [exact Hi|].
  apply (photo_report_request ctx samplePhoto sizes sampleWorld tt (List.firstn 6 t)
           (List.skipn 7 t) e eq_refl eq_refl); [|exact Hi].
  injection He as <-. reflexivity.
Defined.

Lemma failed_download_aborts_report_witness :
  let H := sampleHost in
  let w := failing failsGetFile sampleWorld in
  let ctx := sampleCommand (lit "/report") (Some samplePhoto) in
  let r := run w (reportCommand ctx) tt in
  existsb is_failed_download (trace r) = true /\
  exists loading res e pre,
    trace r = pre ++ [e; Ev (EditMessageText (chat_id ctx) loading ANALYSIS_FAILED) res] /\
    is_failed_download e = true /\
    forallb (fun e => negb (is_action e)) (trace r) = true /\
    value r = match res with Fulfilled _ => Returned tt | Rejected => Thrown end.
Proof.
  intros H w ctx r.
  assert (Hf : existsb is_failed_download (trace r) = true) by (vm_compute; reflexivity).
  split; [exact Hf|]. exact (failed_download_aborts_report ctx w tt Hf).
Defined.

Lemma no_action_without_violation_verdict_witness :
  let H := sampleHost in
  let ctx := sampleCommand (lit "/report") (Some (sampleText 1700000010)) in
  let t := trace (run sampleWorld (reportCommand ctx) tt) in
  List.nth_error t 6 = Some (Ev (DeleteMessage (-1001) 7) (Fulfilled tt)) /\
  existsb is_violation_verdict (List.firstn 6 t) = true.
Proof.
  intros H ctx t. split; [reflexivity|].
  apply (no_action_without_violation_verdict ctx sampleWorld tt (List.firstn 6 t)
           (List.skipn 7 t) (Ev (DeleteMessage (-1001) 7) (Fulfilled tt)));
    reflexivity.
Defined.

Lemma restriction_follows_deletion_witness :
  let H := sampleHost in
  let replied := sampleText 1700000010 in
  let ctx := sampleCommand (lit "/report") (Some replied) in
  let t := trace (run sampleWorld (reportCommand ctx) tt) in
  let e := Ev (RestrictChatMember (-1001) 42 (UntilNum 0) MUTE_PERMISSIONS)
             (Fulfilled tt) in
  List.nth_error t 7 = Some e /\
  exists res pre',
    e = Ev (RestrictChatMember (chat_id ctx) (from_id replied) (UntilNum 0)
              MUTE_PERMISSIONS) res /\
    List.firstn 7 t
    = pre' ++ [Ev (DeleteMessage (chat_id ctx) (message_id replied)) (Fulfilled tt)].
Proof.
  intros H replied ctx t e. split; [reflexivity|].
  apply (restriction_follows_deletion ctx replied sampleWorld tt (List.firstn 7 t)
           (List.skipn 8 t) e); reflexivity.
Defined.

Lemma failed_enforcement_is_reported_witness :
  let H := sampleHost in
  let w := failing failsDelete sampleWorld in
  let replied := sampleText 1700000010 in
  let ctx := sampleCommand (lit "/report") (Some replied) in
  let r := run w (reportCommand ctx) tt in
  existsb is_failed_enforcement (trace r) = true /\
  exists messages content res e pre,
    trace r = pre ++ [e; Ev (Reply (ACTION_FAILED replied
                                      (reason (parseResponse content)))) res] /\
    is_failed_enforcement e = true /\
    In (Ev (inferencePost messages) (Fulfilled (Answered content))) pre /\
    (is_delete e = true -> existsb is_restrict (trace r) = false) /\
    value r = match res with Fulfilled _ => Returned tt | Rejected => Thrown end.
Proof.
  intros H w replied ctx r.
  assert (Hf : existsb is_failed_enforcement (trace r) = true) by (vm_compute; reflexivity).
  split; [exact Hf|].
  exact (failed_enforcement_is_reported ctx replied w tt eq_refl Hf).
Defined.

Lemma report_resolves_its_status_witness :
  let H := sampleHost in
  let w := fixedWorld (Fulfilled sampleMember) (Some sampleRules) None
             (Fulfilled Unreadable) in
  let ctx := sampleCommand (lit "/report") (Some (sampleText 1700000010)) in
  let r := run w (reportCommand ctx) tt in
  existsb is_store_access (trace r) = true /\ existsb is_edit (trace r) = true.
Proof.
  intros H w ctx r.
  assert (Ha : existsb is_store_access (trace r) = true) by (vm_compute; reflexivity).
  split; [exact Ha|]. exact (report_resolves_its_status ctx w tt Ha).
Defined.

Lemma commands_are_for_supergroups_witness :
  let H := sampleHost in
  let ctx := {| chat_type := lit "group"; chat_id := (-5); from := 5;
                message_text := lit "/report";
                reply_to_message := Some (sampleText 1700000010) |} in
  let r := run sampleWorld (reportCommand ctx) tt in
  exists res,
    trace r = [Ev (Reply GROUPS_ONLY) res] /\
    value r = match res with Fulfilled _ => Returned tt | Rejected => Thrown end.
Proof.
  intros H ctx.
  refine (commands_are_for_supergroups ctx sampleWorld tt reportCommand _ _).
  - discriminate.
  - right. right. left. reflexivity.
Defined.

Lemma commands_keep_to_their_chat_witness :
  let H := sampleHost in
  let ctx := sampleCommand (lit "/rules reset") None in
  let w := fixedWorld (Fulfilled sampleAdmin) None None Rejected in
  Forall (fun e => accessed_key e <> Some (simpleRulesKey (-1002)) /\
                   accessed_key e <> Some (rulesCreatedKey (-1002)))
    (trace (run w (rulesCommand ctx) tt)).
Proof.
  intros H ctx w.
  refine (commands_keep_to_their_chat ctx (-1002) w tt rulesCommand _ _).
  - discriminate.
  - left. reflexivity.
Defined.

(** A message sent one second before the rules were stored. *)
Lemma stored_rules_govern_reports_witness :
  let H := sampleHost in
  let w := fixedWorld (Fulfilled sampleMember) None None sampleYes in
  let store : gmap str str :=
    <[rulesCreatedKey (-1001) := toString 1700000000]>
      (<[simpleRulesKey (-1001) := sampleRules]> ∅) in
  let replied := sampleText 1699999999 in
  let ctx := sampleCommand (lit "/report") (Some replied) in
  let r := run (withStore w) (reportCommand ctx) (tt, store) in
  existsb is_store_access (trace r) = true /\
  forallb (fun e => negb (is_action e)) (trace r) = true /\
  exists loading res,
    In (Ev (EditMessageText (chat_id ctx) loading PREDATES_RULES) res) (trace r).
Proof.
  intros H w store replied ctx r.
  assert (Hf : existsb is_store_access (trace r) = true) by (vm_compute; reflexivity).
  split; [exact Hf|].
  refine (stored_rules_govern_reports ctx replied sampleRules 1700000000 w tt store
            eq_refl eq_refl _ _ _ Hf).
  - vm_compute. reflexivity.
  - discriminate.
  - vm_compute. reflexivity.
Defined.

Lemma violation_is_enforced_witness :
  let H := sampleHost in
  let replied := sampleText 1700000010 in
  let ctx := sampleCommand (lit "/report") (Some replied) in
  let r := run sampleWorld (reportCommand ctx) tt in
  existsb is_violation_verdict (trace r) = true /\
  exists messages content loading res pre after,
    trace r = pre ++ Ev (inferencePost messages) (Fulfilled (Answered content))
                  :: Ev (EditMessageText (chat_id ctx) loading
                           (VIOLATION (reason (parseResponse content)))) res
                  :: after /\
    (res = Rejected -> after = [] /\ value r = Thrown) /\
    (res = Fulfilled tt ->
     exists deleted after1,
       after = Ev (DeleteMessage (chat_id ctx) (message_id replied)) deleted :: after1 /\
       (deleted = Fulfilled tt ->
        exists restricted after2,
          after1 = Ev (RestrictChatMember (chat_id ctx) (from_id replied) (UntilNum 0)
                         MUTE_PERMISSIONS) restricted :: after2 /\
          (restricted = Fulfilled tt ->
           exists notified after3,
             after2 = Ev (Reply (MUTED replied (reason (parseResponse content))))
                        notified :: after3 /\
             (notified <> Rejected -> after3 = [] /\ value r = Returned tt)))).
Proof.
  intros H replied ctx r.
  assert (Hf : existsb is_violation_verdict (trace r) = true) by (vm_compute; reflexivity).
  split; [exact Hf|].
  exact (violation_is_enforced ctx replied sampleWorld tt eq_refl Hf).
Defined.
